(** * Research-paper summariser and website generator: a shallow embedding

    The development follows [src/app.py] (the SQLite service) and
    [src/api/index.py] (the Postgres service).  Part I embeds the pieces
    of Python the two files rely on (str methods, [re.sub], JSON values,
    exceptions threaded through a world state) and then the functions of
    the services themselves.  Part II states and proves the properties. *)

From Stdlib Require Import List Ascii String Bool Arith Lia ZArith QArith.
From Stdlib Require Import Sorting.Sorted Sorting.Permutation.
From Stdlib Require Import Floats.SpecFloat Numbers.DecimalString.
Import ListNotations.

Set Implicit Arguments.
#[local] Set Warnings "-register-all".

(* ================================================================== *)
(** * Part I.  Definitions                                             *)
(* ================================================================== *)

(** ** Python [str]

    A [str] is a sequence of code points; the model keeps one [ascii]
    per code point, so it covers the code points below 256.  String
    literals are read through the coercion [lit]. *)

Definition str := list ascii.

Definition lit (s : string) : list ascii := list_ascii_of_string s.
Coercion lit : string >-> list.

#[local] Close Scope Q_scope.
#[local] Open Scope string_scope.
#[local] Open Scope list_scope.
#[local] Open Scope nat_scope.

(** The double quote cannot be written inside a literal. *)
Definition dquote : ascii := ascii_of_nat 34.
Definition squote : ascii := ascii_of_nat 39.
Definition newline : ascii := ascii_of_nat 10.

(** [str.isspace] on one code point ([Py_UNICODE_ISSPACE]): TAB..CR,
    FS..US, SPACE, NEL (0x85) and NBSP (0xA0) are the ones below 256. *)
Definition isspace (c : ascii) : bool :=
  let n := nat_of_ascii c in
  ((9 <=? n) && (n <=? 13)) || ((28 <=? n) && (n <=? 32))
  || (n =? 133) || (n =? 160).

Fixpoint lstrip (s : str) : str :=
  match s with
  | c :: s' => if isspace c then lstrip s' else s
  | [] => []
  end.

Definition rstrip (s : str) : str := rev (lstrip (rev s)).

(** [s.strip()] *)
Definition strip (s : str) : str := lstrip (rstrip s).

(** [s.startswith(p)] *)
Fixpoint startswith (s p : str) {struct p} : bool :=
  match p with
  | [] => true
  | a :: p' =>
      match s with
      | b :: s' => Ascii.eqb a b && startswith s' p'
      | [] => false
      end
  end.

Definition cons_head (c : ascii) (l : list str) : list str :=
  match l with
  | p :: ps => (c :: p) :: ps
  | [] => [[c]]
  end.

Definition may_split (maxsplit : option nat) : bool :=
  match maxsplit with Some 0 => false | _ => true end.

Definition one_split_less (maxsplit : option nat) : option nat :=
  match maxsplit with Some n => Some (pred n) | None => None end.

(** [s.split(sep, maxsplit)] for a non-empty [sep]; [None] is Python's
    default [maxsplit=-1].  The scan goes left to right; [skip] counts
    the characters of an already recognised separator still to pass. *)
Fixpoint split_scan (sep : str) (maxsplit : option nat) (skip : nat) (s : str)
  : list str :=
  match s with
  | [] => [[]]
  | c :: s' =>
      match skip with
      | S k => split_scan sep maxsplit k s'
      | 0 =>
          if may_split maxsplit && startswith s sep
          then [] :: split_scan sep (one_split_less maxsplit) (pred (List.length sep)) s'
          else cons_head c (split_scan sep maxsplit 0 s')
      end
  end.

Definition split (s sep : str) (maxsplit : option nat) : list str :=
  split_scan sep maxsplit 0 s.

(** [sep.join(l)] *)
Fixpoint join (sep : str) (l : list str) : str :=
  match l with
  | [] => []
  | [x] => x
  | x :: l' => x ++ sep ++ join sep l'
  end.

(** [s[:n]] *)
Definition slice_to (n : nat) (s : str) : str := firstn n s.

(** Truthiness of a [str]. *)
Definition nonempty (s : str) : bool :=
  match s with [] => false | _ :: _ => true end.

(** ** Python [re]: a backtracking matcher

    The two patterns of [clean_js_code] use literals, character classes,
    greedy repetition of a class, alternation, an optional item and
    capturing groups.  [mt] is the usual backtracking search in
    continuation style: alternatives are tried in priority order
    (longest repetition first, left alternative first) and the first
    complete match wins, which is how [re] picks a match at a position. *)

Inductive regex : Type :=
| Eps
| Chr (p : ascii -> bool)
| Seq (r1 r2 : regex)
| Alt (r1 r2 : regex)
| Rep (min : nat) (p : ascii -> bool)
| Group (i : nat) (r : regex).

Fixpoint Lit (s : str) : regex :=
  match s with
  | [] => Eps
  | a :: s' => Seq (Chr (Ascii.eqb a)) (Lit s')
  end.

Definition Opt (r : regex) : regex := Alt r Eps.

Definition cat (l : list regex) : regex := fold_right Seq Eps l.

(** Captured groups, most recent binding first. *)
Definition caps := list (nat * str).

Fixpoint group (i : nat) (c : caps) : str :=
  match c with
  | [] => []
  | (j, g) :: c' => if j =? i then g else group i c'
  end.

Section Matcher.
Variable R : Type.

Definition cont := str -> caps -> option R.

(** Greedy [p{min,}]: take one more character when possible and fall
    back to stopping here when the rest of the pattern then fails. *)
Fixpoint rep (p : ascii -> bool) (min : nat) (k : cont) (s : str) (c : caps)
  : option R :=
  match s with
  | a :: s' =>
      if p a then
        match rep p (pred min) k s' c with
        | Some x => Some x
        | None => if min =? 0 then k s c else None
        end
      else if min =? 0 then k s c else None
  | [] => if min =? 0 then k s c else None
  end.

Fixpoint mt (r : regex) (k : cont) (s : str) (c : caps) {struct r} : option R :=
  match r with
  | Eps => k s c
  | Chr p =>
      match s with
      | a :: s' => if p a then k s' c else None
      | [] => None
      end
  | Seq r1 r2 => mt r1 (mt r2 k) s c
  | Alt r1 r2 =>
      match mt r1 k s c with
      | Some x => Some x
      | None => mt r2 k s c
      end
  | Rep min p => rep p min k s c
  | Group i r =>
      mt r (fun s' c' => k s' ((i, firstn (List.length s - List.length s') s) :: c')) s c
  end.
End Matcher.

(** A match at the start of [s]: the groups and the text after the match. *)
Definition re_match (r : regex) (s : str) : option (caps * str) :=
  mt r (fun s' c => Some (c, s')) s [].

(** The same, refusing the empty match (the matcher's [must_advance]). *)
Definition re_match_advancing (r : regex) (s : str) : option (caps * str) :=
  mt r (fun s' c => if List.length s' <? List.length s then Some (c, s') else None) s [].

(** Replacement templates: text and group references. *)
Inductive tpl_item : Type :=
| TText (t : str)
| TRef (i : nat).

Fixpoint expand (tpl : list tpl_item) (c : caps) : str :=
  match tpl with
  | [] => []
  | TText t :: tpl' => t ++ expand tpl' c
  | TRef i :: tpl' => group i c ++ expand tpl' c
  end.

(** [re.sub(r, tpl, s)]: leftmost non-overlapping matches, scanned left
    to right.  [skip] counts the characters of the current match still
    to pass.  After an empty match the same position is tried again for
    a non-empty one, otherwise the character is copied. *)
Fixpoint sub_scan (r : regex) (tpl : list tpl_item) (skip : nat) (s : str) : str :=
  match s with
  | [] =>
      match skip with
      | S _ => []
      | 0 =>
          match re_match r [] with
          | Some (c, _) => expand tpl c
          | None => []
          end
      end
  | a :: s' =>
      match skip with
      | S k => sub_scan r tpl k s'
      | 0 =>
          match re_match r s with
          | Some (c, rest) =>
              match List.length s - List.length rest with
              | S m => expand tpl c ++ sub_scan r tpl m s'
              | 0 =>
                  expand tpl c ++
                  match re_match_advancing r s with
                  | Some (c', rest') =>
                      expand tpl c' ++
                      sub_scan r tpl (pred (List.length s - List.length rest')) s'
                  | None => a :: sub_scan r tpl 0 s'
                  end
              end
          | None => a :: sub_scan r tpl 0 s'
          end
      end
  end.

Definition re_sub (r : regex) (tpl : list tpl_item) (s : str) : str :=
  sub_scan r tpl 0 s.

(** [re.search(r, s) is not None] *)
Fixpoint re_found (r : regex) (s : str) : bool :=
  match re_match r s with
  | Some _ => true
  | None => match s with [] => false | _ :: s' => re_found r s' end
  end.

(** The texts a pattern describes: what a match of the pattern consumes
    is one of them. *)
Fixpoint lang (r : regex) (u : str) : Prop :=
  match r with
  | Eps => u = []
  | Chr p => exists a, u = [a] /\ p a = true
  | Seq r1 r2 => exists u1 u2, u = u1 ++ u2 /\ lang r1 u1 /\ lang r2 u2
  | Alt r1 r2 => lang r1 u \/ lang r2 u
  | Rep min p => forallb p u = true /\ min <= List.length u
  | Group _ r => lang r u
  end.

Definition neq_char (a : ascii) : ascii -> bool := fun c => negb (Ascii.eqb c a).

Definition isquote (c : ascii) : bool := Ascii.eqb c squote || Ascii.eqb c dquote.

(** [r'const\s+([^=]+)\s*=\s*require\(\'([^\']+)\'\);?'] *)
Definition require_re : regex :=
  cat [ Lit "const"; Rep 1 isspace; Group 1 (Rep 1 (neq_char "="));
        Rep 0 isspace; Lit "="; Rep 0 isspace; Lit "require('";
        Group 2 (Rep 1 (neq_char squote)); Lit "')"; Opt (Lit ";") ].

(** [r'// const \1 = require("\2"); // Commented out for browser compatibility'] *)
Definition require_repl : list tpl_item :=
  [ TText "// const "; TRef 1; TText " = require("; TText [dquote]; TRef 2;
    TText [dquote]; TText "); // Commented out for browser compatibility" ].

(** [r'import\s+[^;\n]+\s+from\s+[\'"](fs|path|http|module)[\'"];'] *)
Definition import_re : regex :=
  cat [ Lit "import"; Rep 1 isspace;
        Rep 1 (fun c => negb (Ascii.eqb c ";") && negb (Ascii.eqb c newline));
        Rep 1 isspace; Lit "from"; Rep 1 isspace; Chr isquote;
        Group 1 (Alt (Lit "fs") (Alt (Lit "path") (Alt (Lit "http") (Lit "module"))));
        Chr isquote; Lit ";" ].

Definition import_repl : list tpl_item :=
  [ TText "// Server-side import removed for browser" ].

(** [clean_js_code], identical in [app.py] and [api/index.py]. *)
Definition clean_js_code (code : str) : str :=
  let code := re_sub require_re require_repl code in
  let code := re_sub import_re import_repl code in
  code.

Definition commented_require (names module : str) : str :=
  "// const " ++ names ++ " = require(" ++ [dquote] ++ module ++ [dquote]
  ++ "); // Commented out for browser compatibility".

(** ** JSON values and Python dictionaries

    What [json.loads] returns and what FastAPI hands to an endpoint
    declared with [data: dict].  A dictionary is kept as the list of its
    items in insertion order. *)

Inductive json : Type :=
| JNull
| JBool (b : bool)
| JInt (z : Z)
| JFloat (f : spec_float)
| JStr (s : str)
| JArr (l : list json)
| JObj (items : list (str * json)).

Definition dict := list (str * json).

Fixpoint str_eqb (a b : str) : bool :=
  match a, b with
  | [], [] => true
  | x :: a', y :: b' => Ascii.eqb x y && str_eqb a' b'
  | _, _ => false
  end.

(** [d[k]], with [None] for the [KeyError]. *)
Fixpoint dict_get (k : str) (d : dict) : option json :=
  match d with
  | [] => None
  | (k', v) :: d' => if str_eqb k k' then Some v else dict_get k d'
  end.

(** [d[k] = v]: an existing key keeps its place, a new one goes last. *)
Fixpoint dict_set (k : str) (v : json) (d : dict) : dict :=
  match d with
  | [] => [(k, v)]
  | (k', v') :: d' => if str_eqb k k' then (k', v) :: d' else (k', v') :: dict_set k v d'
  end.

(** [d.get(k)]: Python's [None] is [JNull]. *)
Definition dict_get_default (k : str) (d : dict) : json :=
  match dict_get k d with Some v => v | None => JNull end.

(** Truth value of an object, as tested by [if not x]. *)
Definition truthy (v : json) : bool :=
  match v with
  | JNull => false
  | JBool b => b
  | JInt z => negb (Z.eqb z 0)
  | JFloat f => match f with S754_zero _ => false | _ => true end
  | JStr s => nonempty s
  | JArr l => match l with [] => false | _ => true end
  | JObj items => match items with [] => false | _ => true end
  end.

(** ** Exceptions, the world and the effect monad *)

Inductive exn : Type :=
| HTTPException (status_code : nat) (detail : str)
| PyError (msg : str).

Definition decimal (n : nat) : str := lit (NilEmpty.string_of_uint (Nat.to_uint n)).

(** [str(e)] *)
Definition exn_str (e : exn) : str :=
  match e with
  | HTTPException code detail => decimal code ++ ": " ++ detail
  | PyError msg => msg
  end.

Definition status_of (e : exn) : option nat :=
  match e with
  | HTTPException code _ => Some code
  | PyError _ => None
  end.

(** One row of the [summaries] table. *)
Record row : Type := Row {
  row_id : str;
  row_filename : str;
  row_summary : str;
  row_conclusion : str;
  row_project_ideas : str
}.

(** The arguments of one [client.chat.completions.create] call. *)
Record request : Type := Request {
  model : str;
  content : str;
  max_tokens : nat;
  temperature : Q;
  json_object : bool
}.

(** What the services can observe and change: the committed rows of the
    table, the calls made to the model so far, and how many identifiers
    have been drawn. *)
Record world : Type := World {
  db : list row;
  calls : list request;
  drawn : nat
}.

(** What the services depend on and do not define. *)
Record env : Type := Env {
  (** answer to the n-th model call: the message content, or [None]
      when the call raises or the content is missing *)
  chat_create : nat -> request -> option str;
  (** the n-th identifier drawn, [str(uuid.uuid4())] *)
  uuid4 : nat -> str;
  json_loads : str -> option json;
  json_dumps : json -> str;
  (** [str(v)] for a value that is not a [str] *)
  py_repr : json -> str;
  (** whether [psycopg2.connect] succeeds *)
  postgres_up : bool;
  (** the ordering of text in the Postgres database *)
  collate : str -> str -> bool
}.

Definition M (A : Type) : Type := world -> (exn + A) * world.

Definition ret {A} (x : A) : M A := fun w => (inr x, w).

Definition raise {A} (e : exn) : M A := fun w => (inl e, w).

Definition bind {A B} (m : M A) (k : A -> M B) : M B :=
  fun w =>
    match m w with
    | (inr x, w') => k x w'
    | (inl e, w') => (inl e, w')
    end.

(** [try: m  except Exception as e: h e] *)
Definition try_except {A} (m : M A) (h : exn -> M A) : M A :=
  fun w =>
    match m w with
    | (inr x, w') => (inr x, w')
    | (inl e, w') => h e w'
    end.

Definition lift {A} (r : exn + A) : M A :=
  match r with inr x => ret x | inl e => raise e end.

Notation "x <- m ;; k" := (bind m (fun x => k))
  (at level 61, m at next level, right associativity).
Notation "' pat <- m ;; k" := (bind m (fun x => match x with pat => k end))
  (at level 61, pat pattern, m at next level, right associativity).

(** A model call: logged, then answered by the environment. *)
Definition chat (E : env) (rq : request) : M str :=
  fun w =>
    let w' := World (db w) (calls w ++ [rq]) (drawn w) in
    match chat_create E (List.length (calls w)) rq with
    | Some out => (inr out, w')
    | None => (inl (PyError "model call failed"), w')
    end.

Definition new_uuid (E : env) : M str :=
  fun w => (inr (uuid4 E (drawn w)), World (db w) (calls w) (S (drawn w))).

Definition has_id (i : str) (rows : list row) : bool :=
  existsb (fun r => str_eqb i (row_id r)) rows.

(** The text holds the code point 0. *)
Definition has_nul (t : str) : bool := existsb (Ascii.eqb zero) t.

(** f-string interpolation of a value. *)
Definition format_value (E : env) (v : json) : str :=
  match v with
  | JStr s => s
  | _ => py_repr E v
  end.

(** ** Uploaded files *)

(** [page.extract_text()]: text, [None], or an exception. *)
Inductive page : Type :=
| PageText (t : option str)
| PageError (msg : str).

(** [PyPDF2.PdfReader(file_obj)]: the pages, or an exception. *)
Inductive pdf_stream : Type :=
| Pdf (pages : list page)
| Malformed (msg : str).

Record UploadFile : Type := Upload {
  filename : str;
  file : pdf_stream
}.

(** [x or ""] *)
Definition or_empty (t : option str) : str :=
  match t with Some s => s | None => [] end.

(** ["".join(page.extract_text() or "" for page in reader.pages)] *)
Fixpoint join_pages (pages : list page) : exn + str :=
  match pages with
  | [] => inr []
  | PageError msg :: _ => inl (PyError msg)
  | PageText t :: pages' =>
      match join_pages pages' with
      | inr rest => inr (or_empty t ++ rest)
      | inl e => inl e
      end
  end.

(** One element of the JSON answer of the two listing endpoints. *)
Record summary_view : Type := View {
  view_filename : str;
  view_summary : str;
  view_conclusion : str;
  view_project_ideas : list str
}.

(** ** Ordering rows *)

Fixpoint insert_by {A} (le : A -> A -> bool) (x : A) (l : list A) : list A :=
  match l with
  | [] => [x]
  | y :: l' => if le x y then x :: l else y :: insert_by le x l'
  end.

Definition sort_by {A} (le : A -> A -> bool) (l : list A) : list A :=
  fold_right (insert_by le) [] l.

(** Comparison of two texts code point by code point (SQLite's BINARY
    collation). *)
Fixpoint str_leb (a b : str) : bool :=
  match a, b with
  | [], _ => true
  | _ :: _, [] => false
  | x :: a', y :: b' =>
      if nat_of_ascii x <? nat_of_ascii y then true
      else if nat_of_ascii y <? nat_of_ascii x then false
      else str_leb a' b'
  end.

(** [SELECT ... FROM summaries ORDER BY filename] *)
Definition order_by_filename (le : str -> str -> bool) (rows : list row) : list row :=
  sort_by (fun a b => le (row_filename a) (row_filename b)) rows.

(** [{"filename": r[1], ..., "project_ideas": r[4].split("|") if r[4] else []}] *)
Definition row_view (r : row) : summary_view :=
  View (row_filename r) (row_summary r) (row_conclusion r)
       (if nonempty (row_project_ideas r)
        then split (row_project_ideas r) "|" None
        else []).

(** [data["frontend"]["script_js"] = clean_js_code(data["frontend"]["script_js"])] *)
Definition clean_script (data : json) : exn + json :=
  match data with
  | JObj d =>
      match dict_get "frontend" d with
      | Some (JObj fe) =>
          match dict_get "script_js" fe with
          | Some (JStr js) =>
              inr (JObj (dict_set "frontend"
                           (JObj (dict_set "script_js" (JStr (clean_js_code js)) fe)) d))
          | Some _ => inl (PyError "TypeError")
          | None => inl (PyError "KeyError: 'script_js'")
          end
      | Some _ => inl (PyError "TypeError")
      | None => inl (PyError "KeyError: 'frontend'")
      end
  | _ => inl (PyError "TypeError")
  end.

(** [json.loads(content)] *)
Definition loads (E : env) (content : str) : exn + json :=
  match json_loads E content with
  | Some v => inr v
  | None => inl (PyError "JSONDecodeError")
  end.

(** ** The stages shared by the two services

    [generate_summary_and_conclusion], [generate_project_ideas] and the
    two listing helpers read the same in [app.py] and [api/index.py]. *)

Definition llama3 : str := "llama3-70b-8192".

Definition placeholder : str := "No specific conclusion was generated.".

Definition summary_prompt (text : str) : str :=
  "Summarize the following research paper text (max 200 words) and provide a separate conclusion. Separate the summary and conclusion with the exact phrase 'Conclusion:'."
  ++ [newline; newline] ++ "Text: " ++ slice_to 4000 text.

(** [parts = output.split("Conclusion:", 1)] and the two lines after it. *)
Definition split_summary (output : str) : str * str :=
  let parts := split output "Conclusion:" (Some 1) in
  let summary := strip (nth 0 parts []) in
  let conclusion :=
    if 1 <? List.length parts then strip (nth 1 parts []) else placeholder in
  (summary, conclusion).

Definition generate_summary_and_conclusion (E : env) (text : str) : M (str * str) :=
  let prompt := summary_prompt text in
  try_except
    (output <- chat E (Request llama3 prompt 500 (7 # 10) false) ;;
     ret (split_summary output))
    (fun _ => raise (HTTPException 500 "Error communicating with AI for summary generation.")).

Definition ideas_prompt (summary : str) : str :=
  "Based on the following research summary, list 3-5 innovative and feasible website project ideas. Each idea should be on a new line and described in a single, concise sentence."
  ++ [newline; newline] ++ "Summary:" ++ [newline] ++ summary.

(** [[idea.strip() for idea in raw_ideas.split("\n") if idea.strip()]] *)
Definition parse_ideas (output : str) : list str :=
  let raw_ideas := strip output in
  map strip (filter (fun idea => nonempty (strip idea)) (split raw_ideas [newline] None)).

Definition generate_project_ideas (E : env) (summary : str) : M (list str) :=
  let prompt := ideas_prompt summary in
  try_except
    (output <- chat E (Request llama3 prompt 300 (8 # 10) false) ;;
     ret (parse_ideas output))
    (fun _ => raise (HTTPException 500 "Error communicating with AI for project ideas.")).

(** The text extractor; the two files differ in the message of the
    [ValueError] only. *)
Definition extract_with (no_text : str) (file_obj : pdf_stream) : exn + str :=
  let failed (e : exn) : exn + str :=
    inl (HTTPException 400 ("Failed to extract text from PDF: " ++ exn_str e)) in
  match file_obj with
  | Malformed msg => failed (PyError msg)
  | Pdf pages =>
      match join_pages pages with
      | inl e => failed e
      | inr text =>
          if nonempty (strip text) then inr text
          else failed (PyError no_text)
      end
  end.

(** The body shared by [generate_website_code] and [edit_website_code]
    once the prompt is built. *)
Definition codebase_from_model (E : env) (prompt detail : str) : M json :=
  try_except
    (content <- chat E (Request llama3 prompt 4096 (5 # 10) true) ;;
     data <- lift (loads E content) ;;
     lift (clean_script data))
    (fun _ => raise (HTTPException 500 detail)).

(** [result["project_idea"] = project_idea]; [result] is a dictionary
    whenever [generate_website_code] returned. *)
Definition set_project_idea (project_idea : json) (result : json) : json :=
  match result with
  | JObj d => JObj (dict_set "project_idea" project_idea d)
  | other => other
  end.

(** ** [src/app.py] *)

Module App.

Definition extract_text_from_pdf : pdf_stream -> exn + str :=
  extract_with "No text could be extracted from the PDF. The file might be image-based or empty.".

Definition codegen_prompt (E : env) (project_idea : json) : str :=
lit "
Generate a complete, functional, and well-commented web application based on the following idea.

**Project Idea:** "
++ format_value E project_idea ++
lit "

**Requirements:**
1.  **Frontend (HTML/CSS/JS):**
    -   `index.html`: A well-structured and semantic HTML file using Tailwind CSS classes for styling.
    -   `styles.css`: A separate CSS file for any custom styles that go beyond Tailwind's utilities (e.g., complex animations).
    -   `script.js`: A single, self-contained JavaScript file using ES Modules. **Implement the actual application logic**, including DOM manipulation and making `fetch` calls to the backend API. Add comments explaining the code's functionality. The code should be immediately runnable, not just a placeholder.

2.  **Backend (FastAPI):**
    -   `app.py`: A functional FastAPI application.
    -   **Implement the actual backend logic for the API endpoints.** If the idea is a "
++ [dquote]
++ lit "Text Summarizer"
++ [dquote]
++ lit ", the endpoint should actually perform summarization. Add placeholder logic only if the task is impossible (e.g., requires a real database).
    -   Include robust input validation with Pydantic and clear error handling.

3.  **Instructions:**
    -   A clear Markdown string explaining the project, its dependencies, and how to run it.

**Output Format:**
Return a single, valid JSON object with the following keys: "
++ [dquote]
++ lit "frontend"
++ [dquote]
++ lit " (an object with "
++ [dquote]
++ lit "index_html"
++ [dquote]
++ lit ", "
++ [dquote]
++ lit "styles_css"
++ [dquote]
++ lit ", "
++ [dquote]
++ lit "script_js"
++ [dquote]
++ lit "), "
++ [dquote]
++ lit "backend"
++ [dquote]
++ lit ", "
++ [dquote]
++ lit "instructions"
++ [dquote]
++ lit ".
".

Definition edit_prompt (E : env) (original_code edit_request : json) : str :=
lit "
Given this website's source code and an edit request, modify the code to implement the change. Return the complete, updated code in the same JSON format. Ensure the logic remains functional and well-commented.

**Original Code:**
"
++ json_dumps E original_code ++
lit "

**Edit Request:**
"
++ format_value E edit_request ++
lit "
".

Definition generate_website_code (E : env) (project_idea : json) : M json :=
  codebase_from_model E (codegen_prompt E project_idea)
    "Failed to generate website code from AI.".

Definition edit_website_code (E : env) (original_code edit_request : json) : M json :=
  codebase_from_model E (edit_prompt E original_code edit_request)
    "Failed to edit website code with AI.".

(** Lines 180-184: connect, [INSERT], commit, close.  The table has
    [id] as its primary key, so a row whose id is taken is refused. *)
Definition insert_summary (E : env) (fname summary conclusion : str)
    (project_ideas : list str) : M unit :=
  i <- new_uuid E ;;
  fun w =>
    if has_id i (db w) then (inl (PyError "IntegrityError"), w)
    else (inr tt,
          World (db w ++ [Row i fname summary conclusion (join "|" project_ideas)])
                (calls w) (drawn w)).

Definition process_file (E : env) (f : UploadFile) : M summary_view :=
  try_except
    (text <- lift (extract_text_from_pdf (file f)) ;;
     ' (summary, conclusion) <- generate_summary_and_conclusion E text ;;
     project_ideas <- generate_project_ideas E summary ;;
     _ <- insert_summary E (filename f) summary conclusion project_ideas ;;
     ret (View (filename f) summary conclusion project_ideas))
    (fun _ => raise (HTTPException 500
       ("An error occurred while processing " ++ filename f ++ "."))).

(** The loop of [summarize_papers]; [results] is the list built so far. *)
Fixpoint summarize_loop (E : env) (files : list UploadFile)
    (results : list summary_view) : M (list summary_view) :=
  match files with
  | [] => ret results
  | f :: files' =>
      v <- process_file E f ;;
      summarize_loop E files' (results ++ [v])
  end.

Definition summarize_papers (E : env) (files : list UploadFile)
  : M (list summary_view) :=
  summarize_loop E files [].

Definition get_summaries : M (list summary_view) :=
  fun w => (inr (map row_view (order_by_filename str_leb (db w))), w).

Definition generate_website_code_api (E : env) (data : dict) : M json :=
  let project_idea := dict_get_default "idea" data in
  if negb (truthy project_idea) then
    raise (HTTPException 400 "Request body must include a project 'idea'.")
  else
    result <- generate_website_code E project_idea ;;
    ret (set_project_idea project_idea result).

Definition edit_code_api (E : env) (data : dict) : M json :=
  let original_code := dict_get_default "original_code" data in
  let edit_request := dict_get_default "edit_request" data in
  if negb (truthy original_code) || negb (truthy edit_request) then
    raise (HTTPException 400
      "Request body must include 'original_code' and 'edit_request'.")
  else
    edit_website_code E original_code edit_request.

End App.

(** ** [src/api/index.py] *)

Module Index.

Definition extract_text_from_pdf : pdf_stream -> exn + str :=
  extract_with "No text could be extracted from the PDF.".

Definition codegen_prompt (E : env) (project_idea : json) : str :=
lit "
Generate a complete, functional, and well-commented web application based on the following idea.
**Project Idea:** "
++ format_value E project_idea ++
lit "
**Requirements:**
1.  **Frontend (HTML/CSS/JS):** `index.html` (using Tailwind CSS), `styles.css`, `script.js` (using ES Modules and `fetch`).
2.  **Backend (FastAPI):** `app.py` with functional API endpoints.
3.  **Instructions:** A clear Markdown string explaining the project.
**Output Format:** A single, valid JSON object with keys: "
++ [dquote]
++ lit "frontend"
++ [dquote]
++ lit " (an object with "
++ [dquote]
++ lit "index_html"
++ [dquote]
++ lit ", "
++ [dquote]
++ lit "styles_css"
++ [dquote]
++ lit ", "
++ [dquote]
++ lit "script_js"
++ [dquote]
++ lit "), "
++ [dquote]
++ lit "backend"
++ [dquote]
++ lit ", "
++ [dquote]
++ lit "instructions"
++ [dquote]
++ lit ".
".

Definition edit_prompt (E : env) (original_code edit_request : json) : str :=
lit "
Given this website's source code and an edit request, modify the code to implement the change. Return the complete, updated code in the same JSON format.
**Original Code:** "
++ json_dumps E original_code ++
lit "
**Edit Request:** "
++ format_value E edit_request ++
lit "
".

Definition generate_website_code (E : env) (project_idea : json) : M json :=
  codebase_from_model E (codegen_prompt E project_idea)
    "Failed to generate website code from AI.".

Definition edit_website_code (E : env) (original_code edit_request : json) : M json :=
  codebase_from_model E (edit_prompt E original_code edit_request)
    "Failed to edit website code with AI.".

(** [get_db_connection]; creating the table when it is missing does
    not change its rows. *)
Definition get_db_connection (E : env) : M unit :=
  if postgres_up E then ret tt
  else raise (HTTPException 500 "Could not connect to the database.").

(** [cur.execute("INSERT ...", params)] through the open cursor.
    psycopg2 refuses a text parameter that holds the code point 0, which
    a PostgreSQL text cannot store, before anything is sent; the table
    has [id] as its primary key, so a row whose id is taken is refused
    by the server.  [pending] holds the rows inserted through the
    cursor and not yet committed. *)
Definition execute_insert (r : row) (pending : list row) : M unit :=
  fun w =>
    if existsb has_nul [row_id r; row_filename r; row_summary r; row_conclusion r;
                        row_project_ideas r]
    then (inl (PyError "A string literal cannot contain NUL (0x00) characters."), w)
    else if has_id (row_id r) (db w ++ pending) then (inl (PyError "UniqueViolation"), w)
    else (inr tt, w).

(** The loop of [summarize_papers]. *)
Fixpoint summarize_loop (E : env) (files : list UploadFile)
    (pending : list row) (results : list summary_view)
  : M (list row * list summary_view) :=
  match files with
  | [] => ret (pending, results)
  | f :: files' =>
      text <- lift (extract_text_from_pdf (file f)) ;;
      ' (summary, conclusion) <- generate_summary_and_conclusion E text ;;
      project_ideas <- generate_project_ideas E summary ;;
      i <- new_uuid E ;;
      let r := Row i (filename f) summary conclusion (join "|" project_ideas) in
      _ <- execute_insert r pending ;;
      summarize_loop E files' (pending ++ [r])
        (results ++ [View (filename f) summary conclusion project_ideas])
  end.

(** [conn.commit()] *)
Definition commit (pending : list row) : M unit :=
  fun w => (inr tt, World (db w ++ pending) (calls w) (drawn w)).

Definition summarize_papers (E : env) (files : list UploadFile)
  : M (list summary_view) :=
  try_except
    (_ <- get_db_connection E ;;
     ' (pending, results) <- summarize_loop E files [] [] ;;
     _ <- commit pending ;;
     ret results)
    (fun e => raise (HTTPException 500 ("An error occurred: " ++ exn_str e))).

Definition get_summaries (E : env) : M (list summary_view) :=
  try_except
    (_ <- get_db_connection E ;;
     fun w => (inr (map row_view (order_by_filename (collate E) (db w))), w))
    (fun e => raise (HTTPException 500 ("An error occurred: " ++ exn_str e))).

Definition generate_website_code_api (E : env) (data : dict) : M json :=
  let project_idea := dict_get_default "idea" data in
  if negb (truthy project_idea) then
    raise (HTTPException 400 "Request body must include a project 'idea'.")
  else
    result <- generate_website_code E project_idea ;;
    ret (set_project_idea project_idea result).

Definition edit_code_api (E : env) (data : dict) : M json :=
  let original_code := dict_get_default "original_code" data in
  let edit_request := dict_get_default "edit_request" data in
  if negb (truthy original_code) || negb (truthy edit_request) then
    raise (HTTPException 400
      "Request body must include 'original_code' and 'edit_request'.")
  else
    edit_website_code E original_code edit_request.

End Index.

(** ** Reference definitions used to state the properties *)

(** The idea list as the specification words it: split on line breaks,
    trim each line, drop the empty ones. *)
Definition spec_ideas (output : str) : list str :=
  filter nonempty (map strip (split output [newline] None)).

(** [sub in s] *)
Fixpoint contains (s sub : str) : bool :=
  startswith s sub ||
  match s with
  | [] => false
  | _ :: s' => contains s' sub
  end.

(** The part of a script line in front of a [//] comment. *)
Fixpoint code_part (line : str) : str :=
  match line with
  | [] => []
  | c :: line' => if startswith line "//" then [] else c :: code_part line'
  end.

(** A [require(] call site that is not inside a line comment. *)
Definition unsanitized_require (js : str) : bool :=
  existsb (fun line => contains (code_part line) "require(") (split js [newline] None).

(** The marker occurs in [s] with [pre] in front of it. *)
Definition occurs_after (marker pre s : str) : Prop :=
  exists post, s = pre ++ marker ++ post.

(** The lines of a text. *)
Definition lines (s : str) : list str := split_scan [newline] None 0 s.

(** Apply [f] to the last element. *)
Fixpoint map_last {A} (f : A -> A) (l : list A) : list A :=
  match l with
  | [] => []
  | [x] => [f x]
  | x :: l' => x :: map_last f l'
  end.

(** ** Concrete environments for the examples *)

(** The model answers its n-th call with the n-th element of [answers];
    [json.loads] yields [loaded] whatever the text. *)
Definition demo_env (answers : list (option str)) (loaded : option json) : env :=
  Env (fun n _ => nth n answers None)
      (fun n => "id-" ++ decimal n)
      (fun _ => loaded)
      (fun _ => "{}")
      (fun _ => "?")
      true
      str_leb.

Definition empty_world : world := World [] [] 0.

(** The requests the two text stages send. *)
Definition summary_request (text : str) : request :=
  Request llama3 (summary_prompt text) 500 (7 # 10) false.

Definition ideas_request (summary : str) : request :=
  Request llama3 (ideas_prompt summary) 300 (8 # 10) false.

(** [c in s] for one character. *)
Definition has_char (c : ascii) (s : str) : bool := existsb (Ascii.eqb c) s.

(** No idea of the list contains the separator of the stored column. *)
Definition separator_free (ideas : list str) : bool :=
  forallb (fun idea => negb (has_char "|" idea)) ideas.

(** The record the listing is to give for a stored row: the file name,
    summary and conclusion of the row, and the ideas whose join with
    the separator is the stored column, none of them holding the
    separator, the list with only the empty idea standing for no list
    at all. *)
Definition listed (r : row) (v : summary_view) : Prop :=
  view_filename v = row_filename r /\
  view_summary v = row_summary r /\
  view_conclusion v = row_conclusion r /\
  join "|" (view_project_ideas v) = row_project_ideas r /\
  separator_free (view_project_ideas v) = true /\
  view_project_ideas v <> [[]].

(** A text with nothing but white space (or nothing at all). *)
Definition blank (t : str) : bool := forallb isspace t.

(** The page texts of a stream whose structure and pages can all be
    read; [None] when the reader or a page raises. *)
Fixpoint texts_of (pages : list page) : option (list (option str)) :=
  match pages with
  | [] => Some []
  | PageError _ :: _ => None
  | PageText t :: pages' =>
      match texts_of pages' with
      | Some ts => Some (t :: ts)
      | None => None
      end
  end.

Definition readable (f : pdf_stream) : option (list (option str)) :=
  match f with
  | Pdf pages => texts_of pages
  | Malformed _ => None
  end.

(** The page texts in page order, a page without text counting as empty. *)
Definition concat_texts (ts : list (option str)) : str :=
  List.concat (map or_empty ts).

(** A field that is missing, the empty string or the empty object. *)
Definition empty_input (o : option json) : Prop :=
  o = None \/ o = Some (JStr []) \/ o = Some (JObj []).

(** The requests of the two code stages of [app.py] and [api/index.py]. *)
Definition code_request (prompt : str) : request :=
  Request llama3 prompt 4096 (5 # 10) true.

(** A store whose rows were inserted in an order that is neither the
    order of their file names nor that of their ids. *)
Definition shuffled_rows : list row :=
  [ Row "1" "b.pdf" "sb" "cb" "";
    Row "3" "c.pdf" "sc" "cc" "";
    Row "2" "a.pdf" "sa" "ca" "x|y" ].

Definition by_id (rows : list row) : list row :=
  sort_by (fun a b => str_leb (row_id a) (row_id b)) rows.

(** A batch of two uploads: the first can be read, the second cannot. *)
Definition good_file : UploadFile :=
  Upload "good.pdf" (Pdf [PageText (Some (lit "Paper body..."))]).

Definition bad_file : UploadFile :=
  Upload "bad.pdf" (Malformed "EOF marker not found").

Definition batch_env : env :=
  demo_env [Some (lit "S Conclusion: C"); Some (lit "Idea1")] None.

(** ** Script statements the sanitization properties speak about *)

(** Names bound by a [const]: they start with a visible character and
    hold no [=], no quote and no line break. *)
Definition js_names (names : str) : bool :=
  match names with
  | [] => false
  | c :: _ => negb (isspace c)
  end
  && forallb (fun c => negb (Ascii.eqb c "=") && negb (isquote c)
                       && negb (Ascii.eqb c newline)) names.

(** A module path: not empty, no quote, no semicolon, no line break. *)
Definition js_module (module : str) : bool :=
  nonempty module
  && forallb (fun c => negb (isquote c) && negb (Ascii.eqb c ";")
                       && negb (Ascii.eqb c newline)) module.

(** What an import binds: not empty, no semicolon, no line break, no [=]. *)
Definition js_binding (binding : str) : bool :=
  nonempty binding
  && forallb (fun c => negb (Ascii.eqb c ";") && negb (Ascii.eqb c newline)
                       && negb (Ascii.eqb c "=")) binding.

(** [const <names> = require('<module>');] *)
Definition require_stmt (names module : str) : str :=
  "const " ++ names ++ " = require('" ++ module ++ "');".

(** [import <binding> from <q1><module><q2>;] *)
Definition import_stmt (binding : str) (q1 : ascii) (module : str) (q2 : ascii) : str :=
  "import " ++ binding ++ " from " ++ [q1] ++ module ++ [q2] ++ ";".

Definition server_modules : list str := [lit "fs"; lit "path"; lit "http"; lit "module"].

Definition import_marker : str := "// Server-side import removed for browser".

(** A quote character directly followed by a semicolon occurs in [s]. *)
Fixpoint quote_semi (s : str) : bool :=
  match s with
  | [] => false
  | a :: s' =>
      match s' with
      | b :: _ => (isquote a && Ascii.eqb b ";") || quote_semi s'
      | [] => false
      end
  end.

(** ** Scripts made of statements the patterns cover *)

(** Every [const] in [t] has a [=] somewhere behind it in [t]. *)
Fixpoint const_closed (t : str) : bool :=
  match t with
  | [] => true
  | _ :: t' => (negb (startswith t "const") || has_char "=" t') && const_closed t'
  end.

(** Text in front of a statement that neither pattern reaches into:
    every [const] in it is followed by a [=], and it holds neither
    [require('] nor [import]. *)
Definition plain_before (t : str) : bool :=
  const_closed t && negb (contains t "require('") && negb (contains t "import").

(** How a statement starts. *)
Definition stmt_head (s : str) : Prop :=
  (exists s', s = "const " ++ s') \/ (exists s', s = "import " ++ s').

Definition comment_tail : str := " // Commented out for browser compatibility".

(** The two kinds of statement the patterns are written for. *)
Inductive statement : Type :=
| RequireStmt (names module : str)
| ImportStmt (binding : str) (q1 : ascii) (module : str) (q2 : ascii).

Definition statement_text (st : statement) : str :=
  match st with
  | RequireStmt names module => require_stmt names module
  | ImportStmt binding q1 module q2 => import_stmt binding q1 module q2
  end.

(** What the statement is expected to become. *)
Definition statement_cleaned (st : statement) : str :=
  match st with
  | RequireStmt names module => commented_require (names ++ [" "%char]) module
  | ImportStmt _ _ _ _ => import_marker
  end.

Definition covered_statement (st : statement) : bool :=
  match st with
  | RequireStmt names module => js_names names && js_module module
  | ImportStmt binding q1 module q2 =>
      js_binding binding && negb (contains binding "const")
      && isquote q1 && isquote q2 && existsb (str_eqb module) server_modules
  end.

(** A script: each statement with the text in front of it, then the
    text behind the last statement. *)
Fixpoint script_of (blocks : list (str * statement)) (tail : str) : str :=
  match blocks with
  | [] => tail
  | (pre, st) :: blocks' => pre ++ statement_text st ++ script_of blocks' tail
  end.

Fixpoint cleaned_of (blocks : list (str * statement)) (tail : str) : str :=
  match blocks with
  | [] => tail
  | (pre, st) :: blocks' => pre ++ statement_cleaned st ++ cleaned_of blocks' tail
  end.

Definition covered_block (b : str * statement) : bool :=
  let '(pre, st) := b in
  plain_before pre && negb (contains pre "require(") && covered_statement st.

(** Every statement is of a covered form behind plain text without a
    call site, and the text behind the last one has neither a call site
    nor an [import]. *)
Definition covered (blocks : list (str * statement)) (tail : str) : bool :=
  forallb covered_block blocks
  && negb (contains tail "require(") && negb (contains tail "import").

(** ** Codebases for the examples *)

(** [v["frontend"]["script_js"]] when it is there and is a text. *)
Definition script_js_of (v : json) : option str :=
  match v with
  | JObj d =>
      match dict_get "frontend" d with
      | Some (JObj fe) =>
          match dict_get "script_js" fe with
          | Some (JStr js) => Some js
          | _ => None
          end
      | _ => None
      end
  | _ => None
  end.

Definition codebase (js : str) : json :=
  JObj [ (lit "frontend",
          JObj [ (lit "index_html", JStr "<html></html>");
                 (lit "styles_css", JStr "body {}");
                 (lit "script_js", JStr js) ]);
         (lit "backend", JStr "app = FastAPI()");
         (lit "instructions", JStr "Run it.") ].

(** A script with a plain line, a require statement, a server import
    and a call. *)
Definition sample_script : str :=
  "let x = 1;" ++ [newline] ++ "const fs = require('fs');" ++ [newline]
  ++ "import x from 'path';" ++ [newline] ++ "run();".

Definition sample_blocks : list (str * statement) :=
  [ ("let x = 1;" ++ [newline], RequireStmt "fs" "fs");
    ([newline], ImportStmt "x" squote "path" squote) ].

Definition sample_tail : str := [newline] ++ "run();".

(** A line [const y] in front of a require statement. *)
Definition dangling_script : str :=
  "const y" ++ [newline] ++ "const fs = require('fs');".

(** The same statement with the module path in double quotes. *)
Definition require_double_quoted : str :=
  "const fs = require(" ++ [dquote] ++ "fs" ++ [dquote] ++ ");".

(** An environment in which the model answers an edit with a codebase
    whose script is [js]. *)
Definition edit_env (js : str) : env :=
  demo_env [Some (lit "{...}")] (Some (codebase js)).

(** ** Reference definitions for the batch endpoints *)

(** The error [summarize_papers] of [app.py] raises for a file. *)
Definition processing_error (f : UploadFile) : exn :=
  HTTPException 500 ("An error occurred while processing " ++ filename f ++ ".").

(** What one upload yields when every step succeeds: the row to store,
    the element of the answer and the two requests sent.  [taken] holds
    the rows whose ids are in use, [ncalls] and [ndrawn] count the model
    calls made and the identifiers drawn before. *)
Definition file_outcome (E : env) (f : UploadFile) (taken : list row)
    (ncalls ndrawn : nat) : option (row * summary_view * list request) :=
  match App.extract_text_from_pdf (file f) with
  | inl _ => None
  | inr text =>
      match chat_create E ncalls (summary_request text) with
      | None => None
      | Some out1 =>
          let summary := fst (split_summary out1) in
          let conclusion := snd (split_summary out1) in
          match chat_create E (S ncalls) (ideas_request summary) with
          | None => None
          | Some out2 =>
              let ideas := parse_ideas out2 in
              let i := uuid4 E ndrawn in
              if has_id i taken then None
              else Some (Row i (filename f) summary conclusion (join "|" ideas),
                         View (filename f) summary conclusion ideas,
                         [summary_request text; ideas_request summary])
          end
      end
  end.

(** A row PostgreSQL can store: none of its texts holds the code point 0. *)
Definition nul_free (r : row) : bool :=
  negb (existsb has_nul [row_id r; row_filename r; row_summary r; row_conclusion r;
                         row_project_ideas r]).

(** What the Postgres service answers when psycopg2 refuses a text. *)
Definition nul_refused : exn :=
  HTTPException 500
    "An error occurred: A string literal cannot contain NUL (0x00) characters.".

(** A model whose list of ideas holds the code point 0. *)
Definition nul_env : env :=
  demo_env [Some (lit "S Conclusion: C"); Some ("Idea" ++ [zero])] None.

(** A stored row holds the fields of an element of the answer, the ideas
    joined with the separator. *)
Definition stores (r : row) (v : summary_view) : Prop :=
  row_filename r = view_filename v /\
  row_summary r = view_summary v /\
  row_conclusion r = view_conclusion v /\
  row_project_ideas r = join "|" (view_project_ideas v).

(** ** Reading fields of a JSON object *)

(** [v[k]] for an object, [None] otherwise. *)
Definition field (k : str) (v : json) : option json :=
  match v with
  | JObj d => dict_get k d
  | _ => None
  end.

(** [v["frontend"][k]] *)
Definition frontend_field (k : str) (v : json) : option json :=
  match field "frontend" v with
  | Some fe => field k fe
  | None => None
  end.

(** [list(v.keys())] for an object. *)
Definition keys (v : json) : list str :=
  match v with
  | JObj d => map fst d
  | _ => []
  end.

Definition codegen_failed : exn :=
  HTTPException 500 "Failed to generate website code from AI.".

Definition edit_failed : exn :=
  HTTPException 500 "Failed to edit website code with AI.".

(** What a batch yields when every file succeeds: the rows, the answer
    and the requests, file after file. *)
Fixpoint batch_outcome (E : env) (files : list UploadFile) (taken : list row)
    (ncalls ndrawn : nat) : option (list row * list summary_view * list request) :=
  match files with
  | [] => Some ([], [], [])
  | f :: files' =>
      match file_outcome E f taken ncalls ndrawn with
      | None => None
      | Some (r, v, rqs) =>
          match batch_outcome E files' (taken ++ [r]) (ncalls + 2) (S ndrawn) with
          | None => None
          | Some (rows, vs, rqss) => Some (r :: rows, v :: vs, rqs ++ rqss)
          end
      end
  end.

(** The model answers the request with a text that [json.loads] reads
    as an object whose [frontend] is an object with a text [script_js]. *)
Definition usable_answer (E : env) (rq : request) (w : world) : Prop :=
  exists content data js,
    chat_create E (List.length (calls w)) rq = Some content /\
    json_loads E content = Some data /\
    script_js_of data = Some js.

(** [list(v["frontend"].keys())] *)
Definition frontend_keys (v : json) : list str :=
  match field "frontend" v with
  | Some fe => keys fe
  | None => []
  end.

(** JSON values Python takes as false. *)
Definition falsy_values : list json :=
  [ JNull; JBool false; JInt 0; JFloat (S754_zero false); JFloat (S754_zero true);
    JStr ""; JArr []; JObj [] ].

(** ** [src/blackmailer.py]

    The script fetches pages and parses them with libraries; what those
    return is taken from the environment [web].  The pauses between
    requests ([time.sleep]) change nothing the model records.  The
    functions of [urllib.parse] raise [ValueError] on an address they
    cannot parse (an unbalanced bracket in the host, as in
    [http://[privacy]); the script catches [RequestException] and
    [IOError] only, so such an exception ends the run. *)

(** [c.lower()] for one code point below 256: A-Z and the accented
    capitals 0xC0-0xDE (the multiplication sign 0xD7 apart) move up by 32. *)
Definition lower_char (c : ascii) : ascii :=
  let n := nat_of_ascii c in
  if ((65 <=? n) && (n <=? 90)) || ((192 <=? n) && (n <=? 222) && negb (n =? 215))
  then ascii_of_nat (n + 32)
  else c.

(** [s.lower()] *)
Definition lower (s : str) : str := map lower_char s.

(** [posixpath.join(a, b)] *)
Definition path_join (a b : str) : str :=
  if startswith b "/" then b
  else if negb (nonempty a) || startswith (rev a) "/" then a ++ b
  else a ++ "/" ++ b.

Module Scraper.

Record web : Type := Web {
  (** [session.get(url, ...)] followed by [raise_for_status()]: the
      response text, or the message of the [RequestException] *)
  fetch : str -> str + str;
  (** [BeautifulSoup(text, 'html.parser').find_all('a', href=True)]:
      for each link, in document order, its [get_text()] and its [href] *)
  anchors : str -> list (str * str);
  (** [soup.find(tag)] and then [get_text(separator='\n', strip=True)]:
      the text of the first element with that tag, [None] without one *)
  find_text : str -> str -> option str;
  (** [urljoin(base, url)], [None] when it raises [ValueError] *)
  urljoin : str -> str -> option str;
  (** [urlparse(url).netloc], [None] when [urlparse] raises [ValueError] *)
  netloc : str -> option str;
  (** [open(filename, 'w')]: [None] when the file opens, else the
      message of the [IOError] *)
  open_error : str -> option str
}.

(** What the script leaves behind: the lines printed, the URLs
    requested and the files written. *)
Record shell : Type := Shell {
  stdout : list str;
  requested : list str;
  files : list (str * str)
}.

(** How a call ends: it returns, or an exception that nothing catches
    leaves it and every caller. *)
Inductive outcome (A : Type) : Type :=
| Returns (a : A)
| Uncaught.

Arguments Returns {A} a.
Arguments Uncaught {A}.

Definition POLICY_KEYWORDS : list str :=
  [lit "privacy"; lit "legal"; lit "policy"; lit "data"].

Definition OUTPUT_DIR : str := "privacy_policies".

Definition KNOWN_POLICY_URLS : list (str * str) :=
  [ (lit "google.com", lit "https://policies.google.com/privacy");
    (lit "wikipedia.org", lit "https://foundation.wikimedia.org/wiki/Privacy_policy");
    (lit "reddit.com", lit "https://www.reddit.com/policies/privacy-policy") ].

Definition TARGET_DOMAINS : list str := [lit "nobroker.in"].

(** [d.get(k)] on a dictionary of texts. *)
Fixpoint lookup (k : str) (d : list (str * str)) : option str :=
  match d with
  | [] => None
  | (k', v) :: d' => if str_eqb k k' then Some v else lookup k d'
  end.

(** [d[k] = v] on a dictionary of texts. *)
Fixpoint store (k v : str) (d : list (str * str)) : list (str * str) :=
  match d with
  | [] => [(k, v)]
  | (k', v') :: d' => if str_eqb k k' then (k', v) :: d' else (k', v') :: store k v d'
  end.

Definition print (line : str) (s : shell) : shell :=
  Shell (stdout s ++ [line]) (requested s) (files s).

Definition get (W : web) (url : str) (s : shell) : (str + str) * shell :=
  (fetch W url, Shell (stdout s) (requested s ++ [url]) (files s)).

(** [any(keyword in text for keyword in POLICY_KEYWORDS)] *)
Definition has_keyword (text : str) : bool :=
  existsb (fun keyword => contains text keyword) POLICY_KEYWORDS.

(** The loop over the links of the homepage, lines 50-65. *)
Fixpoint scan_links (W : web) (base_url : str) (links : list (str * str))
  : outcome (option str) :=
  match links with
  | [] => Returns None
  | (text, href) :: rest =>
      let link_text := lower text in
      let link_href := lower href in
      if has_keyword link_text || has_keyword link_href then
        if contains link_href "sign" || contains link_href "account"
           || contains link_href "login"
        then scan_links W base_url rest
        else
          match urljoin W base_url href with
          | None => Uncaught
          | Some policy_url =>
              match netloc W policy_url with
              | None => Uncaught
              | Some host =>
                  match netloc W base_url with
                  | None => Uncaught
                  | Some base_host =>
                      if str_eqb host base_host
                      then Returns (Some policy_url)
                      else scan_links W base_url rest
                  end
              end
          end
      else scan_links W base_url rest
  end.

Definition find_privacy_policy_url (W : web) (domain : str) (s : shell)
  : outcome (option str) * shell :=
  match lookup domain KNOWN_POLICY_URLS with
  | Some url =>
      (Returns (Some url), print ("[+] Found known policy URL for " ++ domain ++ ".") s)
  | None =>
      let s := print ("[*] No known URL for " ++ domain ++ ". Searching homepage...") s in
      let base_url := "https://www." ++ domain in
      match get W base_url s with
      | (inl e, s) =>
          (Returns None,
           print ("[!] Error fetching homepage for " ++ domain ++ ": " ++ e) s)
      | (inr text, s) =>
          match scan_links W base_url (anchors W text) with
          | Returns (Some policy_url) =>
              (Returns (Some policy_url),
               print ("[+] Found potential policy link: " ++ policy_url) s)
          | Returns None =>
              (Returns None,
               print ("[-] Could not find a policy link on the homepage for "
                      ++ domain ++ ".") s)
          | Uncaught => (Uncaught, s)
          end
      end
  end.

(** [a or b] on two optional elements: an element counts as true
    whatever it holds. *)
Definition or_else (a b : option str) : option str :=
  match a with Some _ => a | None => b end.

Definition scrape_policy_text (W : web) (url : str) (s : shell) : option str * shell :=
  let s := print ("[*] Scraping content from " ++ url ++ "...") s in
  match get W url s with
  | (inl e, s) =>
      (None, print ("[!] Error scraping policy page " ++ url ++ ": " ++ e) s)
  | (inr text, s) =>
      let main_content :=
        or_else (find_text W "main" text)
                (or_else (find_text W "article" text) (find_text W "body" text)) in
      match main_content with
      | Some t => (Some t, s)
      | None => (Some (lit "Could not extract main content."), s)
      end
  end.

Definition save_policy (W : web) (domain text : str) (s : shell) : shell :=
  let filename := path_join OUTPUT_DIR (domain ++ "_privacy_policy.txt") in
  match open_error W filename with
  | None =>
      print ("[+] Successfully saved policy for " ++ domain ++ " to " ++ filename)
            (Shell (stdout s) (requested s) (store filename text (files s)))
  | Some e => print ("[!] Error saving file for " ++ domain ++ ": " ++ e) s
  end.

(** The body of the loop of the main block, lines 103-111. *)
Definition visit (W : web) (domain : str) (s : shell) : outcome unit * shell :=
  match find_privacy_policy_url W domain s with
  | (Uncaught, s) => (Uncaught, s)
  | (Returns policy_url, s) =>
      let s :=
        match policy_url with
        | Some url =>
            if nonempty url then
              let '(policy_text, s) := scrape_policy_text W url s in
              match policy_text with
              | Some text => if nonempty text then save_policy W domain text s else s
              | None => s
              end
            else s
        | None => s
        end in
      (Returns tt, print "---" s)
  end.

(** The loop of the main block over a list of domains. *)
Fixpoint visit_all (W : web) (domains : list str) (s : shell) : outcome unit * shell :=
  match domains with
  | [] => (Returns tt, s)
  | domain :: rest =>
      match visit W domain s with
      | (Returns _, s) => visit_all W rest s
      | (Uncaught, s) => (Uncaught, s)
      end
  end.






(** Two small sites: a homepage with three links and a policy page,
    and a homepage whose policy link has an address with an unbalanced
    bracket. *)
Definition demo_web : web :=
  Web (fun url =>
         if str_eqb url "https://www.nobroker.in" then inr (lit "<home>")
         else if str_eqb url "https://www.nobroker.in/privacy" then inr (lit "<policy>")
         else if str_eqb url "https://policies.google.com/privacy" then inr (lit "<google>")
         else if str_eqb url "https://www.broken.example" then inr (lit "<broken>")
         else inl (lit "404 Client Error"))
      (fun text =>
         if str_eqb text "<home>"
         then [ (lit "Sign in", lit "/login?next=/privacy");
                (lit "Data partners", lit "https://partners.example/data");
                (lit "PRIVACY POLICY", lit "/privacy") ]
         else if str_eqb text "<broken>"
         then [ (lit "Privacy", lit "http://[privacy") ]
         else [])
      (fun tag text =>
         if str_eqb text "<policy>" && str_eqb tag "body" then Some (lit "We collect data.")
         else if str_eqb text "<google>" && str_eqb tag "main" then Some (lit "Google policy.")
         else None)
      (fun base href =>
         if startswith href "http://[" then None
         else if startswith href "/" then Some (base ++ href) else Some href)
      (fun url => if startswith url "https://www.nobroker.in" then Some (lit "www.nobroker.in")
                  else Some (lit "elsewhere"))
      (fun _ => None).

Definition empty_shell : shell := Shell [] [] [].

(** [s'] continues [s] with lines that are not the separator line. *)
Definition extends_quietly (s s' : shell) : Prop :=
  exists out, stdout s' = stdout s ++ out /\
              Forall (fun line => str_eqb "---" line = false) out.

End Scraper.

(* ================================================================== *)
(** * Part II.  Properties                                             *)
(* ================================================================== *)

(** ** Runs on small inputs *)

Example split_marker :
  split "A B Conclusion: C D" "Conclusion:" (Some 1) = [lit "A B "; lit " C D"].
Proof. reflexivity. Qed.

Example split_lines :
  split "a||b" "|" None = [lit "a"; lit ""; lit "b"].
Proof. reflexivity. Qed.

Example clean_require_fs :
  clean_js_code "const fs = require('fs');" = commented_require "fs " "fs".
Proof. vm_compute. reflexivity. Qed.

Example clean_import_path :
  clean_js_code "import x from 'path';" = "// Server-side import removed for browser".
Proof. vm_compute. reflexivity. Qed.

Example clean_import_nosemi :
  clean_js_code "import x from 'path'" = "import x from 'path'".
Proof. vm_compute. reflexivity. Qed.

Example clean_let :
  clean_js_code "let fs = require('fs');" = "let fs = require('fs');".
Proof. vm_compute. reflexivity. Qed.

Example clean_two :
  clean_js_code "a; const x = 1; const fs = require('fs'); b"
  = "a; const x = 1; " ++ commented_require "fs " "fs" ++ " b".
Proof. vm_compute. reflexivity. Qed.

(** ** Facts about [str] methods *)

Lemma ascii_eqb_false (a b : ascii) : a <> b -> Ascii.eqb a b = false.
Proof. intro H. apply Ascii.eqb_neq. exact H. Qed.

Lemma startswith_iff (sep s : str) :
  startswith s sep = true <-> exists post, s = sep ++ post.
Proof.
  revert s. induction sep as [|a sep IH]; intros s; simpl.
  - split; [intros _; now exists s | reflexivity].
  - destruct s as [|b s].
    + split; [discriminate | intros [post H]; discriminate].
    + rewrite andb_true_iff, Ascii.eqb_eq, IH. split.
      * intros [-> [post ->]]. now exists post.
      * intros [post H]. injection H as -> ->. split; [reflexivity | now exists post].
Qed.

(** Splitting on a one-character separator. *)
Section SplitChar.
Variable c : ascii.

Lemma split_char_cons (m : option nat) (a : ascii) (s : str) :
  a <> c -> split_scan [c] m 0 (a :: s) = cons_head a (split_scan [c] m 0 s).
Proof.
  intro Hne. simpl. rewrite (ascii_eqb_false (not_eq_sym Hne)).
  now rewrite andb_false_r.
Qed.

Lemma split_char_sep (s : str) :
  split_scan [c] None 0 (c :: s) = [] :: split_scan [c] None 0 s.
Proof. simpl. now rewrite Ascii.eqb_refl. Qed.

Lemma split_char_none (m : option nat) (x : str) :
  ~ In c x -> split_scan [c] m 0 x = [x].
Proof.
  induction x as [|a x IH]; intro Hx; [reflexivity|].
  rewrite split_char_cons by (intros ->; apply Hx; now left).
  rewrite IH by (intro; apply Hx; now right). reflexivity.
Qed.

Lemma split_char_app (x rest : str) :
  ~ In c x ->
  split_scan [c] None 0 (x ++ c :: rest) = x :: split_scan [c] None 0 rest.
Proof.
  induction x as [|a x IH]; intro Hx.
  - apply split_char_sep.
  - simpl app. rewrite split_char_cons by (intros ->; apply Hx; now left).
    rewrite IH by (intro; apply Hx; now right). reflexivity.
Qed.

Lemma split_join (l : list str) :
  l <> [] -> Forall (fun x => ~ In c x) l ->
  split (join [c] l) [c] None = l.
Proof.
  unfold split. induction l as [|x l IH]; intros Hne Hall; [congruence|].
  inversion Hall as [|? ? Hx Hl]; subst.
  destruct l as [|y l].
  - simpl. now apply split_char_none.
  - change (join [c] (x :: y :: l)) with (x ++ c :: join [c] (y :: l)).
    rewrite split_char_app by assumption.
    rewrite IH; [reflexivity | discriminate | assumption].
Qed.
Lemma join_cons_head (a : ascii) (l : list str) :
  l <> [] -> join [c] (cons_head a l) = a :: join [c] l.
Proof. destruct l as [|p [|q ps]]; [congruence | reflexivity..]. Qed.

Lemma split_char_inverse (s : str) :
  split_scan [c] None 0 s <> [] /\
  join [c] (split_scan [c] None 0 s) = s /\
  Forall (fun x => ~ In c x) (split_scan [c] None 0 s).
Proof.
  induction s as [|a s (Hne & Hj & Hall)].
  - split; [discriminate|]. split; [reflexivity|]. repeat constructor. intros [].
  - destruct (Ascii.eqb a c) eqn:Ha.
    + apply Ascii.eqb_eq in Ha. subst a. rewrite split_char_sep.
      split; [discriminate|]. split.
      * destruct (split_scan [c] None 0 s) as [|p ps] eqn:Hs; [congruence|].
        change (join [c] ([] :: p :: ps)) with (c :: join [c] (p :: ps)).
        now rewrite Hj.
      * constructor; [intros [] | exact Hall].
    + apply Ascii.eqb_neq in Ha. rewrite (split_char_cons None s Ha).
      destruct (split_scan [c] None 0 s) as [|p ps] eqn:Hs; [congruence|].
      split; [discriminate|]. split.
      * rewrite join_cons_head by discriminate. now rewrite Hj.
      * inversion Hall as [|? ? Hp Hps]; subst. cbn [cons_head].
        constructor; [|exact Hps]. intros [Hc | Hc]; [now apply Ha | now apply Hp].
Qed.
End SplitChar.

Lemma join_nil_inv (sep : str) (l : list str) :
  sep <> [] -> join sep l = [] -> l = [] \/ l = [[]].
Proof.
  intros Hsep H. destruct l as [|x [|y l]]; [now left | right | exfalso].
  - simpl in H. now subst.
  - simpl in H. apply app_eq_nil in H as [_ H].
    apply app_eq_nil in H as [H _]. contradiction.
Qed.

(** What the listing reads back from a stored [project_ideas] column. *)
Lemma read_back_ideas (i f s c : str) (ideas : list str) :
  Forall (fun idea => ~ In "|"%char idea) ideas ->
  ideas <> [[]] ->
  row_view (Row i f s c (join "|" ideas)) = View f s c ideas.
Proof.
  intros Hall Hne. unfold row_view. simpl.
  change (lit "|") with ["|"%char].
  destruct (nonempty (join ["|"%char] ideas)) eqn:Hn.
  - rewrite split_join; [reflexivity | | assumption].
    intros ->. discriminate.
  - destruct (join ["|"%char] ideas) eqn:Hj; [|discriminate].
    apply join_nil_inv in Hj as [-> | ->]; [reflexivity | contradiction | discriminate].
Qed.

(** Trimming. *)

Lemma lstrip_app (a b : str) :
  lstrip (a ++ b) = if forallb isspace a then lstrip b else lstrip a ++ b.
Proof.
  induction a as [|x a IH]; simpl; [reflexivity|].
  destruct (isspace x); simpl; [exact IH | reflexivity].
Qed.

Lemma lstrip_blank (s : str) : forallb isspace s = true -> lstrip s = [].
Proof.
  induction s as [|x s IH]; simpl; [reflexivity|].
  destruct (isspace x); simpl; [exact IH | discriminate].
Qed.

Lemma lstrip_not_blank (s : str) : forallb isspace s = false -> lstrip s <> [].
Proof.
  induction s as [|x s IH]; simpl; [discriminate|].
  destruct (isspace x); simpl; [exact IH | discriminate].
Qed.

Lemma forallb_rev {A} (p : A -> bool) (l : list A) :
  forallb p (rev l) = forallb p l.
Proof.
  induction l as [|x l IH]; [reflexivity|].
  simpl. rewrite forallb_app, IH. simpl. rewrite andb_true_r. apply andb_comm.
Qed.

Lemma rstrip_snoc (s : str) (c : ascii) :
  rstrip (s ++ [c]) = if isspace c then rstrip s else s ++ [c].
Proof.
  unfold rstrip. rewrite rev_app_distr. simpl.
  destruct (isspace c); [reflexivity|].
  simpl. now rewrite rev_involutive.
Qed.

Lemma rstrip_cons (c : ascii) (s : str) :
  rstrip (c :: s) = if forallb isspace s then rstrip [c] else c :: rstrip s.
Proof.
  unfold rstrip. simpl rev at 1. rewrite lstrip_app, forallb_rev.
  destruct (forallb isspace s); [reflexivity|].
  rewrite rev_app_distr. reflexivity.
Qed.

Lemma rstrip_blank (s : str) : forallb isspace s = true -> rstrip s = [].
Proof.
  intro H. unfold rstrip. rewrite lstrip_blank; [reflexivity|].
  now rewrite forallb_rev.
Qed.

Lemma strip_blank (s : str) : forallb isspace s = true -> strip s = [].
Proof. intro H. unfold strip. now rewrite rstrip_blank. Qed.

Lemma strip_cons_space (c : ascii) (s : str) :
  isspace c = true -> strip (c :: s) = strip s.
Proof.
  intro Hc. unfold strip. rewrite rstrip_cons.
  destruct (forallb isspace s) eqn:Hs.
  - rewrite (rstrip_blank s Hs). unfold rstrip. simpl. now rewrite Hc.
  - simpl. now rewrite Hc.
Qed.

Lemma strip_snoc_space (s : str) (c : ascii) :
  isspace c = true -> strip (s ++ [c]) = strip s.
Proof. intro Hc. unfold strip. now rewrite rstrip_snoc, Hc. Qed.

Lemma rstrip_not_blank (s : str) :
  forallb isspace s = false -> forallb isspace (rstrip s) = false.
Proof.
  induction s as [|x s IH] using rev_ind; [discriminate|].
  rewrite forallb_app. simpl. rewrite rstrip_snoc.
  destruct (isspace x) eqn:Hx.
  - rewrite andb_true_r. exact IH.
  - intros _. rewrite forallb_app. simpl. rewrite Hx. now rewrite andb_false_r.
Qed.

(** A text is blank exactly when trimming leaves nothing. *)
Lemma strip_nonempty (s : str) : nonempty (strip s) = negb (forallb isspace s).
Proof.
  destruct (forallb isspace s) eqn:Hs.
  - now rewrite strip_blank.
  - unfold strip. pose proof (lstrip_not_blank _ (rstrip_not_blank _ Hs)) as H.
    destruct (lstrip (rstrip s)); [contradiction | reflexivity].
Qed.

(** Lines of a text, and the effect of blank characters at either end. *)

Lemma lines_cons (a : ascii) (s : str) :
  lines (a :: s) = if Ascii.eqb a newline then [] :: lines s else cons_head a (lines s).
Proof.
  unfold lines. destruct (Ascii.eqb a newline) eqn:Ha.
  - apply Ascii.eqb_eq in Ha. subst a. apply split_char_sep.
  - apply split_char_cons. now apply Ascii.eqb_neq.
Qed.

Lemma lines_not_nil (s : str) : lines s <> [].
Proof.
  destruct s as [|a s]; [discriminate|].
  rewrite lines_cons. destruct (Ascii.eqb a newline); [discriminate|].
  destruct (lines s); discriminate.
Qed.

Lemma map_last_cons_head (c a : ascii) (l : list str) :
  l <> [] ->
  map_last (fun p => p ++ [c]) (cons_head a l) = cons_head a (map_last (fun p => p ++ [c]) l).
Proof. destruct l as [|x [|y l]]; [congruence | reflexivity | reflexivity]. Qed.

Lemma lines_snoc (s : str) (c : ascii) :
  lines (s ++ [c]) =
  if Ascii.eqb c newline then lines s ++ [[]] else map_last (fun p => p ++ [c]) (lines s).
Proof.
  induction s as [|a s IH].
  - simpl app. rewrite lines_cons. destruct (Ascii.eqb c newline); reflexivity.
  - simpl app. rewrite !lines_cons, IH.
    destruct (Ascii.eqb c newline), (Ascii.eqb a newline); try reflexivity.
    + destruct (lines s) as [|x l] eqn:Hl; [now apply lines_not_nil in Hl | reflexivity].
    + destruct (lines s) as [|x l] eqn:Hl; [now apply lines_not_nil in Hl|].
      destruct l; reflexivity.
    + symmetry. apply map_last_cons_head. apply lines_not_nil.
Qed.

Lemma map_strip_map_last (c : ascii) (l : list str) :
  isspace c = true -> map strip (map_last (fun p => p ++ [c]) l) = map strip l.
Proof.
  intro Hc. induction l as [|x [|y l] IH]; [reflexivity | | ].
  - simpl. now rewrite strip_snoc_space.
  - change (map_last (fun p => p ++ [c]) (x :: y :: l))
      with (x :: map_last (fun p => p ++ [c]) (y :: l)).
    rewrite !(map_cons strip). now rewrite IH.
Qed.

Lemma spec_ideas_cons_space (c : ascii) (s : str) :
  isspace c = true -> spec_ideas (c :: s) = spec_ideas s.
Proof.
  intro Hc. unfold spec_ideas, split. fold (lines (c :: s)). fold (lines s).
  rewrite lines_cons. destruct (Ascii.eqb c newline).
  - reflexivity.
  - destruct (lines s) as [|x l] eqn:Hl; [now apply lines_not_nil in Hl|].
    simpl. now rewrite strip_cons_space.
Qed.

Lemma spec_ideas_snoc_space (s : str) (c : ascii) :
  isspace c = true -> spec_ideas (s ++ [c]) = spec_ideas s.
Proof.
  intro Hc. unfold spec_ideas, split. fold (lines (s ++ [c])). fold (lines s).
  rewrite lines_snoc. destruct (Ascii.eqb c newline).
  - rewrite map_app, filter_app. simpl. apply app_nil_r.
  - now rewrite map_strip_map_last.
Qed.

Lemma spec_ideas_lstrip (s : str) : spec_ideas (lstrip s) = spec_ideas s.
Proof.
  induction s as [|c s IH]; [reflexivity|].
  simpl. destruct (isspace c) eqn:Hc; [|reflexivity].
  now rewrite spec_ideas_cons_space.
Qed.

Lemma spec_ideas_rstrip (s : str) : spec_ideas (rstrip s) = spec_ideas s.
Proof.
  induction s as [|c s IH] using rev_ind; [reflexivity|].
  rewrite rstrip_snoc. destruct (isspace c) eqn:Hc; [|reflexivity].
  now rewrite spec_ideas_snoc_space.
Qed.

Lemma filter_then_map_strip (l : list str) :
  map strip (filter (fun idea => nonempty (strip idea)) l)
  = filter nonempty (map strip l).
Proof.
  induction l as [|x l IH]; [reflexivity|].
  simpl. destruct (nonempty (strip x)); simpl; now rewrite IH.
Qed.

(** The list comprehension of the source computes the specified list. *)
Lemma parse_ideas_spec (output : str) : parse_ideas output = spec_ideas output.
Proof.
  unfold parse_ideas. rewrite filter_then_map_strip.
  change (filter nonempty (map strip (split (strip output) [newline] None)))
    with (spec_ideas (strip output)).
  unfold strip. now rewrite spec_ideas_lstrip, spec_ideas_rstrip.
Qed.

(** Splitting once at the first occurrence of a separator. *)

Lemma split_scan_exhausted (sep s : str) : split_scan sep (Some 0) 0 s = [s].
Proof.
  induction s as [|a s IH]; [reflexivity|].
  simpl. now rewrite IH.
Qed.

Lemma split_scan_skip (sep : str) (m : option nat) (x rest : str) :
  split_scan sep m (List.length x) (x ++ rest) = split_scan sep m 0 rest.
Proof.
  induction x as [|a x IH]; [reflexivity|].
  simpl. exact IH.
Qed.

Lemma split_absent (sep : str) (m : option nat) (s : str) :
  sep <> [] ->
  (forall pre, ~ occurs_after sep pre s) ->
  split_scan sep m 0 s = [s].
Proof.
  intros Hsep. induction s as [|a s IH]; intro Habs; [reflexivity|].
  cbn [split_scan].
  destruct (startswith (a :: s) sep) eqn:Hst.
  - exfalso. apply startswith_iff in Hst as [post Hpost].
    apply (Habs []). now exists post.
  - rewrite andb_false_r. rewrite IH; [reflexivity|].
    intros pre [post Hpost]. apply (Habs (a :: pre)).
    exists post. simpl. now f_equal.
Qed.

Lemma split_first (sep pre post : str) :
  sep <> [] ->
  (forall pre', occurs_after sep pre' (pre ++ sep ++ post) ->
                List.length pre <= List.length pre') ->
  split_scan sep (Some 1) 0 (pre ++ sep ++ post) = [pre; post].
Proof.
  intros Hsep. induction pre as [|a pre IH]; intro Hmin.
  - destruct sep as [|c sep]; [congruence|].
    simpl app. cbn [split_scan may_split one_split_less].
    assert (Hst : startswith (c :: sep ++ post) (c :: sep) = true)
      by (apply startswith_iff; now exists post).
    rewrite Hst. simpl andb. cbv iota.
    change (pred (List.length (c :: sep))) with (List.length sep).
    now rewrite split_scan_skip, split_scan_exhausted.
  - simpl app. cbn [split_scan].
    destruct (startswith (a :: pre ++ sep ++ post) sep) eqn:Hst.
    + exfalso. apply startswith_iff in Hst as [post' Hpost'].
      specialize (Hmin [] (ex_intro _ post' Hpost')). simpl in Hmin. lia.
    + rewrite andb_false_r. rewrite IH; [reflexivity|].
      intros pre' [post' Hpost']. 
      assert (Hle : List.length (a :: pre) <= List.length (a :: pre')).
      { apply Hmin. exists post'. simpl. now f_equal. }
      simpl in Hle. lia.
Qed.

(** The two outcomes of parsing the summary stage's output. *)
Lemma split_summary_marker (pre post : str) :
  (forall pre', occurs_after "Conclusion:" pre' (pre ++ "Conclusion:" ++ post) ->
                List.length pre <= List.length pre') ->
  split_summary (pre ++ "Conclusion:" ++ post) = (strip pre, strip post).
Proof.
  intro Hmin. unfold split_summary, split.
  rewrite split_first; [reflexivity | discriminate | exact Hmin].
Qed.

Lemma split_summary_no_marker (output : str) :
  (forall pre, ~ occurs_after "Conclusion:" pre output) ->
  split_summary output = (strip output, placeholder).
Proof.
  intro Habs. unfold split_summary, split.
  rewrite split_absent; [reflexivity | discriminate | exact Habs].
Qed.

(** ** Running a stage *)

Lemma chat_answer (E : env) (rq : request) (w : world) (out : str) :
  chat_create E (List.length (calls w)) rq = Some out ->
  chat E rq w = (inr out, World (db w) (calls w ++ [rq]) (drawn w)).
Proof. intro H. unfold chat. now rewrite H. Qed.

Lemma summary_stage_answer (E : env) (text output : str) (w : world) :
  chat_create E (List.length (calls w)) (summary_request text) = Some output ->
  generate_summary_and_conclusion E text w
  = (inr (split_summary output),
     World (db w) (calls w ++ [summary_request text]) (drawn w)).
Proof.
  intro H. unfold generate_summary_and_conclusion, try_except, bind.
  fold (summary_request text). now rewrite (chat_answer _ _ _ H).
Qed.

Lemma ideas_stage_answer (E : env) (summary output : str) (w : world) :
  chat_create E (List.length (calls w)) (ideas_request summary) = Some output ->
  generate_project_ideas E summary w
  = (inr (parse_ideas output),
     World (db w) (calls w ++ [ideas_request summary]) (drawn w)).
Proof.
  intro H. unfold generate_project_ideas, try_except, bind.
  fold (ideas_request summary). now rewrite (chat_answer _ _ _ H).
Qed.

(** ** Ordering *)

Section Sorting.
Variable A : Type.
Variable le : A -> A -> bool.

Lemma insert_by_perm (x : A) (l : list A) : Permutation (insert_by le x l) (x :: l).
Proof.
  induction l as [|y l IH]; simpl; [apply Permutation_refl|].
  destruct (le x y); [apply Permutation_refl|].
  eapply perm_trans; [apply perm_skip, IH | apply perm_swap].
Qed.

Lemma sort_by_perm (l : list A) : Permutation (sort_by le l) l.
Proof.
  induction l as [|x l IH]; simpl; [constructor|].
  eapply perm_trans; [apply insert_by_perm | now apply perm_skip].
Qed.

Hypothesis le_total : forall a b, le a b = true \/ le b a = true.
Hypothesis le_trans : forall a b c, le a b = true -> le b c = true -> le a c = true.

Let R (a b : A) : Prop := le a b = true.

Lemma insert_by_sorted (x : A) (l : list A) :
  StronglySorted R l -> StronglySorted R (insert_by le x l).
Proof.
  induction l as [|y l IH]; intro Hs; simpl.
  - constructor; constructor.
  - inversion Hs as [|? ? Hl Hy]; subst.
    destruct (le x y) eqn:Hxy.
    + constructor; [exact Hs|]. constructor; [exact Hxy|].
      eapply Forall_impl; [|exact Hy]. intros z Hz. eapply le_trans; eassumption.
    + constructor; [now apply IH|].
      assert (Hyx : le y x = true) by (destruct (le_total x y); congruence).
      eapply Permutation_Forall; [apply Permutation_sym, insert_by_perm|].
      now constructor.
Qed.

Lemma sort_by_sorted (l : list A) : StronglySorted R (sort_by le l).
Proof.
  induction l as [|x l IH]; simpl; [constructor | now apply insert_by_sorted].
Qed.
End Sorting.

Lemma str_leb_total (a b : str) : str_leb a b = true \/ str_leb b a = true.
Proof.
  revert b. induction a as [|x a IH]; intros [|y b]; simpl; auto.
  destruct (nat_of_ascii x <? nat_of_ascii y) eqn:H1,
           (nat_of_ascii y <? nat_of_ascii x) eqn:H2; auto.
Qed.

Lemma str_leb_trans (a b c : str) :
  str_leb a b = true -> str_leb b c = true -> str_leb a c = true.
Proof.
  revert b c. induction a as [|x a IH]; intros [|y b] [|z c]; simpl; auto;
    try discriminate.
  destruct (nat_of_ascii x <? nat_of_ascii y) eqn:Hxy,
           (nat_of_ascii y <? nat_of_ascii x) eqn:Hyx,
           (nat_of_ascii y <? nat_of_ascii z) eqn:Hyz,
           (nat_of_ascii z <? nat_of_ascii y) eqn:Hzy,
           (nat_of_ascii x <? nat_of_ascii z) eqn:Hxz,
           (nat_of_ascii z <? nat_of_ascii x) eqn:Hzx;
    try discriminate; try reflexivity;
    repeat match goal with
           | H : (_ <? _) = true |- _ => apply Nat.ltb_lt in H
           | H : (_ <? _) = false |- _ => apply Nat.ltb_ge in H
           end; try lia.
  apply IH.
Qed.

Lemma separator_free_forall (ideas : list str) :
  separator_free ideas = true -> Forall (fun idea => ~ In "|"%char idea) ideas.
Proof.
  unfold separator_free. rewrite forallb_forall, Forall_forall.
  intros H idea Hin Hc. specialize (H idea Hin).
  apply negb_true_iff in H.
  assert (Ht : has_char "|" idea = true).
  { apply existsb_exists. exists "|"%char. split; [exact Hc | apply Ascii.eqb_refl]. }
  congruence.
Qed.

(** ** The persistence round trip *)

Lemma insert_summary_fresh (E : env) (w : world) (f s c : str) (ideas : list str) :
  has_id (uuid4 E (drawn w)) (db w) = false ->
  App.insert_summary E f s c ideas w
  = (inr tt, World (db w ++ [Row (uuid4 E (drawn w)) f s c (join "|" ideas)])
                   (calls w) (S (drawn w))).
Proof.
  intro H. unfold App.insert_summary, bind, new_uuid. simpl. now rewrite H.
Qed.

(** What the idea stage returns is the parse of a model output, and
    no idea of it is empty. *)
Lemma ideas_stage_result (E : env) (summary : str) (w w' : world) (ideas : list str) :
  generate_project_ideas E summary w = (inr ideas, w') ->
  (exists output, ideas = parse_ideas output) /\ ~ In [] ideas.
Proof.
  unfold generate_project_ideas, try_except, bind, chat.
  destruct (chat_create E (List.length (calls w)) _) as [output|]; [|discriminate].
  cbn [ret]. intros [= <- _]. split; [now exists output|].
  rewrite parse_ideas_spec. unfold spec_ideas. intro Hin.
  apply filter_In in Hin as [_ Hne]. discriminate.
Qed.

(** C1: the lists the service stores are those the idea stage returns
    (line 182 joins the result of [generate_project_ideas]).  For every
    such list in which no idea contains the separator [|], inserting a
    record built from the list and listing the store gives back a
    record whose [project_ideas] is the list; and for the list holding
    the single idea [a|b], which the stage returns for that output, the
    listing gives two ideas. *)
Theorem project_ideas_roundtrip (E : env) (w0 w1 w : world)
    (paper_summary fname summary conclusion : str) (ideas : list str) :
  generate_project_ideas E paper_summary w0 = (inr ideas, w1) ->
  separator_free ideas = true ->
  has_id (uuid4 E (drawn w)) (db w) = false ->
  (exists w' views,
      App.insert_summary E fname summary conclusion ideas w = (inr tt, w') /\
      App.get_summaries w' = (inr views, w') /\
      In (View fname summary conclusion ideas) views /\
      (db w = [] -> views = [View fname summary conclusion ideas]))
  /\
  (exists w2 w',
      generate_project_ideas (demo_env [Some (lit "a|b")] None) "S" empty_world
      = (inr [lit "a|b"], w2) /\
      App.insert_summary (demo_env [Some (lit "a|b")] None) "p.pdf" "s" "c" [lit "a|b"] w2
      = (inr tt, w') /\
      App.get_summaries w'
      = (inr [View "p.pdf" "s" "c" [lit "a"; lit "b"]], w') /\
      [lit "a"; lit "b"] <> [lit "a|b"]).
Proof.
  intros Hstage Hfree Hfresh. split.
  - destruct (ideas_stage_result _ _ _ Hstage) as [_ Hne].
    assert (Hne' : ideas <> [[]]) by (intros ->; apply Hne; now left).
    eexists. eexists. split; [now apply insert_summary_fresh|].
    split; [reflexivity|]. cbn [db].
    pose proof (read_back_ideas (uuid4 E (drawn w)) fname summary conclusion
                  (separator_free_forall _ Hfree) Hne') as Hview.
    split.
    + apply in_map_iff. eexists. split; [exact Hview|].
      eapply Permutation_in; [apply Permutation_sym, sort_by_perm|].
      apply in_or_app. right. now left.
    + intros ->. unfold order_by_filename.
      cbn [app sort_by fold_right insert_by map]. now rewrite Hview.
  - eexists. eexists. split; [vm_compute; reflexivity|].
    split; [reflexivity|]. split; [reflexivity | discriminate].
Qed.

Lemma project_ideas_roundtrip_witness :
  generate_project_ideas
    (demo_env [Some ("Search engine" ++ [newline] ++ "Paper map")] None) "S" empty_world
  = (inr [lit "Search engine"; lit "Paper map"], World [] [ideas_request "S"] 0) /\
  separator_free [lit "Search engine"; lit "Paper map"] = true /\
  exists w' views,
    App.insert_summary
      (demo_env [Some ("Search engine" ++ [newline] ++ "Paper map")] None)
      "p.pdf" "s" "c" [lit "Search engine"; lit "Paper map"] empty_world = (inr tt, w') /\
    App.get_summaries w' = (inr views, w') /\
    views = [View "p.pdf" "s" "c" [lit "Search engine"; lit "Paper map"]].
Proof.
  assert (Hstage :
    generate_project_ideas
      (demo_env [Some ("Search engine" ++ [newline] ++ "Paper map")] None) "S" empty_world
    = (inr [lit "Search engine"; lit "Paper map"], World [] [ideas_request "S"] 0))
    by (vm_compute; reflexivity).
  split; [exact Hstage|]. split; [reflexivity|].
  destruct (@project_ideas_roundtrip
              (demo_env [Some ("Search engine" ++ [newline] ++ "Paper map")] None)
              empty_world (World [] [ideas_request "S"] 0) empty_world
              "S" "p.pdf" "s" "c" [lit "Search engine"; lit "Paper map"]
              Hstage eq_refl eq_refl)
    as [[w' [views [H1 [H2 [_ H4]]]]] _].
  exists w', views. split; [exact H1|]. split; [exact H2|]. now apply H4.
Defined.

(** ** The summarization stage *)

(** C3: the stage succeeds on every model output; the output is split at
    the first occurrence of [Conclusion:], the trimmed text before it is
    the summary and the trimmed text after it the conclusion; without
    the marker the summary is the whole trimmed output and the
    conclusion is the placeholder. *)
Theorem summary_parsing (E : env) (w : world) (text output : str) :
  chat_create E (List.length (calls w)) (summary_request text) = Some output ->
  (exists w',
      generate_summary_and_conclusion E text w = (inr (split_summary output), w'))
  /\
  (forall pre post,
      output = pre ++ "Conclusion:" ++ post ->
      (forall pre', occurs_after "Conclusion:" pre' output ->
                    List.length pre <= List.length pre') ->
      split_summary output = (strip pre, strip post))
  /\
  ((forall pre, ~ occurs_after "Conclusion:" pre output) ->
   split_summary output = (strip output, placeholder))
  /\
  split_summary "A B Conclusion: C D" = (lit "A B", lit "C D").
Proof.
  intro Hanswer. split; [|split; [|split]].
  - eexists. now apply summary_stage_answer.
  - intros pre post -> Hmin. now apply split_summary_marker.
  - apply split_summary_no_marker.
  - reflexivity.
Qed.

Lemma summary_parsing_witness :
  chat_create (demo_env [Some (lit "A B Conclusion: C D")] None)
    (List.length (calls empty_world)) (summary_request "paper")
  = Some (lit "A B Conclusion: C D")
  /\
  exists w',
    generate_summary_and_conclusion
      (demo_env [Some (lit "A B Conclusion: C D")] None) "paper" empty_world
    = (inr (lit "A B", lit "C D"), w').
Proof.
  split; [reflexivity|].
  destruct (@summary_parsing (demo_env [Some (lit "A B Conclusion: C D")] None)
              empty_world "paper" "A B Conclusion: C D" eq_refl)
    as [[w' H] _].
  exists w'. exact H.
Defined.

(** C8: the prompt of the summarization stage is a function of the first
    4000 characters of the paper text, so two texts that agree there
    lead to the same request and the same run. *)
Theorem summary_prompt_prefix (E : env) (w : world) (t1 t2 : str) :
  slice_to 4000 t1 = slice_to 4000 t2 ->
  summary_prompt t1 = summary_prompt t2 /\
  summary_request t1 = summary_request t2 /\
  generate_summary_and_conclusion E t1 w = generate_summary_and_conclusion E t2 w /\
  calls (snd (generate_summary_and_conclusion E t1 w)) = calls w ++ [summary_request t2].
Proof.
  intro Hprefix.
  assert (Hp : summary_prompt t1 = summary_prompt t2)
    by (unfold summary_prompt; now rewrite Hprefix).
  assert (Hr : summary_request t1 = summary_request t2)
    by (unfold summary_request; now rewrite Hp).
  split; [exact Hp|]. split; [exact Hr|]. split.
  - unfold generate_summary_and_conclusion. now rewrite Hp.
  - rewrite <- Hr.
    unfold generate_summary_and_conclusion, try_except, bind, chat, raise.
    fold (summary_request t1).
    destruct (chat_create E (List.length (calls w)) (summary_request t1)); reflexivity.
Qed.

Lemma summary_prompt_prefix_witness :
  slice_to 4000 (repeat "a"%char 4000 ++ "kept out")
  = slice_to 4000 (repeat "a"%char 4000 ++ "never seen")
  /\
  summary_prompt (repeat "a"%char 4000 ++ "kept out")
  = summary_prompt (repeat "a"%char 4000 ++ "never seen").
Proof.
  assert (H : slice_to 4000 (repeat "a"%char 4000 ++ "kept out")
              = slice_to 4000 (repeat "a"%char 4000 ++ "never seen"))
    by (vm_compute; reflexivity).
  split; [exact H|].
  exact (proj1 (@summary_prompt_prefix (demo_env [] None) empty_world _ _ H)).
Defined.

(** ** The idea generation stage *)

Lemma spec_ideas_line (rest : str) :
  spec_ideas ("x"%char :: newline :: rest) = [lit "x"] ++ spec_ideas rest.
Proof.
  unfold spec_ideas, split. fold (lines ("x"%char :: newline :: rest)). fold (lines rest).
  rewrite !lines_cons. reflexivity.
Qed.

Lemma spec_ideas_any_count (n : nat) :
  List.length (spec_ideas (List.concat (repeat ["x"%char; newline] n))) = n.
Proof.
  induction n as [|n IH]; [reflexivity|].
  cbn [repeat List.concat app]. rewrite spec_ideas_line. simpl. now rewrite IH.
Qed.

(** C6: on every raw model output the stage returns the lines of the
    output, each trimmed, the empty ones dropped, in their order; the
    number of ideas is not constrained. *)
Theorem idea_parsing (E : env) (w : world) (summary output : str) :
  chat_create E (List.length (calls w)) (ideas_request summary) = Some output ->
  (exists w', generate_project_ideas E summary w = (inr (spec_ideas output), w'))
  /\
  parse_ideas ("Idea1" ++ [newline; newline] ++ "Idea2" ++ [newline] ++ "Idea3")
  = [lit "Idea1"; lit "Idea2"; lit "Idea3"]
  /\
  (forall n, exists out, List.length (parse_ideas out) = n).
Proof.
  intro Hanswer. split; [|split].
  - eexists. rewrite <- parse_ideas_spec. now apply ideas_stage_answer.
  - reflexivity.
  - intro n. exists (List.concat (repeat ["x"%char; newline] n)).
    rewrite parse_ideas_spec. apply spec_ideas_any_count.
Qed.

Lemma idea_parsing_witness :
  chat_create
    (demo_env [Some ("Idea1" ++ [newline; newline] ++ "Idea2" ++ [newline] ++ "Idea3")] None)
    (List.length (calls empty_world)) (ideas_request "summary")
  = Some ("Idea1" ++ [newline; newline] ++ "Idea2" ++ [newline] ++ "Idea3")
  /\
  exists w',
    generate_project_ideas
      (demo_env [Some ("Idea1" ++ [newline; newline] ++ "Idea2" ++ [newline] ++ "Idea3")] None)
      "summary" empty_world
    = (inr [lit "Idea1"; lit "Idea2"; lit "Idea3"], w').
Proof.
  split; [reflexivity|].
  destruct (@idea_parsing
              (demo_env [Some ("Idea1" ++ [newline; newline] ++ "Idea2" ++ [newline] ++ "Idea3")] None)
              empty_world "summary"
              ("Idea1" ++ [newline; newline] ++ "Idea2" ++ [newline] ++ "Idea3") eq_refl)
    as [[w' H] _].
  exists w'. exact H.
Defined.

(** ** The text extractor *)

Lemma join_pages_texts (pages : list page) :
  match texts_of pages with
  | Some ts => join_pages pages = inr (concat_texts ts)
  | None => exists e, join_pages pages = inl e
  end.
Proof.
  induction pages as [|[t|msg] pages IH]; simpl.
  - reflexivity.
  - destruct (texts_of pages) as [ts|].
    + now rewrite IH.
    + destruct IH as [e ->]. now exists e.
  - now eexists.
Qed.

Lemma extract_with_readable (no_text : str) (f : pdf_stream) (ts : list (option str)) :
  readable f = Some ts ->
  extract_with no_text f =
  if blank (concat_texts ts)
  then inl (HTTPException 400 ("Failed to extract text from PDF: " ++ no_text))
  else inr (concat_texts ts).
Proof.
  destruct f as [pages|msg]; [|discriminate]. simpl. intro Hts.
  pose proof (join_pages_texts pages) as Hj. rewrite Hts in Hj. rewrite Hj.
  rewrite strip_nonempty. unfold blank. now destruct (forallb isspace (concat_texts ts)).
Qed.

Lemma extract_with_unreadable (no_text : str) (f : pdf_stream) :
  readable f = None ->
  exists d, extract_with no_text f = inl (HTTPException 400 d).
Proof.
  destruct f as [pages|msg]; simpl; intro Hts.
  - pose proof (join_pages_texts pages) as Hj. rewrite Hts in Hj.
    destruct Hj as [e ->]. now eexists.
  - now eexists.
Qed.

Lemma blank_concat_texts (ts : list (option str)) (t : str) :
  In (Some t) ts -> blank t = false -> blank (concat_texts ts) = false.
Proof.
  unfold blank, concat_texts. induction ts as [|x ts IH]; intros Hin Ht; [contradiction|].
  simpl. rewrite forallb_app. destruct Hin as [-> | Hin].
  - simpl. now rewrite Ht.
  - rewrite (IH Hin Ht). apply andb_false_r.
Qed.

Lemma not_blank_length (t : str) : blank t = false -> 0 < List.length t.
Proof. destruct t; [discriminate | simpl; lia]. Qed.

Lemma extract_with_contract (no_text : str) (f : pdf_stream) :
  (forall ts, readable f = Some ts -> blank (concat_texts ts) = false ->
              extract_with no_text f = inr (concat_texts ts)) /\
  ((exists e, extract_with no_text f = inl e) <->
   (readable f = None \/
    exists ts, readable f = Some ts /\ blank (concat_texts ts) = true)) /\
  (forall e, extract_with no_text f = inl e -> status_of e = Some 400) /\
  (forall ts t, readable f = Some ts -> In (Some t) ts -> blank t = false ->
                exists out, extract_with no_text f = inr out /\ 0 < List.length out).
Proof.
  destruct (readable f) as [ts|] eqn:Hr.
  - pose proof (extract_with_readable no_text f Hr) as Hx.
    destruct (blank (concat_texts ts)) eqn:Hb.
    + split; [|split; [|split]].
      * intros ts' [= <-]. congruence.
      * split; [intros _; right; now exists ts | intros _; rewrite Hx; now eexists].
      * intros e He. rewrite Hx in He. now injection He as <-.
      * intros ts' t [= <-] Hin Ht.
        rewrite (blank_concat_texts _ _ Hin Ht) in Hb. discriminate.
    + split; [|split; [|split]].
      * intros ts' [= <-] _. exact Hx.
      * split.
        -- intros [e He]. rewrite Hx in He. discriminate.
        -- intros [H | [ts' [[= <-] H]]]; [discriminate | congruence].
      * intros e He. rewrite Hx in He. discriminate.
      * intros ts' t [= <-] _ _. exists (concat_texts ts).
        split; [exact Hx | now apply not_blank_length].
  - destruct (extract_with_unreadable no_text f Hr) as [d Hx].
    split; [|split; [|split]].
    + discriminate.
    + split; [intros _; now left | intros _; rewrite Hx; now eexists].
    + intros e He. rewrite Hx in He. now injection He as <-.
    + discriminate.
Qed.

(** C7: the extractor concatenates the page texts in page order, a page
    without text counting as the empty string; it fails, with status
    400, exactly when the stream cannot be read or the concatenation is
    empty or white space only; when some page yields text that is not
    white space only it succeeds with a non-empty result.  Both services. *)
Theorem text_extraction (f : pdf_stream) :
  (forall ts, readable f = Some ts -> blank (concat_texts ts) = false ->
              App.extract_text_from_pdf f = inr (concat_texts ts) /\
              Index.extract_text_from_pdf f = inr (concat_texts ts)) /\
  ((exists e, App.extract_text_from_pdf f = inl e) <->
   (readable f = None \/
    exists ts, readable f = Some ts /\ blank (concat_texts ts) = true)) /\
  ((exists e, Index.extract_text_from_pdf f = inl e) <->
   (readable f = None \/
    exists ts, readable f = Some ts /\ blank (concat_texts ts) = true)) /\
  (forall e, App.extract_text_from_pdf f = inl e \/ Index.extract_text_from_pdf f = inl e ->
             status_of e = Some 400) /\
  (forall ts t, readable f = Some ts -> In (Some t) ts -> blank t = false ->
                exists out, App.extract_text_from_pdf f = inr out /\
                            Index.extract_text_from_pdf f = inr out /\
                            0 < List.length out).
Proof.
  destruct (extract_with_contract
              "No text could be extracted from the PDF. The file might be image-based or empty."
              f) as (A1 & A2 & A3 & A4).
  destruct (extract_with_contract "No text could be extracted from the PDF." f)
    as (B1 & B2 & B3 & B4).
  fold App.extract_text_from_pdf in A1, A2, A3, A4.
  fold Index.extract_text_from_pdf in B1, B2, B3, B4.
  split; [|split; [|split; [|split]]].
  - intros ts Hr Hb. split; [now apply A1 | now apply B1].
  - exact A2.
  - exact B2.
  - intros e [H | H]; [now apply A3 | now apply B3].
  - intros ts t Hr Hin Ht.
    assert (Hb : blank (concat_texts ts) = false) by (eapply blank_concat_texts; eassumption).
    exists (concat_texts ts). split; [now apply A1|]. split; [now apply B1|].
    now apply not_blank_length.
Qed.

Lemma text_extraction_witness :
  readable (Pdf [PageText None; PageText (Some (lit "Paper body...")); PageText (Some (lit " "))])
  = Some [None; Some (lit "Paper body..."); Some (lit " ")]
  /\
  App.extract_text_from_pdf
    (Pdf [PageText None; PageText (Some (lit "Paper body...")); PageText (Some (lit " "))])
  = inr (lit "Paper body... ").
Proof.
  split; [reflexivity|].
  exact (proj1 (proj1 (text_extraction
                  (Pdf [PageText None; PageText (Some (lit "Paper body..."));
                        PageText (Some (lit " "))]))
                  [None; Some (lit "Paper body..."); Some (lit " ")] eq_refl eq_refl)).
Defined.

(** ** Listing the store *)

Lemma StronglySorted_map {A B} (f : A -> B) (R : A -> A -> Prop) (R' : B -> B -> Prop)
    (l : list A) :
  (forall a b, R a b -> R' (f a) (f b)) ->
  StronglySorted R l -> StronglySorted R' (map f l).
Proof.
  intros HR. induction 1 as [|x l Hs IH Hall]; simpl; constructor; [exact IH|].
  apply Forall_map. eapply Forall_impl; [|exact Hall]. intros y. apply HR.
Qed.

(** What the listing makes of a row is the record of that row. *)
Lemma row_view_listed (r : row) : listed r (row_view r).
Proof.
  unfold listed, row_view. cbn [view_filename view_summary view_conclusion view_project_ideas].
  split; [reflexivity|]. split; [reflexivity|]. split; [reflexivity|].
  destruct (row_project_ideas r) as [|a t] eqn:Hcol; cbn [nonempty].
  - split; [reflexivity|]. split; [reflexivity | discriminate].
  - unfold split. change (lit "|") with ["|"%char].
    destruct (split_char_inverse "|" (a :: t)) as (Hne & Hj & Hall).
    split; [exact Hj|]. split.
    + unfold separator_free. apply forallb_forall. intros x Hx.
      rewrite Forall_forall in Hall. specialize (Hall x Hx).
      apply negb_true_iff. destruct (has_char "|" x) eqn:Hc; [|reflexivity].
      exfalso. apply Hall. unfold has_char in Hc.
      apply existsb_exists in Hc as (y & Hy & Heq). apply Ascii.eqb_eq in Heq. now subst y.
    + intro H. rewrite H in Hj. discriminate.
Qed.

Lemma listing_sorted (le : str -> str -> bool) (rows : list row) :
  (forall a b, le a b = true \/ le b a = true) ->
  (forall a b c, le a b = true -> le b c = true -> le a c = true) ->
  exists sorted,
    Permutation sorted rows /\
    StronglySorted (fun a b => le (row_filename a) (row_filename b) = true) sorted /\
    Forall2 listed sorted (map row_view (order_by_filename le rows)).
Proof.
  intros Htot Htrans. exists (order_by_filename le rows).
  split; [apply sort_by_perm|]. split.
  - apply sort_by_sorted.
    + intros a b. apply Htot.
    + intros a b c. apply Htrans.
  - induction (order_by_filename le rows) as [|r l IH]; constructor;
      [apply row_view_listed | exact IH].
Qed.

(** C9: on every store the listing returns one record for every stored
    row, with the file name, the summary and the conclusion of the row
    and the ideas of its [project_ideas] column, the records in the
    order of the file names: by code points in the SQLite service, by
    the database collation in the Postgres one (there, when the
    database can be reached).  The order is not that of insertion nor
    that of the ids. *)
Theorem listing_order (E : env) (w : world) :
  (forall a b, collate E a b = true \/ collate E b a = true) ->
  (forall a b c, collate E a b = true -> collate E b c = true -> collate E a c = true) ->
  postgres_up E = true ->
  (exists sorted views,
      App.get_summaries w = (inr views, w) /\
      Permutation sorted (db w) /\
      StronglySorted (fun a b => str_leb (row_filename a) (row_filename b) = true) sorted /\
      Forall2 listed sorted views)
  /\
  (exists sorted views,
      Index.get_summaries E w = (inr views, w) /\
      Permutation sorted (db w) /\
      StronglySorted (fun a b => collate E (row_filename a) (row_filename b) = true) sorted /\
      Forall2 listed sorted views)
  /\
  (App.get_summaries (World shuffled_rows [] 3)
   = (inr [ View "a.pdf" "sa" "ca" [lit "x"; lit "y"];
            View "b.pdf" "sb" "cb" [];
            View "c.pdf" "sc" "cc" [] ],
      World shuffled_rows [] 3) /\
   map row_filename shuffled_rows = [lit "b.pdf"; lit "c.pdf"; lit "a.pdf"] /\
   map row_filename (by_id shuffled_rows) = [lit "b.pdf"; lit "a.pdf"; lit "c.pdf"]).
Proof.
  intros Htot Htrans Hup. split; [|split].
  - destruct (@listing_sorted str_leb (db w) str_leb_total str_leb_trans)
      as (sorted & H1 & H2 & H3).
    exists sorted. eexists. split; [reflexivity|]. now repeat split.
  - destruct (@listing_sorted (collate E) (db w) Htot Htrans) as (sorted & H1 & H2 & H3).
    exists sorted. eexists. split.
    + unfold Index.get_summaries, try_except, bind, Index.get_db_connection.
      rewrite Hup. reflexivity.
    + now repeat split.
  - split; [reflexivity|]. split; reflexivity.
Qed.

Lemma listing_order_witness :
  postgres_up (demo_env [] None) = true /\
  exists sorted views,
    Index.get_summaries (demo_env [] None) (World shuffled_rows [] 3)
    = (inr views, World shuffled_rows [] 3) /\
    Permutation sorted shuffled_rows /\
    StronglySorted (fun a b => str_leb (row_filename a) (row_filename b) = true) sorted /\
    Forall2 listed sorted views /\
    views = [ View "a.pdf" "sa" "ca" [lit "x"; lit "y"];
              View "b.pdf" "sb" "cb" [];
              View "c.pdf" "sc" "cc" [] ].
Proof.
  split; [reflexivity|].
  destruct (@listing_order (demo_env [] None) (World shuffled_rows [] 3)
              str_leb_total str_leb_trans eq_refl)
    as [_ [[sorted [views [H1 [H2 [H3 H4]]]]] _]].
  exists sorted, views. split; [exact H1|]. split; [exact H2|].
  split; [exact H3|]. split; [exact H4|].
  vm_compute in H1. now injection H1 as <-.
Defined.

(** ** The two code endpoints *)

Lemma empty_input_falsy (k : str) (data : dict) :
  empty_input (dict_get k data) -> truthy (dict_get_default k data) = false.
Proof.
  unfold dict_get_default. intros [-> | [-> | ->]]; reflexivity.
Qed.

Lemma codebase_from_model_outcome (E : env) (prompt detail : str) (w : world) :
  exists r,
    codebase_from_model E prompt detail w
    = (r, World (db w) (calls w ++ [code_request prompt]) (drawn w)) /\
    (forall e, r = inl e -> e = HTTPException 500 detail).
Proof.
  unfold codebase_from_model, try_except, bind, chat.
  fold (code_request prompt).
  destruct (chat_create E (List.length (calls w)) (code_request prompt)) as [out|].
  - destruct (loads E out) as [e|data]; cbn [lift raise ret].
    + exists (inl (HTTPException 500 detail)). split; [reflexivity|]. now intros e' [= <-].
    + destruct (clean_script data) as [e|data']; cbn [lift raise ret].
      * exists (inl (HTTPException 500 detail)). split; [reflexivity|]. now intros e' [= <-].
      * exists (inr data'). split; [reflexivity|]. discriminate.
  - exists (inl (HTTPException 500 detail)). split; [reflexivity|]. now intros e' [= <-].
Qed.

(** C10: the two code endpoints refuse a field that is present but empty
    (the empty string or the empty object) as they refuse a missing one,
    with status 400 and before any model call; a non-empty idea, and a
    non-empty codebase with a non-empty edit request, pass the check:
    the model is called and no 400 is raised.  Both services. *)
Theorem empty_inputs_rejected (E : env) (data : dict) (w : world) :
  (empty_input (dict_get "idea" data) ->
   exists d,
     App.generate_website_code_api E data w = (inl (HTTPException 400 d), w) /\
     Index.generate_website_code_api E data w = (inl (HTTPException 400 d), w))
  /\
  (empty_input (dict_get "original_code" data) \/
   empty_input (dict_get "edit_request" data) ->
   exists d,
     App.edit_code_api E data w = (inl (HTTPException 400 d), w) /\
     Index.edit_code_api E data w = (inl (HTTPException 400 d), w))
  /\
  (forall c s, dict_get "idea" data = Some (JStr (c :: s)) ->
   exists r1 r2,
     App.generate_website_code_api E data w
     = (r1, World (db w)
                  (calls w ++ [code_request (App.codegen_prompt E (JStr (c :: s)))])
                  (drawn w)) /\
     Index.generate_website_code_api E data w
     = (r2, World (db w)
                  (calls w ++ [code_request (Index.codegen_prompt E (JStr (c :: s)))])
                  (drawn w)) /\
     (forall e, r1 = inl e \/ r2 = inl e -> status_of e = Some 500))
  /\
  (forall item items c s,
   dict_get "original_code" data = Some (JObj (item :: items)) ->
   dict_get "edit_request" data = Some (JStr (c :: s)) ->
   exists r1 r2,
     App.edit_code_api E data w
     = (r1, World (db w)
                  (calls w ++ [code_request
                     (App.edit_prompt E (JObj (item :: items)) (JStr (c :: s)))])
                  (drawn w)) /\
     Index.edit_code_api E data w
     = (r2, World (db w)
                  (calls w ++ [code_request
                     (Index.edit_prompt E (JObj (item :: items)) (JStr (c :: s)))])
                  (drawn w)) /\
     (forall e, r1 = inl e \/ r2 = inl e -> status_of e = Some 500)).
Proof.
  split; [|split; [|split]].
  - intro Hidea. eexists.
    unfold App.generate_website_code_api, Index.generate_website_code_api.
    rewrite (empty_input_falsy _ _ Hidea). split; reflexivity.
  - intro Hempty. eexists.
    unfold App.edit_code_api, Index.edit_code_api.
    assert (Hcheck : negb (truthy (dict_get_default "original_code" data))
                     || negb (truthy (dict_get_default "edit_request" data)) = true).
    { destruct Hempty as [H | H]; rewrite (empty_input_falsy _ _ H);
        [reflexivity | apply orb_true_r]. }
    rewrite Hcheck. split; reflexivity.
  - intros c s Hidea.
    unfold App.generate_website_code_api, Index.generate_website_code_api,
      App.generate_website_code, Index.generate_website_code, dict_get_default.
    rewrite Hidea. cbn [truthy nonempty negb].
    destruct (codebase_from_model_outcome E (App.codegen_prompt E (JStr (c :: s)))
                "Failed to generate website code from AI." w) as [r1 [H1 E1]].
    destruct (codebase_from_model_outcome E (Index.codegen_prompt E (JStr (c :: s)))
                "Failed to generate website code from AI." w) as [r2 [H2 E2]].
    unfold bind. rewrite H1, H2.
    destruct r1 as [e1|v1], r2 as [e2|v2]; eexists; eexists;
      (split; [reflexivity|]); (split; [reflexivity|]);
      intros e [[= <-] | [= <-]];
      try (rewrite (E1 _ eq_refl)); try (rewrite (E2 _ eq_refl)); reflexivity.
  - intros item items c s Hcode Hedit.
    unfold App.edit_code_api, Index.edit_code_api,
      App.edit_website_code, Index.edit_website_code, dict_get_default.
    rewrite Hcode, Hedit. cbn [truthy nonempty negb orb].
    destruct (codebase_from_model_outcome E
                (App.edit_prompt E (JObj (item :: items)) (JStr (c :: s)))
                "Failed to edit website code with AI." w) as [r1 [H1 E1]].
    destruct (codebase_from_model_outcome E
                (Index.edit_prompt E (JObj (item :: items)) (JStr (c :: s)))
                "Failed to edit website code with AI." w) as [r2 [H2 E2]].
    exists r1, r2. split; [exact H1|]. split; [exact H2|].
    intros e [-> | ->]; [rewrite (E1 _ eq_refl) | rewrite (E2 _ eq_refl)]; reflexivity.
Qed.

Lemma empty_inputs_rejected_witness :
  empty_input (dict_get "idea" [(lit "idea", JStr "")]) /\
  exists d,
    App.generate_website_code_api (demo_env [] None) [(lit "idea", JStr "")] empty_world
    = (inl (HTTPException 400 d), empty_world).
Proof.
  assert (H : empty_input (dict_get "idea" [(lit "idea", JStr "")]))
    by (right; left; reflexivity).
  split; [exact H|].
  destruct (proj1 (@empty_inputs_rejected (demo_env [] None)
                     [(lit "idea", JStr "")] empty_world) H) as [d [Hd _]].
  exists d. exact Hd.
Defined.

(** ** The batch endpoint and what it leaves in the store *)

Lemma summary_stage_world (E : env) (text : str) (w : world) :
  exists r,
    generate_summary_and_conclusion E text w
    = (r, World (db w) (calls w ++ [summary_request text]) (drawn w)).
Proof.
  unfold generate_summary_and_conclusion, try_except, bind, chat.
  fold (summary_request text).
  destruct (chat_create E (List.length (calls w)) (summary_request text));
    eexists; reflexivity.
Qed.

Lemma ideas_stage_world (E : env) (summary : str) (w : world) :
  exists r,
    generate_project_ideas E summary w
    = (r, World (db w) (calls w ++ [ideas_request summary]) (drawn w)).
Proof.
  unfold generate_project_ideas, try_except, bind, chat.
  fold (ideas_request summary).
  destruct (chat_create E (List.length (calls w)) (ideas_request summary));
    eexists; reflexivity.
Qed.

Lemma insert_summary_outcome (E : env) (f s c : str) (ideas : list str) (w : world) :
  (exists e, App.insert_summary E f s c ideas w
             = (inl e, World (db w) (calls w) (S (drawn w)))) \/
  (exists r, row_filename r = f /\
             App.insert_summary E f s c ideas w
             = (inr tt, World (db w ++ [r]) (calls w) (S (drawn w)))).
Proof.
  unfold App.insert_summary, bind, new_uuid. cbn [db calls drawn].
  destruct (has_id (uuid4 E (drawn w)) (db w)).
  - left. eexists. reflexivity.
  - right. eexists. split; [|reflexivity]. reflexivity.
Qed.

(** One file of the SQLite batch: a failure reports status 500 and
    leaves the table as it was; a success appends the file's row. *)
Lemma process_file_outcome (E : env) (f : UploadFile) (w : world) :
  exists r w',
    App.process_file E f w = (r, w') /\
    match r with
    | inl e => db w' = db w /\ status_of e = Some 500
    | inr _ => exists row, db w' = db w ++ [row] /\ row_filename row = filename f
    end.
Proof.
  unfold App.process_file, try_except, bind at 1.
  destruct (App.extract_text_from_pdf (file f)) as [e|text]; cbn [lift raise ret].
  { do 2 eexists. split; [reflexivity|]. split; reflexivity. }
  unfold bind at 1.
  destruct (summary_stage_world E text w) as [r1 ->].
  destruct r1 as [e|[summary conclusion]].
  { do 2 eexists. split; [reflexivity|]. split; reflexivity. }
  unfold bind at 1.
  destruct (ideas_stage_world E summary
              (World (db w) (calls w ++ [summary_request text]) (drawn w))) as [r2 ->].
  cbn [db calls drawn].
  destruct r2 as [e|ideas].
  { do 2 eexists. split; [reflexivity|]. split; reflexivity. }
  unfold bind at 1.
  destruct (insert_summary_outcome E (filename f) summary conclusion ideas
              (World (db w) ((calls w ++ [summary_request text]) ++ [ideas_request summary])
                     (drawn w)))
    as [[e ->] | [r [Hr ->]]]; cbn [db calls drawn].
  - do 2 eexists. split; [reflexivity|]. split; reflexivity.
  - do 2 eexists. split; [reflexivity|]. exists r. split; [reflexivity | exact Hr].
Qed.

Lemma app_loop_outcome (E : env) (files : list UploadFile) :
  forall (results : list summary_view) (w : world),
  exists r w',
    App.summarize_loop E files results w = (r, w') /\
    match r with
    | inr _ =>
        exists rows, db w' = db w ++ rows /\ map row_filename rows = map filename files
    | inl e =>
        exists done f rest rows vs w1,
          files = done ++ f :: rest /\
          App.summarize_loop E done results w = (inr vs, w1) /\
          App.process_file E f w1 = (inl e, w') /\
          db w' = db w ++ rows /\ map row_filename rows = map filename done /\
          status_of e = Some 500
    end.
Proof.
  induction files as [|f files IH]; intros results w.
  - exists (inr results), w. split; [reflexivity|].
    exists []. split; [now rewrite app_nil_r | reflexivity].
  - cbn [App.summarize_loop]. unfold bind at 1.
    destruct (process_file_outcome E f w) as (r0 & w1 & Hf & Hcase).
    rewrite Hf. destruct r0 as [e|v].
    + destruct Hcase as [Hdb He].
      exists (inl e), w1. split; [reflexivity|].
      exists [], f, files, [], results, w. split; [reflexivity|].
      split; [reflexivity|]. split; [exact Hf|].
      split; [now rewrite app_nil_r|]. split; [reflexivity | exact He].
    + destruct Hcase as (r & Hdb & Hr).
      destruct (IH (results ++ [v]) w1) as (r1 & w' & Hloop & Hcase).
      rewrite Hloop. exists r1, w'. split; [reflexivity|].
      destruct r1 as [e|vs].
      * destruct Hcase
          as (done & g & rest & rows & vs & w2 & -> & Hdone & Hg & Hdb' & Hrows & He).
        exists (f :: done), g, rest, (r :: rows), vs, w2.
        split; [reflexivity|]. split.
        { cbn [App.summarize_loop]. unfold bind. rewrite Hf. exact Hdone. }
        split; [exact Hg|]. split.
        -- rewrite Hdb', Hdb, <- app_assoc. reflexivity.
        -- split; [simpl; now rewrite Hr, Hrows | exact He].
      * destruct Hcase as (rows & Hdb' & Hrows).
        exists (r :: rows). split.
        -- rewrite Hdb', Hdb, <- app_assoc. reflexivity.
        -- simpl. now rewrite Hr, Hrows.
Qed.

Lemma index_loop_db (E : env) (files : list UploadFile) :
  forall (pending : list row) (results : list summary_view) (w : world),
    db (snd (Index.summarize_loop E files pending results w)) = db w.
Proof.
  induction files as [|f files IH]; intros pending results w; [reflexivity|].
  cbn [Index.summarize_loop]. unfold bind at 1.
  destruct (Index.extract_text_from_pdf (file f)) as [e|text]; cbn [lift raise ret];
    [reflexivity|].
  unfold bind at 1.
  destruct (summary_stage_world E text w) as [r1 ->].
  destruct r1 as [e|[summary conclusion]]; [reflexivity|].
  unfold bind at 1.
  destruct (ideas_stage_world E summary
              (World (db w) (calls w ++ [summary_request text]) (drawn w))) as [r2 ->].
  destruct r2 as [e|ideas]; [reflexivity|].
  unfold bind, new_uuid, Index.execute_insert.
  cbn [db calls drawn row_id row_filename row_summary row_conclusion row_project_ideas].
  destruct (existsb has_nul _); [reflexivity|].
  destruct (has_id _ _); [reflexivity|].
  rewrite IH. reflexivity.
Qed.

Lemma index_batch_failure (E : env) (files : list UploadFile) (w : world)
    (e : exn) (w' : world) :
  Index.summarize_papers E files w = (inl e, w') ->
  db w' = db w /\ status_of e = Some 500.
Proof.
  unfold Index.summarize_papers, try_except, bind at 1, Index.get_db_connection.
  destruct (postgres_up E); cbn [ret raise].
  - unfold bind at 1.
    pose proof (index_loop_db E files [] [] w) as Hdb.
    destruct (Index.summarize_loop E files [] [] w) as [[e'|[pending results]] w1];
      simpl in Hdb.
    + intros [= <- <-]. split; [exact Hdb | reflexivity].
    + discriminate.
  - intros [= <- <-]. split; reflexivity.
Qed.

(** C2, as amended: in the SQLite service each file's row is committed
    before the next file is read, so when the processing of a file
    fails the request aborts with status 500 and the rows of the files
    before it stay in the table; in the Postgres service, which commits
    once after the loop, a failed request leaves the table as it was. *)
Theorem batch_failure_store (E : env) (files : list UploadFile) (w : world) :
  (forall e w',
      App.summarize_papers E files w = (inl e, w') ->
      status_of e = Some 500 /\
      exists done f rest rows vs w1,
        files = done ++ f :: rest /\
        App.summarize_papers E done w = (inr vs, w1) /\
        App.process_file E f w1 = (inl e, w') /\
        db w' = db w ++ rows /\
        map row_filename rows = map filename done)
  /\
  (forall e w',
      Index.summarize_papers E files w = (inl e, w') ->
      status_of e = Some 500 /\ db w' = db w).
Proof.
  split.
  - intros e w' Hrun. unfold App.summarize_papers in Hrun.
    destruct (app_loop_outcome E files [] w) as (r & w1 & H & Hcase).
    rewrite H in Hrun. injection Hrun as -> <-.
    destruct Hcase as (done & f & rest & rows & vs & w2 & Hf & Hdone & Hfail & Hdb & Hrows & He).
    split; [exact He|].
    exists done, f, rest, rows, vs, w2. now repeat split.
  - intros e w' Hrun. apply index_batch_failure in Hrun. tauto.
Qed.

Lemma batch_failure_store_witness :
  exists e w',
    App.summarize_papers batch_env [good_file; bad_file] empty_world = (inl e, w') /\
    status_of e = Some 500 /\
    exists done f rest rows vs w1,
      [good_file; bad_file] = done ++ f :: rest /\
      App.summarize_papers batch_env done empty_world = (inr vs, w1) /\
      App.process_file batch_env f w1 = (inl e, w') /\
      db w' = db empty_world ++ rows /\
      map row_filename rows = map filename done.
Proof.
  eexists. eexists.
  assert (H : App.summarize_papers batch_env [good_file; bad_file] empty_world
              = (inl (HTTPException 500 "An error occurred while processing bad.pdf."),
                 World [Row "id-0" "good.pdf" "S" "C" "Idea1"]
                       [summary_request "Paper body..."; ideas_request "S"] 1))
    by (vm_compute; reflexivity).
  split; [exact H|].
  exact (proj1 (@batch_failure_store batch_env [good_file; bad_file] empty_world) _ _ H).
Defined.

(** C2 as stated fails for the SQLite service: the second file of the
    batch cannot be read, the request aborts, and the row of the first
    file is in the table all the same. *)
Lemma batch_failure_store_counterexample :
  (exists d, App.extract_text_from_pdf (file bad_file) = inl (HTTPException 400 d)) /\
  exists e w',
    App.summarize_papers batch_env [good_file; bad_file] empty_world = (inl e, w') /\
    db w' = [Row "id-0" "good.pdf" "S" "C" "Idea1"] /\
    db w' <> db empty_world.
Proof.
  split; [eexists; reflexivity|].
  eexists. eexists. split; [vm_compute; reflexivity|].
  split; [reflexivity | discriminate].
Qed.

(** ** The matcher *)

Section MatcherFacts.
Variable R : Type.
Implicit Types (k : cont R) (s : str) (c : caps).

(** The matcher only looks at what the continuation returns. *)
Lemma rep_ext (p : ascii -> bool) k1 k2 :
  (forall s c, k1 s c = k2 s c) ->
  forall s min c, rep p min k1 s c = rep p min k2 s c.
Proof.
  intros Hk. induction s as [|a s IH]; intros min c; simpl.
  - now rewrite Hk.
  - now rewrite IH, Hk.
Qed.

Lemma mt_ext (r : regex) :
  forall k1 k2, (forall s c, k1 s c = k2 s c) ->
  forall s c, mt r k1 s c = mt r k2 s c.
Proof.
  induction r as [|p|r1 IH1 r2 IH2|r1 IH1 r2 IH2|min p|i r IH];
    intros k1 k2 Hk s c; simpl.
  - apply Hk.
  - destruct s as [|a s]; [reflexivity|]. now rewrite Hk.
  - apply IH1. intros s' c'. now apply IH2.
  - now rewrite (IH1 k1 k2 Hk), (IH2 k1 k2 Hk).
  - now apply rep_ext.
  - apply IH. intros s' c'. apply Hk.
Qed.

Lemma mt_lit (t : str) k s c : mt (Lit t) k (t ++ s) c = k s c.
Proof.
  induction t as [|a t IH]; simpl; [reflexivity|].
  now rewrite Ascii.eqb_refl.
Qed.

Lemma mt_cat_cons (r : regex) (l : list regex) k s c :
  mt (cat (r :: l)) k s c = mt r (mt (cat l) k) s c.
Proof. reflexivity. Qed.

Lemma mt_cat_app (l1 l2 : list regex) k s c :
  mt (cat (l1 ++ l2)) k s c = mt (cat l1) (mt (cat l2) k) s c.
Proof.
  revert k s c. induction l1 as [|r l1 IH]; intros k s c; [reflexivity|].
  simpl app. rewrite !mt_cat_cons. apply mt_ext. intros s' c'. apply IH.
Qed.

(** A greedy repetition that can take all of [w], and after which the
    rest of the pattern matches, takes all of [w]. *)
Lemma rep_greedy (p : ascii -> bool) k (w rest : str) c (x : R) :
  forallb p w = true ->
  match rest with [] => True | a :: _ => p a = false end ->
  k rest c = Some x ->
  forall min, min <= List.length w ->
  rep p min k (w ++ rest) c = Some x.
Proof.
  intros Hw Hrest Hk. induction w as [|b w IH]; intros min Hmin.
  - simpl in Hmin. assert (min = 0) as -> by lia.
    destruct rest as [|a rest]; simpl; [exact Hk|]. now rewrite Hrest.
  - simpl in Hw. apply andb_true_iff in Hw as [Hb Hw].
    simpl. rewrite Hb. rewrite (IH Hw (pred min)); [reflexivity|].
    simpl in Hmin. lia.
Qed.

(** A repetition finds a match whenever the rest of the pattern
    matches after some admissible number of characters. *)
Lemma rep_complete (p : ascii -> bool) k (w t : str) c :
  forallb p w = true ->
  k t c <> None ->
  forall min, min <= List.length w ->
  rep p min k (w ++ t) c <> None.
Proof.
  intros Hw Hk. induction w as [|b w IH]; intros min Hmin.
  - simpl in Hmin. assert (min = 0) as -> by lia.
    destruct t as [|a t]; simpl; [exact Hk|].
    destruct (p a); [|exact Hk].
    destruct (rep p 0 k t c); [discriminate | exact Hk].
  - simpl in Hw. apply andb_true_iff in Hw as [Hb Hw].
    simpl. rewrite Hb.
    destruct (rep p (pred min) k (w ++ t) c) eqn:Hr; [discriminate|].
    exfalso. revert Hr. apply (IH Hw). simpl in Hmin. lia.
Qed.

(** Where the continuation is entered, a prefix of the text has been
    consumed. *)
Lemma rep_suffix (p : ascii -> bool) k (x : R) :
  forall s min c, rep p min k s c = Some x ->
  exists u s', s = u ++ s' /\ k s' c = Some x.
Proof.
  induction s as [|a s IH]; intros min c H; simpl in H.
  - destruct (min =? 0); [|discriminate]. now exists [], [].
  - destruct (p a).
    + destruct (rep p (pred min) k s c) eqn:Hr.
      * injection H as ->. destruct (IH _ _ Hr) as (u & s' & -> & Hk).
        now exists (a :: u), s'.
      * destruct (min =? 0); [|discriminate]. now exists [], (a :: s).
    + destruct (min =? 0); [|discriminate]. now exists [], (a :: s).
Qed.

Lemma mt_suffix (r : regex) (x : R) :
  forall k s c, mt r k s c = Some x ->
  exists u s' c', s = u ++ s' /\ k s' c' = Some x.
Proof.
  induction r as [|p|r1 IH1 r2 IH2|r1 IH1 r2 IH2|min p|i r IH];
    intros k s c H; simpl in H.
  - now exists [], s, c.
  - destruct s as [|a s]; [discriminate|].
    destruct (p a); [|discriminate]. now exists [a], s, c.
  - destruct (IH1 _ _ _ H) as (u1 & s1 & c1 & -> & H1).
    destruct (IH2 _ _ _ H1) as (u2 & s2 & c2 & -> & H2).
    exists (u1 ++ u2), s2, c2. now rewrite app_assoc.
  - destruct (mt r1 k s c) eqn:H1.
    + injection H as ->. now apply IH1 in H1.
    + now apply IH2 in H.
  - destruct (rep_suffix _ _ _ _ _ H) as (u & s' & -> & Hk). now exists u, s', c.
  - destruct (IH _ _ _ H) as (u & s' & c' & -> & Hk). eexists u, s', _. split; [reflexivity|].
    exact Hk.
Qed.
End MatcherFacts.

Lemma firstn_consumed {A} (w rest : list A) :
  firstn (List.length (w ++ rest) - List.length rest) (w ++ rest) = w.
Proof.
  rewrite length_app. replace (List.length w + List.length rest - List.length rest)
    with (List.length w + 0) by lia.
  rewrite firstn_app_2. simpl. apply app_nil_r.
Qed.

(** ** Substitution *)

Lemma sub_scan_past (r : regex) (tpl : list tpl_item) (s : str) :
  sub_scan r tpl (List.length s) s = sub_scan r tpl 0 [].
Proof. induction s as [|a s IH]; [reflexivity | exact IH]. Qed.

(** A match that covers the whole text is replaced as a whole. *)
Lemma re_sub_whole (r : regex) (tpl : list tpl_item) (s : str) (c : caps) :
  s <> [] -> re_match r s = Some (c, []) -> re_match r [] = None ->
  re_sub r tpl s = expand tpl c.
Proof.
  intros Hs Hm He. destruct s as [|a s]; [congruence|].
  unfold re_sub. cbn [sub_scan]. rewrite Hm. cbn [List.length Nat.sub].
  rewrite sub_scan_past. cbn [sub_scan]. rewrite He. apply app_nil_r.
Qed.

(** Without a match anywhere the text is returned as it is. *)
Lemma re_sub_no_match (r : regex) (tpl : list tpl_item) (s : str) :
  re_found r s = false -> re_sub r tpl s = s.
Proof.
  unfold re_sub. induction s as [|a s IH]; intro H; simpl in H.
  - cbn [sub_scan]. destruct (re_match r []); [discriminate | reflexivity].
  - cbn [sub_scan]. destruct (re_match r (a :: s)); [discriminate|].
    now rewrite IH.
Qed.

Lemma re_found_false (r : regex) (s : str) :
  (forall u t, s = u ++ t -> re_match r t = None) -> re_found r s = false.
Proof.
  induction s as [|a s IH]; intro H; simpl.
  - now rewrite (H [] [] eq_refl).
  - rewrite (H [] (a :: s) eq_refl). apply IH.
    intros u t ->. now apply (H (a :: u) t).
Qed.

(** ** Sanitization *)

(** A character that is not in a literal text is not in it. *)
Ltac not_in_literal H := simpl in H; intuition discriminate.

Lemma require_stmt_shape (names module : str) :
  require_stmt names module
  = "const" ++ [" "%char] ++ (names ++ [" "%char]) ++ "=" ++ [" "%char] ++ "require('"
    ++ module ++ "')" ++ ";".
Proof. unfold require_stmt. rewrite <- !app_assoc. reflexivity. Qed.

Lemma js_names_inv (names : str) :
  js_names names = true ->
  exists n0 names', names = n0 :: names' /\ isspace n0 = false /\
    forallb (neq_char "=") (names ++ [" "%char]) = true /\
    forallb (fun c => negb (isquote c)) names = true /\
    forallb (fun c => negb (Ascii.eqb c newline)) names = true.
Proof.
  unfold js_names. intro H. apply andb_true_iff in H as [H0 H].
  destruct names as [|n0 names']; [discriminate|].
  exists n0, names'. split; [reflexivity|]. split; [now apply negb_true_iff|].
  rewrite forallb_app. 
  assert (Hsplit : forall c,
             negb (Ascii.eqb c "=") && negb (isquote c) && negb (Ascii.eqb c newline) = true ->
             neq_char "=" c = true /\ negb (isquote c) = true /\
             negb (Ascii.eqb c newline) = true).
  { intros c Hc. apply andb_true_iff in Hc as [Hc H3].
    apply andb_true_iff in Hc as [H1 H2]. auto. }
  rewrite forallb_forall in H.
  repeat split.
  - apply andb_true_iff. split; [|reflexivity].
    apply forallb_forall. intros c Hc. now apply Hsplit, H.
  - apply forallb_forall. intros c Hc. now apply Hsplit, H.
  - apply forallb_forall. intros c Hc. now apply Hsplit, H.
Qed.

Lemma js_module_inv (module : str) :
  js_module module = true ->
  exists m0 module', module = m0 :: module' /\
    forallb (neq_char squote) module = true /\
    forallb (fun c => negb (isquote c)) module = true /\
    forallb (fun c => negb (Ascii.eqb c ";")) module = true /\
    forallb (fun c => negb (Ascii.eqb c newline)) module = true.
Proof.
  unfold js_module. intro H. apply andb_true_iff in H as [H0 H].
  destruct module as [|m0 module']; [discriminate|].
  exists m0, module'. split; [reflexivity|].
  rewrite forallb_forall in H.
  assert (Hc : forall c, In c (m0 :: module') ->
     negb (isquote c) = true /\ negb (Ascii.eqb c ";") = true /\ negb (Ascii.eqb c newline) = true).
  { intros c Hin. specialize (H c Hin). apply andb_true_iff in H as [H H3].
    apply andb_true_iff in H as [H1 H2]. auto. }
  repeat split; apply forallb_forall; intros c Hin; try now apply Hc.
  destruct (Hc c Hin) as [Hq _]. unfold isquote in Hq. unfold neq_char.
  apply negb_true_iff in Hq. apply orb_false_iff in Hq as [Hq _]. now rewrite Hq.
Qed.

(** The pattern matches a whole [const ... = require('...');] statement,
    the first group taking the names and the blank after them. *)
Lemma require_stmt_match (names module : str) :
  js_names names = true -> js_module module = true ->
  re_match require_re (require_stmt names module)
  = Some ([(2, module); (1, names ++ [" "%char])], []).
Proof.
  intros Hn Hm. rewrite require_stmt_shape.
  destruct (js_names_inv _ Hn) as (n0 & names' & Hnames & Hn0 & Hneq & _).
  destruct (js_module_inv _ Hm) as (m0 & module' & Hmodule & Hmq & _).
  unfold re_match, require_re.
  rewrite mt_cat_cons, mt_lit.
  rewrite mt_cat_cons. cbn [mt].
  apply rep_greedy; [reflexivity | rewrite Hnames; exact Hn0 | | simpl; lia].
  rewrite mt_cat_cons. cbn [mt].
  apply rep_greedy; [exact Hneq | reflexivity | | rewrite length_app; simpl; lia].
  rewrite firstn_consumed.
  rewrite mt_cat_cons. cbn [mt].
  apply (rep_greedy _ _ []); [reflexivity | reflexivity | | simpl; lia].
  match goal with
  | |- context [("="%char :: ?r)] => change ("="%char :: r) with (lit "=" ++ r)
  end.
  rewrite mt_cat_cons, mt_lit.
  rewrite mt_cat_cons. cbn [mt].
  apply rep_greedy; [reflexivity | reflexivity | | simpl; lia].
  rewrite mt_cat_cons, mt_lit.
  rewrite mt_cat_cons. cbn [mt].
  apply rep_greedy; [exact Hmq | reflexivity | | rewrite Hmodule; simpl; lia].
  rewrite firstn_consumed.
  rewrite mt_cat_cons, mt_lit.
  reflexivity.
Qed.

Lemma expand_require (names module : str) :
  expand require_repl [(2, module); (1, names)] = commented_require names module.
Proof.
  unfold commented_require. cbn [expand require_repl group Nat.eqb].
  now rewrite app_nil_r.
Qed.

Lemma require_stmt_commented (names module : str) :
  js_names names = true -> js_module module = true ->
  re_sub require_re require_repl (require_stmt names module)
  = commented_require (names ++ [" "%char]) module.
Proof.
  intros Hn Hm. rewrite <- expand_require.
  apply re_sub_whole; [discriminate | now apply require_stmt_match | reflexivity].
Qed.

(** Where the import pattern matches, a quote is followed by a semicolon. *)
Lemma quote_semi_app_r (u t : str) : quote_semi t = true -> quote_semi (u ++ t) = true.
Proof.
  intro Ht. induction u as [|a u IH]; [exact Ht|].
  simpl app. cbn [quote_semi]. destruct (u ++ t); [discriminate|].
  rewrite IH. apply orb_true_r.
Qed.

Lemma quote_semi_skip (x rest : str) :
  forallb (fun c => negb (isquote c)) x = true ->
  quote_semi (x ++ rest) = quote_semi rest.
Proof.
  induction x as [|a x IH]; intro Hx; [reflexivity|].
  simpl in Hx. apply andb_true_iff in Hx as [Ha Hx]. apply negb_true_iff in Ha.
  simpl app. cbn [quote_semi]. rewrite <- (IH Hx).
  destruct (x ++ rest); [reflexivity|]. now rewrite Ha.
Qed.

Lemma import_match_quote_semi (t : str) (x : caps * str) :
  re_match import_re t = Some x -> quote_semi t = true.
Proof.
  unfold re_match.
  change import_re with
    (cat ([ Lit "import"; Rep 1 isspace;
            Rep 1 (fun c => negb (Ascii.eqb c ";") && negb (Ascii.eqb c newline));
            Rep 1 isspace; Lit "from"; Rep 1 isspace ]
          ++ [ Chr isquote;
               Group 1 (Alt (Lit "fs") (Alt (Lit "path") (Alt (Lit "http") (Lit "module"))));
               Chr isquote; Lit ";" ])).
  rewrite mt_cat_app. intro H.
  apply mt_suffix in H as (u1 & s1 & c1 & -> & H).
  change (cat [ Chr isquote;
                Group 1 (Alt (Lit "fs") (Alt (Lit "path") (Alt (Lit "http") (Lit "module"))));
                Chr isquote; Lit ";" ])
    with (cat ([ Chr isquote;
                 Group 1 (Alt (Lit "fs") (Alt (Lit "path") (Alt (Lit "http") (Lit "module")))) ]
               ++ [ Chr isquote; Lit ";" ])) in H.
  rewrite mt_cat_app in H.
  apply mt_suffix in H as (u2 & s2 & c2 & -> & H).
  apply quote_semi_app_r, quote_semi_app_r.
  destruct s2 as [|q [|b s2]];
    cbn [mt cat fold_right Lit lit list_ascii_of_string] in H; try discriminate.
  - destruct (isquote q); discriminate.
  - destruct (isquote q) eqn:Hq; [|discriminate].
    destruct (Ascii.eqb ";" b) eqn:Hb; [|discriminate].
    apply Ascii.eqb_eq in Hb. subst b. cbn [quote_semi].
    now rewrite Hq, Ascii.eqb_refl.
Qed.
Lemma commented_no_quote_semi (names module : str) :
  js_names names = true -> js_module module = true ->
  quote_semi (commented_require (names ++ [" "%char]) module) = false.
Proof.
  intros Hn Hm.
  destruct (js_names_inv _ Hn) as (n0 & names' & _ & _ & _ & Hnq & _).
  destruct (js_module_inv _ Hm) as (m0 & module' & -> & _ & Hmq & Hms & _).
  unfold commented_require.
  replace ("// const " ++ (names ++ [" "%char]) ++ " = require(" ++ [dquote]
           ++ (m0 :: module') ++ [dquote] ++ "); // Commented out for browser compatibility")
    with (("// const " ++ names ++ [" "%char] ++ " = require(") ++ dquote
          :: (m0 :: module') ++ dquote :: "); // Commented out for browser compatibility")
    by (rewrite <- !app_assoc; reflexivity).
  rewrite quote_semi_skip.
  - change (quote_semi (dquote :: (m0 :: module') ++
                        dquote :: "); // Commented out for browser compatibility"))
      with ((isquote dquote && Ascii.eqb m0 ";")
            || quote_semi ((m0 :: module') ++
                           dquote :: "); // Commented out for browser compatibility")).
    simpl in Hms. apply andb_true_iff in Hms as [Hm0 _].
    apply negb_true_iff in Hm0. rewrite Hm0, andb_false_r. cbn [orb].
    rewrite (quote_semi_skip _ _ Hmq). reflexivity.
  - rewrite !forallb_app, Hnq. reflexivity.
Qed.

Lemma require_stmt_cleaned (names module : str) :
  js_names names = true -> js_module module = true ->
  clean_js_code (require_stmt names module)
  = commented_require (names ++ [" "%char]) module.
Proof.
  intros Hn Hm. unfold clean_js_code.
  rewrite (require_stmt_commented _ _ Hn Hm).
  apply re_sub_no_match, re_found_false.
  intros u t Heq. destruct (re_match import_re t) as [x|] eqn:Hx; [|reflexivity].
  apply import_match_quote_semi in Hx.
  pose proof (commented_no_quote_semi _ _ Hn Hm) as Hno.
  rewrite Heq in Hno. rewrite (quote_semi_app_r u _ Hx) in Hno. discriminate.
Qed.

Lemma require_match_equals (t : str) (x : caps * str) :
  re_match require_re t = Some x -> In "="%char t.
Proof.
  unfold re_match.
  change require_re with
    (cat ([ Lit "const"; Rep 1 isspace; Group 1 (Rep 1 (neq_char "=")); Rep 0 isspace ]
          ++ [ Lit "="; Rep 0 isspace; Lit "require('";
               Group 2 (Rep 1 (neq_char squote)); Lit "')"; Opt (Lit ";") ])).
  rewrite mt_cat_app. intro H.
  apply mt_suffix in H as (u & s & c & -> & H).
  apply in_or_app. right.
  destruct s as [|b s]; cbn [mt cat fold_right Lit lit list_ascii_of_string] in H;
    [discriminate|].
  destruct (Ascii.eqb "=" b) eqn:Hb; [|discriminate].
  apply Ascii.eqb_eq in Hb. now left.
Qed.

Lemma isquote_inv (q : ascii) : isquote q = true -> q = squote \/ q = dquote.
Proof.
  unfold isquote. intro H. apply orb_true_iff in H as [H | H];
    apply Ascii.eqb_eq in H; auto.
Qed.

Lemma js_binding_inv (binding : str) :
  js_binding binding = true ->
  binding <> [] /\
  forallb (fun c => negb (Ascii.eqb c ";") && negb (Ascii.eqb c newline)) binding = true /\
  ~ In ";"%char binding /\ ~ In "="%char binding.
Proof.
  unfold js_binding. intro H. apply andb_true_iff in H as [H0 H].
  rewrite forallb_forall in H.
  assert (Hc : forall c, In c binding ->
            Ascii.eqb c ";" = false /\ Ascii.eqb c newline = false /\ Ascii.eqb c "=" = false).
  { intros c Hin. specialize (H c Hin). apply andb_true_iff in H as [H H3].
    apply andb_true_iff in H as [H1 H2].
    now rewrite !negb_true_iff in *. }
  split; [destruct binding; [discriminate | discriminate]|].
  split; [|split].
  - apply forallb_forall. intros c Hin. destruct (Hc c Hin) as (-> & -> & _). reflexivity.
  - intro Hin. destruct (Hc _ Hin) as (H1 & _). now rewrite Ascii.eqb_refl in H1.
  - intro Hin. destruct (Hc _ Hin) as (_ & _ & H1). now rewrite Ascii.eqb_refl in H1.
Qed.

Lemma import_stmt_no_require (binding : str) (q1 q2 : ascii) (module : str) :
  js_binding binding = true -> isquote q1 = true -> isquote q2 = true ->
  In module server_modules ->
  re_sub require_re require_repl (import_stmt binding q1 module q2)
  = import_stmt binding q1 module q2.
Proof.
  intros Hb Hq1 Hq2 Hm.
  apply re_sub_no_match, re_found_false.
  intros u t Heq. destruct (re_match require_re t) as [x|] eqn:Hx; [|reflexivity].
  exfalso. apply require_match_equals in Hx.
  assert (Hin : In "="%char (import_stmt binding q1 module q2))
    by (rewrite Heq; apply in_or_app; now right).
  destruct (js_binding_inv _ Hb) as (_ & _ & _ & Hno).
  unfold import_stmt in Hin.
  repeat (apply in_app_or in Hin as [Hin | Hin]).
  - not_in_literal Hin.
  - contradiction.
  - not_in_literal Hin.
  - destruct (isquote_inv _ Hq1) as [-> | ->]; not_in_literal Hin.
  - simpl in Hm. destruct Hm as [<- | [<- | [<- | [<- | []]]]];
      not_in_literal Hin.
  - destruct (isquote_inv _ Hq2) as [-> | ->]; not_in_literal Hin.
  - not_in_literal Hin.
Qed.

Lemma last_occurrence {A} (a : A) (X u rest : list A) :
  X ++ [a] = u ++ a :: rest -> ~ In a X -> rest = [].
Proof.
  intros Heq Hno. destruct rest as [|b rest] using rev_ind; [reflexivity|].
  exfalso. apply Hno.
  replace (u ++ a :: rest ++ [b]) with ((u ++ a :: rest) ++ [b]) in Heq
    by (rewrite <- app_assoc; reflexivity).
  apply app_inj_tail in Heq as [-> _]. apply in_or_app. right. now left.
Qed.

Lemma import_stmt_shape (binding : str) (q1 q2 : ascii) (module : str) :
  import_stmt binding q1 module q2
  = "import" ++ [" "%char] ++ binding ++ (" from " ++ [q1] ++ module ++ [q2] ++ ";").
Proof. reflexivity. Qed.

Lemma import_tail_match (q1 q2 : ascii) (module : str) :
  isquote q1 = true -> isquote q2 = true -> In module server_modules ->
  mt (cat [ Rep 1 isspace; Lit "from"; Rep 1 isspace; Chr isquote;
            Group 1 (Alt (Lit "fs") (Alt (Lit "path") (Alt (Lit "http") (Lit "module"))));
            Chr isquote; Lit ";" ])
     (fun s' c => Some (c, s'))
     (" from " ++ [q1] ++ module ++ [q2] ++ ";") []
  <> None.
Proof.
  intros Hq1 Hq2 Hm.
  destruct (isquote_inv _ Hq1) as [-> | ->], (isquote_inv _ Hq2) as [-> | ->];
    simpl in Hm; destruct Hm as [<- | [<- | [<- | [<- | []]]]];
    vm_compute; discriminate.
Qed.

Lemma import_stmt_match (binding : str) (q1 q2 : ascii) (module : str) :
  js_binding binding = true -> isquote q1 = true -> isquote q2 = true ->
  In module server_modules ->
  exists c, re_match import_re (import_stmt binding q1 module q2) = Some (c, []).
Proof.
  intros Hb Hq1 Hq2 Hm.
  destruct (js_binding_inv _ Hb) as (Hne & Hcls & Hsemi & _).
  destruct (re_match import_re (import_stmt binding q1 module q2)) as [[c rest]|] eqn:Hrun.
  - exists c. f_equal. f_equal.
    revert Hrun. unfold re_match.
    change import_re with
      (cat ([ Lit "import"; Rep 1 isspace;
              Rep 1 (fun c => negb (Ascii.eqb c ";") && negb (Ascii.eqb c newline));
              Rep 1 isspace; Lit "from"; Rep 1 isspace; Chr isquote;
              Group 1 (Alt (Lit "fs") (Alt (Lit "path") (Alt (Lit "http") (Lit "module"))));
              Chr isquote ]
            ++ [ Lit ";" ])).
    rewrite mt_cat_app. intro H.
    apply mt_suffix in H as (u & s1 & c1 & Hs & H).
    destruct s1 as [|b s1]; cbn [mt cat fold_right Lit lit list_ascii_of_string] in H;
      [discriminate|].
    destruct (Ascii.eqb ";" b) eqn:Hb'; [|discriminate].
    apply Ascii.eqb_eq in Hb'. subst b. injection H as _ <-.
    assert (Hshape : import_stmt binding q1 module q2
                     = ("import " ++ binding ++ " from " ++ [q1] ++ module ++ [q2])
                       ++ [";"%char])
      by (unfold import_stmt; rewrite <- !app_assoc; reflexivity).
    rewrite Hshape in Hs.
    eapply last_occurrence; [exact Hs|].
    intro Hin. repeat (apply in_app_or in Hin as [Hin | Hin]).
    + not_in_literal Hin.
    + contradiction.
    + not_in_literal Hin.
    + destruct (isquote_inv _ Hq1) as [-> | ->]; not_in_literal Hin.
    + simpl in Hm. destruct Hm as [<- | [<- | [<- | [<- | []]]]];
        not_in_literal Hin.
    + destruct (isquote_inv _ Hq2) as [-> | ->]; not_in_literal Hin.
  - exfalso. revert Hrun. rewrite import_stmt_shape. unfold re_match, import_re.
    rewrite mt_cat_cons, mt_lit. rewrite mt_cat_cons. cbn [mt].
    apply rep_complete; [reflexivity | | simpl; lia].
    rewrite mt_cat_cons. cbn [mt].
    apply rep_complete; [exact Hcls | | destruct binding; [congruence | simpl; lia]].
    now apply import_tail_match.
Qed.

Lemma import_stmt_cleaned (binding : str) (q1 q2 : ascii) (module : str) :
  js_binding binding = true -> isquote q1 = true -> isquote q2 = true ->
  In module server_modules ->
  clean_js_code (import_stmt binding q1 module q2) = import_marker.
Proof.
  intros Hb Hq1 Hq2 Hm. unfold clean_js_code.
  rewrite (@import_stmt_no_require binding q1 q2 module Hb Hq1 Hq2 Hm).
  destruct (@import_stmt_match binding q1 q2 module Hb Hq1 Hq2 Hm) as [c Hc].
  erewrite re_sub_whole; [apply app_nil_r | discriminate | exact Hc | reflexivity].
Qed.

Lemma clean_js_code_identity (code : str) :
  re_found require_re code = false -> re_found import_re code = false ->
  clean_js_code code = code.
Proof.
  intros H1 H2. unfold clean_js_code.
  rewrite (@re_sub_no_match require_re require_repl code H1). now apply re_sub_no_match.
Qed.

Lemma commented_one_line (names module : str) :
  js_names names = true -> js_module module = true ->
  ~ In newline (commented_require (names ++ [" "%char]) module).
Proof.
  intros Hn Hm.
  destruct (js_names_inv _ Hn) as (_ & _ & _ & _ & _ & _ & Hnn).
  destruct (js_module_inv _ Hm) as (_ & _ & _ & _ & _ & _ & Hmn).
  assert (Hno : forall x, forallb (fun c => negb (Ascii.eqb c newline)) x = true ->
                          ~ In newline x).
  { intros x Hx Hin. rewrite forallb_forall in Hx. specialize (Hx _ Hin).
    now rewrite Ascii.eqb_refl in Hx. }
  unfold commented_require. intro Hin.
  repeat (apply in_app_or in Hin as [Hin | Hin]).
  - not_in_literal Hin.
  - now apply (Hno names Hnn).
  - not_in_literal Hin.
  - not_in_literal Hin.
  - not_in_literal Hin.
  - now apply (Hno module Hmn).
  - not_in_literal Hin.
  - not_in_literal Hin.
Qed.

(** The rewritten statement is one line and the line is a comment. *)
Lemma commented_is_comment (names module : str) :
  js_names names = true -> js_module module = true ->
  startswith (commented_require (names ++ [" "%char]) module) "//" = true /\
  has_char newline (commented_require (names ++ [" "%char]) module) = false /\
  unsanitized_require (commented_require (names ++ [" "%char]) module) = false.
Proof.
  intros Hn Hm. pose proof (@commented_one_line names module Hn Hm) as Hline.
  split; [reflexivity|]. split.
  - destruct (has_char newline _) eqn:Hc; [|reflexivity].
    exfalso. apply Hline. unfold has_char in Hc. apply existsb_exists in Hc as (c & Hin & Hc).
    apply Ascii.eqb_eq in Hc. now subst c.
  - unfold unsanitized_require, split.
    rewrite (@split_char_none newline None _ Hline). reflexivity.
Qed.

(** ** Statements inside a script *)

Lemma startswith_app (s r p : str) : startswith s p = true -> startswith (s ++ r) p = true.
Proof.
  intro H. apply startswith_iff in H as [post ->]. apply startswith_iff.
  exists (post ++ r). now rewrite app_assoc.
Qed.

Lemma contains_app_r (u t p : str) : contains t p = true -> contains (u ++ t) p = true.
Proof.
  intro H. induction u as [|a u IH]; [exact H|].
  simpl app. cbn [contains]. rewrite IH. apply orb_true_r.
Qed.

Lemma contains_app_l (t r p : str) : contains t p = true -> contains (t ++ r) p = true.
Proof.
  induction t as [|a t IH]; intro H.
  - cbn [contains] in H. rewrite orb_false_r in H.
    destruct p; [|discriminate]. destruct r; reflexivity.
  - cbn [contains] in H. apply orb_true_iff in H as [H | H].
    + simpl app. cbn [contains]. change (a :: t ++ r) with ((a :: t) ++ r).
      now rewrite (startswith_app _ r _ H).
    + simpl app. cbn [contains]. rewrite (IH H). apply orb_true_r.
Qed.

Lemma split_scan_not_nil (sep : str) (m : option nat) (k : nat) (s : str) :
  split_scan sep m k s <> [].
Proof.
  revert m k. induction s as [|a s IH]; intros m k; [discriminate|].
  cbn [split_scan]. destruct k; [|apply IH].
  destruct (may_split m && startswith (a :: s) sep); [discriminate|].
  specialize (IH m 0). destruct (split_scan sep m 0 s); [congruence | discriminate].
Qed.

Lemma split_head_prefix (sep : str) (m : option nat) (s : str) :
  exists rest, s = hd [] (split_scan sep m 0 s) ++ rest.
Proof.
  revert m. induction s as [|a s IH]; intro m; [now exists []|].
  cbn [split_scan]. destruct (may_split m && startswith (a :: s) sep).
  - now exists (a :: s).
  - destruct (IH m) as (rest & Hs).
    pose proof (@split_scan_not_nil sep m 0 s) as Hne.
    destruct (split_scan sep m 0 s) as [|h t]; [congruence|].
    exists rest. simpl in *. now f_equal.
Qed.

Lemma mt_lit_inv (R : Type) (t : str) (k : cont R) (s : str) (c : caps) (x : R) :
  mt (Lit t) k s c = Some x -> exists rest, s = t ++ rest /\ k rest c = Some x.
Proof.
  revert s. induction t as [|a t IH]; intros s H; cbn [Lit mt] in H.
  - now exists s.
  - destruct s as [|b s]; [discriminate|].
    destruct (Ascii.eqb a b) eqn:Hab; [|discriminate].
    apply Ascii.eqb_eq in Hab. subst b.
    destruct (IH _ H) as (rest & -> & Hk). now exists rest.
Qed.

Lemma startswith_contains (s p : str) : startswith s p = true -> contains s p = true.
Proof. intro H. destruct s; cbn [contains]; now rewrite H. Qed.

Lemma require_match_call (t : str) (x : caps * str) :
  re_match require_re t = Some x -> contains t "require('" = true.
Proof.
  unfold re_match.
  change require_re with
    (cat ([ Lit "const"; Rep 1 isspace; Group 1 (Rep 1 (neq_char "=")); Rep 0 isspace;
            Lit "="; Rep 0 isspace ]
          ++ [ Lit "require('"; Group 2 (Rep 1 (neq_char squote)); Lit "')";
               Opt (Lit ";") ])).
  rewrite mt_cat_app. intro H.
  apply mt_suffix in H as (u & s & c & -> & H).
  rewrite mt_cat_cons in H. apply mt_lit_inv in H as (rest & -> & _).
  apply contains_app_r, startswith_contains, startswith_iff. now exists rest.
Qed.

Lemma import_match_keyword (t : str) (x : caps * str) :
  re_match import_re t = Some x -> contains t "import" = true.
Proof.
  unfold re_match, import_re. rewrite mt_cat_cons. intro H.
  apply mt_lit_inv in H as (rest & -> & _).
  apply startswith_contains, startswith_iff. now exists rest.
Qed.

Lemma re_found_contains (r : regex) (p s : str) :
  (forall t x, re_match r t = Some x -> contains t p = true) ->
  contains s p = false -> re_found r s = false.
Proof.
  intros Hr Hs. apply re_found_false. intros u t ->.
  destruct (re_match r t) as [x|] eqn:Hx; [|reflexivity].
  apply Hr in Hx. rewrite (contains_app_r u _ _ Hx) in Hs. discriminate.
Qed.

Lemma require_stmt_rest_shape (names module rest : str) :
  require_stmt names module ++ rest
  = "const" ++ [" "%char] ++ (names ++ [" "%char]) ++ "=" ++ [" "%char] ++ "require('"
    ++ module ++ "')" ++ ";" ++ rest.
Proof. unfold require_stmt. rewrite <- !app_assoc. reflexivity. Qed.

(** The pattern matches a statement at the head of a longer text and
    stops right after it. *)
Lemma require_stmt_match_rest (names module rest : str) :
  js_names names = true -> js_module module = true ->
  re_match require_re (require_stmt names module ++ rest)
  = Some ([(2, module); (1, names ++ [" "%char])], rest).
Proof.
  intros Hn Hm. rewrite require_stmt_rest_shape.
  destruct (js_names_inv _ Hn) as (n0 & names' & Hnames & Hn0 & Hneq & _).
  destruct (js_module_inv _ Hm) as (m0 & module' & Hmodule & Hmq & _).
  unfold re_match, require_re.
  rewrite mt_cat_cons, mt_lit.
  rewrite mt_cat_cons. cbn [mt].
  apply rep_greedy; [reflexivity | rewrite Hnames; exact Hn0 | | simpl; lia].
  rewrite mt_cat_cons. cbn [mt].
  apply rep_greedy; [exact Hneq | reflexivity | | rewrite length_app; simpl; lia].
  rewrite firstn_consumed.
  rewrite mt_cat_cons. cbn [mt].
  apply (rep_greedy _ _ []); [reflexivity | reflexivity | | simpl; lia].
  match goal with
  | |- context [("="%char :: ?r)] => change ("="%char :: r) with (lit "=" ++ r)
  end.
  rewrite mt_cat_cons, mt_lit.
  rewrite mt_cat_cons. cbn [mt].
  apply rep_greedy; [reflexivity | reflexivity | | simpl; lia].
  rewrite mt_cat_cons, mt_lit.
  rewrite mt_cat_cons. cbn [mt].
  apply rep_greedy; [exact Hmq | reflexivity | | rewrite Hmodule; simpl; lia].
  rewrite firstn_consumed.
  rewrite mt_cat_cons, mt_lit.
  reflexivity.
Qed.

Lemma sub_scan_skip (r : regex) (tpl : list tpl_item) (x rest : str) :
  sub_scan r tpl (List.length x) (x ++ rest) = sub_scan r tpl 0 rest.
Proof. induction x as [|a x IH]; [reflexivity | exact IH]. Qed.

(** A match at the head is replaced and the scan goes on after it. *)
Lemma sub_scan_match (r : regex) (tpl : list tpl_item) (a : ascii) (x rest : str)
    (c : caps) :
  re_match r ((a :: x) ++ rest) = Some (c, rest) ->
  sub_scan r tpl 0 ((a :: x) ++ rest) = expand tpl c ++ sub_scan r tpl 0 rest.
Proof.
  intro Hm. simpl app in *. cbn [sub_scan]. rewrite Hm.
  replace (List.length (a :: x ++ rest) - List.length rest) with (S (List.length x))
    by (cbn [List.length]; rewrite length_app; lia).
  now rewrite sub_scan_skip.
Qed.

Lemma str_eqb_eq (a b : str) : str_eqb a b = true <-> a = b.
Proof.
  revert b. induction a as [|x a IH]; intros [|y b]; simpl; try (split; congruence).
  rewrite andb_true_iff, Ascii.eqb_eq, IH. split; [intros [-> ->] | intros [= -> ->]]; auto.
Qed.

Section Sound.
Variable R : Type.
Implicit Types (k : cont R) (s : str) (c : caps).

Lemma rep_sound (p : ascii -> bool) k (x : R) :
  forall s min c, rep p min k s c = Some x ->
  exists u s', s = u ++ s' /\ forallb p u = true /\ min <= List.length u /\
               k s' c = Some x.
Proof.
  induction s as [|a s IH]; intros min c H; simpl in H.
  - destruct (min =? 0) eqn:Hm; [|discriminate]. apply Nat.eqb_eq in Hm.
    exists [], []. repeat split; [simpl; lia | exact H].
  - assert (Hstop : (if min =? 0 then k (a :: s) c else None) = Some x ->
                    exists u s', a :: s = u ++ s' /\ forallb p u = true /\
                                 min <= List.length u /\ k s' c = Some x).
    { destruct (min =? 0) eqn:Hm; [|discriminate]. apply Nat.eqb_eq in Hm.
      intro Hk. exists [], (a :: s). repeat split; [simpl; lia | exact Hk]. }
    destruct (p a) eqn:Hpa; [|now apply Hstop].
    destruct (rep p (pred min) k s c) eqn:Hr; [|now apply Hstop].
    injection H as ->. destruct (IH _ _ Hr) as (u & s' & -> & Hu & Hlen & Hk).
    exists (a :: u), s'. split; [reflexivity|]. split; [simpl; now rewrite Hpa|].
    split; [simpl; lia | exact Hk].
Qed.

Lemma mt_sound (r : regex) (x : R) :
  forall k s c, mt r k s c = Some x ->
  exists u s' c', s = u ++ s' /\ lang r u /\ k s' c' = Some x.
Proof.
  induction r as [|p|r1 IH1 r2 IH2|r1 IH1 r2 IH2|min p|i r IH];
    intros k s c H; simpl in H.
  - now exists [], s, c.
  - destruct s as [|a s]; [discriminate|].
    destruct (p a) eqn:Hp; [|discriminate].
    exists [a], s, c. split; [reflexivity|]. split; [now exists a | exact H].
  - destruct (IH1 _ _ _ H) as (u1 & s1 & c1 & -> & L1 & H1).
    destruct (IH2 _ _ _ H1) as (u2 & s2 & c2 & -> & L2 & H2).
    exists (u1 ++ u2), s2, c2. split; [now rewrite app_assoc|].
    split; [now exists u1, u2 | exact H2].
  - destruct (mt r1 k s c) eqn:H1.
    + injection H as ->. destruct (IH1 _ _ _ H1) as (u & s' & c' & -> & L & Hk).
      exists u, s', c'. split; [reflexivity|]. split; [now left | exact Hk].
    + destruct (IH2 _ _ _ H) as (u & s' & c' & -> & L & Hk).
      exists u, s', c'. split; [reflexivity|]. split; [now right | exact Hk].
  - destruct (rep_sound _ _ _ _ _ H) as (u & s' & -> & Hu & Hlen & Hk).
    exists u, s', c. now repeat split.
  - destruct (IH _ _ _ H) as (u & s' & c' & -> & L & Hk).
    eexists u, s', _. split; [reflexivity|]. split; [exact L | exact Hk].
Qed.
End Sound.

Lemma lang_lit (t u : str) : lang (Lit t) u -> u = t.
Proof.
  revert u. induction t as [|a t IH]; intros u H; cbn [Lit lang] in H; [exact H|].
  destruct H as (u1 & u2 & -> & (b & -> & Hb) & H2).
  apply Ascii.eqb_eq in Hb. subst b. now rewrite (IH _ H2).
Qed.

Lemma re_match_sound (r : regex) (t : str) (c : caps) (rest : str) :
  re_match r t = Some (c, rest) -> exists u, t = u ++ rest /\ lang r u.
Proof.
  unfold re_match. intro H. apply mt_sound in H as (u & s' & c' & -> & L & [= _ <-]).
  now exists u.
Qed.

Lemma space_not_equals (a : ascii) : isspace a = true -> neq_char "=" a = true.
Proof.
  intro H. unfold neq_char. destruct (Ascii.eqb a "=") eqn:E; [|reflexivity].
  apply Ascii.eqb_eq in E. subst a. discriminate.
Qed.

(** Where the require pattern matches: the word, then text without
    [=], then [=], blanks, and the call. *)
Lemma require_match_inv (t : str) (x : caps * str) :
  re_match require_re t = Some x ->
  exists X w tail,
    t = "const" ++ X ++ "="%char :: w ++ "require('" ++ tail /\
    forallb (neq_char "=") X = true /\ forallb isspace w = true.
Proof.
  destruct x as [c rest]. intro H. apply re_match_sound in H as (u & -> & L).
  unfold require_re in L. cbn [cat fold_right lang] in L.
  destruct L as (u1 & r1 & -> & L1 & w1 & r2 & -> & [Hw1 _] & g & r3 & -> & [Hg _]
                 & w2 & r4 & -> & [Hw2 _] & u5 & r5 & -> & L5 & w3 & r6 & -> & [Hw3 _]
                 & u7 & r7 & -> & L7 & _).
  apply lang_lit in L1, L5, L7. subst u1 u5 u7.
  exists (w1 ++ g ++ w2), w3, (r7 ++ rest). split.
  - rewrite <- !app_assoc. reflexivity.
  - split; [|exact Hw3]. rewrite !forallb_app, Hg.
    assert (Hs : forall w, forallb isspace w = true -> forallb (neq_char "=") w = true).
    { intros w Hw. apply forallb_forall. intros a Ha.
      rewrite forallb_forall in Hw. now apply space_not_equals, Hw. }
    now rewrite (Hs _ Hw1), (Hs _ Hw2).
Qed.

(** ** Occurrences in a text made of two parts *)

Lemma first_occurrence {A} (a : A) (X u s R : list A) :
  u ++ s = X ++ a :: R -> ~ In a X -> In a u ->
  exists v, u = X ++ a :: v /\ R = v ++ s.
Proof.
  revert u. induction X as [|y X IH]; intros u Heq Hno Hin.
  - destruct u as [|b u]; [contradiction|].
    simpl in Heq. injection Heq as -> <-. now exists u.
  - destruct u as [|b u]; [contradiction|].
    simpl in Heq. injection Heq as -> Heq.
    destruct Hin as [-> | Hin]; [exfalso; apply Hno; now left|].
    destruct (IH u Heq) as (v & -> & ->); [intro; apply Hno; now right | exact Hin|].
    now exists v.
Qed.

(** A text that starts a two-part text starts its first part, or the
    first part is a proper beginning of it and the second part goes on. *)
Lemma startswith_app_cases (u r p : str) :
  startswith (u ++ r) p = true ->
  startswith u p = true \/
  exists p2, p = u ++ p2 /\ p2 <> [] /\ startswith r p2 = true.
Proof.
  revert u. induction p as [|a p IH]; intros u H; [now left|].
  destruct u as [|b u].
  - right. exists (a :: p). split; [reflexivity|]. split; [discriminate | exact H].
  - simpl in H. apply andb_true_iff in H as [Hab H].
    destruct (IH u H) as [Hu | (p2 & -> & Hne & Hr)].
    + left. simpl. now rewrite Hab.
    + right. apply Ascii.eqb_eq in Hab. subst b. exists p2. now repeat split.
Qed.

Lemma contains_suffix (x u p : str) : contains (x ++ u) p = false -> contains u p = false.
Proof.
  intro H. destruct (contains u p) eqn:Hu; [|reflexivity].
  now rewrite (contains_app_r x _ _ Hu) in H.
Qed.

Lemma contains_prefix (x u p : str) : contains (x ++ u) p = false -> contains x p = false.
Proof.
  intro H. destruct (contains x p) eqn:Hx; [|reflexivity].
  now rewrite (contains_app_l _ u _ Hx) in H.
Qed.

Lemma has_char_in (a : ascii) (t : str) : has_char a t = true <-> In a t.
Proof.
  unfold has_char. rewrite existsb_exists. split.
  - intros (b & Hin & Hb). apply Ascii.eqb_eq in Hb. now subst b.
  - intro H. exists a. split; [exact H | apply Ascii.eqb_refl].
Qed.

(** In a closed text every [const] has a [=] after it. *)
Lemma const_closed_after (x u : str) :
  const_closed (x ++ "const" ++ u) = true -> In "="%char u.
Proof.
  induction x as [|a x IH]; intro H.
  - simpl in H. apply andb_true_iff in H as [H _].
    apply existsb_exists in H as (b & Hin & Hb).
    apply Ascii.eqb_eq in Hb. now subst b.
  - simpl app in H. cbn [const_closed] in H. apply andb_true_iff in H as [_ H].
    now apply IH.
Qed.

Lemma app_split_at {A} (l l' p : list A) :
  l ++ l' = p ->
  l = firstn (List.length l) p /\ l' = skipn (List.length l) p /\
  List.length l <= List.length p.
Proof.
  intros <-. rewrite firstn_app, Nat.sub_diag, firstn_all, app_nil_r.
  rewrite skipn_app, Nat.sub_diag, skipn_all, length_app. simpl.
  repeat split; lia.
Qed.

(** In front of a statement, text that is closed for [const] and holds
    no [require('] gives the require pattern no place to match. *)
Lemma require_skips_plain (pre s : str) :
  const_closed pre = true -> contains pre "require('" = false -> stmt_head s ->
  forall x u, pre = x ++ u -> u <> [] -> re_match require_re (u ++ s) = None.
Proof.
  intros Hc Hr Hs x u -> Hu.
  destruct (re_match require_re (u ++ s)) as [m|] eqn:Hm; [exfalso | reflexivity].
  apply require_match_inv in Hm as (X & w & tail & Heq & HX & Hw).
  assert (Hhead : startswith (u ++ s) "const" = true).
  { rewrite Heq. apply startswith_iff. eexists. reflexivity. }
  apply startswith_app_cases in Hhead as [Hu5 | (p2 & Hp & Hne & Hsp)].
  2:{ symmetry in Hp. apply app_split_at in Hp as (Hu1 & Hp2 & Hlen).
      destruct u as [|a u]; [congruence|]. cbn [List.length] in *.
      destruct Hs as [[s' ->] | [s' ->]];
        destruct (List.length u) as [|[|[|[|[|n]]]]]; cbn in Hp2; subst p2;
        try discriminate; try (simpl in Hlen; lia); congruence. }
  apply startswith_iff in Hu5 as [u' ->].
  assert (Hin : In "="%char u').
  { apply (const_closed_after x). exact Hc. }
  assert (HnoX : ~ In "="%char X).
  { intro HinX. rewrite forallb_forall in HX. specialize (HX _ HinX).
    unfold neq_char in HX. now rewrite Ascii.eqb_refl in HX. }
  rewrite <- app_assoc in Heq. apply app_inv_head in Heq.
  destruct (@first_occurrence _ "="%char X u' s _ Heq HnoX Hin) as (v & -> & Hrest).
  assert (Hv : contains v "require('" = false).
  { replace (x ++ "const" ++ X ++ "="%char :: v)
      with ((x ++ "const" ++ X ++ ["="%char]) ++ v) in Hr
      by (rewrite <- !app_assoc; reflexivity).
    exact (@contains_suffix _ _ _ Hr). }
  symmetry in Hrest. apply app_eq_app in Hrest as [l [[Hvw Hl] | [Hwv Hl]]].
  - apply app_eq_app in Hl as [l' [[Hp Hs'] | [Hp Hs']]].
    + (* the call straddles the two parts *)
      symmetry in Hp. apply app_split_at in Hp as (Hl1 & Hl2 & Hlen).
      destruct Hs as [[s' ->] | [s' ->]];
        destruct (List.length l) as [|[|[|[|[|[|[|[|[|[|n]]]]]]]]]] eqn:Hn;
        cbn in Hl1, Hl2; subst l l'; simpl in Hs'; try discriminate Hs';
        try (simpl in Hlen; lia);
        subst v; (rewrite contains_app_r in Hv; [discriminate | reflexivity]).
    + subst l v. rewrite contains_app_r in Hv; [discriminate|].
      apply contains_app_l. reflexivity.
  - destruct l as [|a l].
    + simpl in Hl. destruct Hs as [[s' ->] | [s' ->]]; discriminate.
    + subst w. rewrite forallb_app in Hw. apply andb_true_iff in Hw as [_ Hw].
      simpl in Hw. apply andb_true_iff in Hw as [Ha _].
      destruct Hs as [[s' ->] | [s' ->]]; simpl in Hl; injection Hl as <- _; discriminate.
Qed.

(** Text in which the pattern matches nowhere, whatever follows it,
    is copied and the scan goes on behind it. *)
Lemma sub_scan_plain (r : regex) (tpl : list tpl_item) (pre s : str) :
  (forall x u, pre = x ++ u -> u <> [] -> re_match r (u ++ s) = None) ->
  sub_scan r tpl 0 (pre ++ s) = pre ++ sub_scan r tpl 0 s.
Proof.
  induction pre as [|a pre IH]; intro H; [reflexivity|].
  pose proof (H [] (a :: pre) eq_refl ltac:(discriminate)) as H0.
  simpl app in *. cbn [sub_scan]. rewrite H0.
  rewrite IH; [reflexivity|].
  intros x u -> Hu. apply (H (a :: x) u); [reflexivity | exact Hu].
Qed.

Lemma import_match_head (t : str) (x : caps * str) :
  re_match import_re t = Some x -> startswith t "import" = true.
Proof.
  unfold re_match, import_re. rewrite mt_cat_cons. intro H.
  apply mt_lit_inv in H as (rest & -> & _). apply startswith_iff. now exists rest.
Qed.

Lemma require_match_head (t : str) (x : caps * str) :
  re_match require_re t = Some x -> startswith t "const" = true.
Proof.
  unfold re_match, require_re. rewrite mt_cat_cons. intro H.
  apply mt_lit_inv in H as (rest & -> & _). apply startswith_iff. now exists rest.
Qed.

(** In front of a statement or of a comment, text without [import]
    gives the import pattern no place to match. *)
Lemma import_skips_plain (pre s : str) :
  contains pre "import" = false ->
  (exists s', s = "//" ++ s') \/ (exists s', s = "import " ++ s') ->
  forall x u, pre = x ++ u -> u <> [] -> re_match import_re (u ++ s) = None.
Proof.
  intros Hc Hs x u -> Hu.
  destruct (re_match import_re (u ++ s)) as [m|] eqn:Hm; [exfalso | reflexivity].
  apply import_match_head in Hm.
  apply startswith_app_cases in Hm as [Hu6 | (p2 & Hp & Hne & Hsp)].
  - apply startswith_contains in Hu6. apply contains_suffix in Hc. congruence.
  - symmetry in Hp. apply app_split_at in Hp as (Hu1 & Hp2 & Hlen).
    destruct u as [|a u]; [congruence|]. cbn [List.length] in *.
    destruct Hs as [[s' ->] | [s' ->]];
      destruct (List.length u) as [|[|[|[|[|[|n]]]]]]; cbn in Hp2; subst p2;
      try discriminate; try (simpl in Hlen; lia); congruence.
Qed.

Lemma forallb_not_in (a : ascii) (t : str) :
  forallb (fun c => negb (Ascii.eqb c a)) t = true -> ~ In a t.
Proof.
  intros H Hin. rewrite forallb_forall in H. specialize (H _ Hin).
  now rewrite Ascii.eqb_refl in H.
Qed.

Lemma forallb_weaken (p q : ascii -> bool) (t : str) :
  (forall a, p a = true -> q a = true) -> forallb p t = true -> forallb q t = true.
Proof.
  intros Hpq H. apply forallb_forall. intros a Ha.
  rewrite forallb_forall in H. now apply Hpq, H.
Qed.

(** Where the import pattern matches: the match ends with a quote and
    the first semicolon of the text. *)
Lemma import_match_inv (t : str) (c : caps) (rest : str) :
  re_match import_re t = Some (c, rest) ->
  exists A q, t = A ++ q :: ";"%char :: rest /\ isquote q = true /\
              ~ In ";"%char (A ++ [q]).
Proof.
  intro H. apply re_match_sound in H as (u & -> & L).
  unfold import_re in L. cbn [cat fold_right lang] in L.
  destruct L as (u1 & r1 & -> & L1 & w1 & r2 & -> & [Hw1 _] & b & r3 & -> & [Hb _]
                 & w2 & r4 & -> & [Hw2 _] & u5 & r5 & -> & L5 & w3 & r6 & -> & [Hw3 _]
                 & u7 & r7 & -> & (q1 & -> & Hq1) & m & r8 & -> & Lm
                 & u9 & r9 & -> & (q2 & -> & Hq2) & u10 & r10 & -> & L10 & ->).
  apply lang_lit in L1, L5, L10. subst u1 u5 u10.
  exists ("import" ++ w1 ++ b ++ w2 ++ "from" ++ w3 ++ [q1] ++ m), q2.
  split; [rewrite <- !app_assoc; reflexivity|]. split; [exact Hq2|].
  apply forallb_not_in.
  assert (Hs : forall w, forallb isspace w = true ->
                         forallb (fun c => negb (Ascii.eqb c ";")) w = true).
  { intro w. apply forallb_weaken. intros a Ha.
    destruct (Ascii.eqb a ";") eqn:E; [|reflexivity].
    apply Ascii.eqb_eq in E. subst a. discriminate. }
  assert (Hq : forall q, isquote q = true -> negb (Ascii.eqb q ";") = true).
  { intros q Hq. destruct (Ascii.eqb q ";") eqn:E; [|reflexivity].
    apply Ascii.eqb_eq in E. subst q. discriminate. }
  assert (Hm : forallb (fun c => negb (Ascii.eqb c ";")) m = true).
  { destruct Lm as [Lm | [Lm | [Lm | Lm]]]; apply lang_lit in Lm; subst m; reflexivity. }
  rewrite !forallb_app, (Hs _ Hw1), (Hs _ Hw2), (Hs _ Hw3), Hm.
  cbn [forallb]. rewrite (Hq _ Hq1), (Hq _ Hq2).
  replace (forallb (fun c => negb (Ascii.eqb c ";")) b) with true; [reflexivity|].
  symmetry. revert Hb. apply forallb_weaken. intros a Ha.
  now apply andb_true_iff in Ha as [Ha _].
Qed.

Lemma quote_semi_here (A : str) (q : ascii) (v : str) :
  isquote q = true -> quote_semi (A ++ q :: ";"%char :: v) = true.
Proof.
  intro Hq. apply quote_semi_app_r. cbn [quote_semi]. now rewrite Hq.
Qed.

Lemma commented_shape (names module : str) :
  commented_require names module
  = ("// const " ++ names ++ " = require(" ++ [dquote] ++ module ++ [dquote] ++ ")")
    ++ ";"%char :: comment_tail.
Proof. unfold commented_require. rewrite <- !app_assoc. reflexivity. Qed.

(** A part of the comment written for a statement is no place for the
    import pattern to match, whatever follows the comment. *)
Lemma import_skips_comment (names module rest : str) :
  js_names names = true -> js_module module = true ->
  forall x u, commented_require (names ++ [" "%char]) module = x ++ u -> u <> [] ->
              re_match import_re (u ++ rest) = None.
Proof.
  intros Hn Hm x u HC Hu.
  destruct (re_match import_re (u ++ rest)) as [[c after]|] eqn:Hmatch;
    [exfalso | reflexivity].
  pose proof (import_match_head _ Hmatch) as Hhead.
  apply import_match_inv in Hmatch as (A & q & Heq & Hq & Hno).
  destruct (in_dec ascii_dec ";"%char u) as [Hin | Hout].
  - replace (A ++ q :: ";"%char :: after) with ((A ++ [q]) ++ ";"%char :: after) in Heq
      by (rewrite <- app_assoc; reflexivity).
    destruct (@first_occurrence _ ";"%char (A ++ [q]) u rest _ Heq Hno Hin) as (v & -> & _).
    pose proof (@commented_no_quote_semi names module Hn Hm) as Hc.
    rewrite HC in Hc. rewrite quote_semi_app_r in Hc; [discriminate|].
    rewrite <- app_assoc. now apply quote_semi_here.
  - rewrite commented_shape in HC. symmetry in HC.
    apply app_eq_app in HC as [l [[Hx Ht] | [Hx Ht]]].
    + (* [u] lies in the tail of the comment *)
      destruct l as [|a l]; [simpl in Ht; subst u; apply Hout; now left|].
      simpl in Ht. injection Ht as <- Ht.
      apply startswith_app_cases in Hhead as [Hu6 | (p2 & Hp & Hne & _)].
      * apply startswith_contains in Hu6.
        assert (Hc : contains comment_tail "import" = true)
          by (rewrite Ht; now apply contains_app_r).
        discriminate.
      * apply (f_equal (@rev ascii)) in Ht. rewrite rev_app_distr in Ht.
        symmetry in Hp. apply app_split_at in Hp as (Hu1 & _ & Hlen).
        destruct u as [|a0 u]; [congruence|]. cbn [List.length] in *.
        destruct (List.length u) as [|[|[|[|[|[|n]]]]]]; cbn in Hu1;
          try (simpl in Hlen; lia);
          rewrite Hu1 in Ht; discriminate.
    + (* [u] reaches the semicolon of the comment *)
      apply Hout. rewrite Ht. apply in_or_app. right. now left.
Qed.

Lemma head_differs (p : str) (a b : ascii) (u rest : str) :
  a <> b -> startswith ((b :: u) ++ rest) (a :: p) = false.
Proof. intro H. simpl. now rewrite (ascii_eqb_false H). Qed.

Lemma suffix_head_in {A} (x u t : list A) :
  t = x ++ u -> u <> [] -> exists a u', u = a :: u' /\ In a t.
Proof.
  intros -> Hu. destruct u as [|a u']; [congruence|].
  exists a, u'. split; [reflexivity|]. apply in_or_app. right. now left.
Qed.

Lemma import_tail_no_c (q1 q2 : ascii) (module : str) :
  isquote q1 = true -> isquote q2 = true -> In module server_modules ->
  ~ In "c"%char (" from " ++ [q1] ++ module ++ [q2] ++ ";").
Proof.
  intros Hq1 Hq2 Hm.
  destruct (isquote_inv _ Hq1) as [-> | ->], (isquote_inv _ Hq2) as [-> | ->];
    simpl in Hm; destruct Hm as [<- | [<- | [<- | [<- | []]]]];
    intro Hin; simpl in Hin; intuition discriminate.
Qed.

(** A part of a server import statement is no place for the require
    pattern to match, whatever follows the statement, when the binding
    does not hold the word [const]. *)
Lemma require_skips_import (binding : str) (q1 q2 : ascii) (module rest : str) :
  contains binding "const" = false ->
  isquote q1 = true -> isquote q2 = true -> In module server_modules ->
  forall x u, import_stmt binding q1 module q2 = x ++ u -> u <> [] ->
              re_match require_re (u ++ rest) = None.
Proof.
  intros Hb Hq1 Hq2 Hm x u Himp Hu.
  destruct (re_match require_re (u ++ rest)) as [m|] eqn:Hmatch; [exfalso | reflexivity].
  apply require_match_head in Hmatch.
  pose proof (import_tail_no_c _ Hq1 Hq2 Hm) as Htail.
  assert (Hshape : import_stmt binding q1 module q2
                   = "import " ++ binding ++ (" from " ++ [q1] ++ module ++ [q2] ++ ";"))
    by reflexivity.
  rewrite Hshape in Himp. clear Hshape.
  remember (" from " ++ [q1] ++ module ++ [q2] ++ ";") as T eqn:HT0.
  assert (HTh : exists T', T = " "%char :: T') by (subst T; now eexists).
  clear HT0.
  assert (HT : forall y v, T = y ++ v -> v <> [] ->
                           startswith (v ++ rest) "const" = false).
  { intros y v Hy Hv. destruct (@suffix_head_in _ y v T Hy Hv) as (a & v' & -> & Ha).
    apply head_differs. intros <-. contradiction. }
  assert (HB : forall y v, binding = y ++ v -> v <> [] ->
                           startswith ((v ++ T) ++ rest) "const" = false).
  { intros y v Hy Hv.
    destruct (startswith ((v ++ T) ++ rest) "const") eqn:Hsw; [exfalso | reflexivity].
    rewrite <- app_assoc in Hsw.
    apply startswith_app_cases in Hsw as [Hv5 | (p2 & Hp & Hne & Hsp)].
    - apply startswith_contains in Hv5. rewrite Hy in Hb.
      apply contains_suffix in Hb. congruence.
    - symmetry in Hp. apply app_split_at in Hp as (Hv1 & Hp2 & Hlen).
      destruct v as [|a v]; [congruence|]. cbn [List.length] in *.
      destruct HTh as [T' ->].
      destruct (List.length v) as [|[|[|[|[|n]]]]]; cbn in Hp2; subst p2;
        try discriminate; try (simpl in Hlen; lia); congruence. }
  symmetry in Himp. apply app_eq_app in Himp as [l [[Hx Hl] | [Hx Hl]]].
  - symmetry in Hl. apply app_eq_app in Hl as [l2 [[Hl1 Hl2] | [Hl1 Hl2]]].
    + (* [u] starts in the tail of the statement *)
      rewrite (HT _ _ Hl2 Hu) in Hmatch. discriminate.
    + (* [u] starts in the binding *)
      subst u. destruct l2 as [|a l2].
      * simpl app in *. rewrite (HT [] T eq_refl Hu) in Hmatch. discriminate.
      * rewrite (HB l (a :: l2) Hl1) in Hmatch; [discriminate | discriminate].
  - (* [u] starts in the word [import] *)
    subst u. destruct l as [|a l].
    + simpl app in *. destruct binding as [|b0 binding].
      * simpl app in *. rewrite (HT [] T eq_refl Hu) in Hmatch. discriminate.
      * rewrite (HB [] (b0 :: binding) eq_refl) in Hmatch; [discriminate | discriminate].
    + symmetry in Hx. apply app_split_at in Hx as (_ & Hl & Hlen).
      destruct (List.length x) as [|[|[|[|[|[|[|[|n]]]]]]]]; cbn in Hl;
        try (simpl in Hlen; lia); try discriminate Hl;
        injection Hl as -> ->; discriminate Hmatch.
Qed.

Lemma import_tail_match_rest (q1 q2 : ascii) (module rest : str) :
  isquote q1 = true -> isquote q2 = true -> In module server_modules ->
  mt (cat [ Rep 1 isspace; Lit "from"; Rep 1 isspace; Chr isquote;
            Group 1 (Alt (Lit "fs") (Alt (Lit "path") (Alt (Lit "http") (Lit "module"))));
            Chr isquote; Lit ";" ])
     (fun s' c => Some (c, s'))
     (" from " ++ [q1] ++ module ++ [q2] ++ ";" ++ rest) []
  <> None.
Proof.
  intros Hq1 Hq2 Hm.
  destruct (isquote_inv _ Hq1) as [-> | ->], (isquote_inv _ Hq2) as [-> | ->];
    simpl in Hm; destruct Hm as [<- | [<- | [<- | [<- | []]]]];
    cbn; discriminate.
Qed.

Lemma first_semicolon {A} (a : A) (X Y R S : list A) :
  X ++ a :: R = Y ++ a :: S -> ~ In a X -> ~ In a Y -> R = S.
Proof.
  revert Y. induction X as [|x X IH]; intros Y H HX HY.
  - destruct Y as [|y Y]; simpl in H.
    + now injection H.
    + injection H as <- _. exfalso. apply HY. now left.
  - destruct Y as [|y Y]; simpl in H.
    + injection H as -> _. exfalso. apply HX. now left.
    + injection H as _ H. apply (IH Y H).
      * intro Hin. apply HX. now right.
      * intro Hin. apply HY. now right.
Qed.

(** The import pattern matches a server import statement at the head of
    a longer text and stops right after it. *)
Lemma import_stmt_match_rest (binding : str) (q1 q2 : ascii) (module rest : str) :
  js_binding binding = true -> isquote q1 = true -> isquote q2 = true ->
  In module server_modules ->
  exists c, re_match import_re (import_stmt binding q1 module q2 ++ rest) = Some (c, rest).
Proof.
  intros Hb Hq1 Hq2 Hm.
  destruct (js_binding_inv _ Hb) as (Hne & Hcls & Hsemi & _).
  assert (Hshape : import_stmt binding q1 module q2 ++ rest
                   = "import" ++ [" "%char] ++ binding
                     ++ (" from " ++ [q1] ++ module ++ [q2] ++ ";" ++ rest)).
  { unfold import_stmt. rewrite <- !app_assoc. reflexivity. }
  destruct (re_match import_re (import_stmt binding q1 module q2 ++ rest))
    as [[c after]|] eqn:Hrun.
  - exists c. f_equal. f_equal.
    apply import_match_inv in Hrun as (A & q & Heq & Hq & Hno).
    assert (Himp : import_stmt binding q1 module q2 ++ rest
                   = ("import " ++ binding ++ " from " ++ [q1] ++ module ++ [q2])
                     ++ ";"%char :: rest).
    { unfold import_stmt. rewrite <- !app_assoc. reflexivity. }
    rewrite Himp in Heq.
    replace (A ++ q :: ";"%char :: after) with ((A ++ [q]) ++ ";"%char :: after) in Heq
      by (rewrite <- app_assoc; reflexivity).
    symmetry. apply (@first_semicolon _ ";"%char _ _ _ _ Heq); [|exact Hno].
    intro Hin. repeat (apply in_app_or in Hin as [Hin | Hin]).
    + not_in_literal Hin.
    + contradiction.
    + not_in_literal Hin.
    + destruct (isquote_inv _ Hq1) as [-> | ->]; not_in_literal Hin.
    + simpl in Hm. destruct Hm as [<- | [<- | [<- | [<- | []]]]];
        not_in_literal Hin.
    + destruct (isquote_inv _ Hq2) as [-> | ->]; not_in_literal Hin.
  - exfalso. revert Hrun. rewrite Hshape. unfold re_match, import_re.
    rewrite mt_cat_cons, mt_lit. rewrite mt_cat_cons. cbn [mt].
    apply rep_complete; [reflexivity | | simpl; lia].
    rewrite mt_cat_cons. cbn [mt].
    apply rep_complete; [exact Hcls | | destruct binding; [congruence | simpl; lia]].
    now apply import_tail_match_rest.
Qed.

Lemma plain_before_inv (pre : str) :
  plain_before pre = true ->
  const_closed pre = true /\ contains pre "require('" = false /\
  contains pre "import" = false.
Proof.
  unfold plain_before. intro H. apply andb_true_iff in H as [H H3].
  apply andb_true_iff in H as [H1 H2].
  now rewrite negb_true_iff in H2, H3.
Qed.

(** A require statement behind plain text: the text stays, the
    statement becomes its comment, and what follows is sanitized as if
    it stood alone. *)
Lemma require_in_context (pre names module post : str) :
  plain_before pre = true -> js_names names = true -> js_module module = true ->
  clean_js_code (pre ++ require_stmt names module ++ post)
  = pre ++ commented_require (names ++ [" "%char]) module ++ clean_js_code post.
Proof.
  intros Hpre Hn Hm. apply plain_before_inv in Hpre as (Hc & Hr & Hi).
  unfold clean_js_code, re_sub.
  rewrite (@sub_scan_plain require_re require_repl pre (require_stmt names module ++ post)).
  2:{ apply require_skips_plain; [exact Hc | exact Hr|].
      left. exists (names ++ " = require('" ++ module ++ "');" ++ post).
      unfold require_stmt. rewrite <- !app_assoc. reflexivity. }
  pose proof (@require_stmt_match_rest names module post Hn Hm) as Hmatch.
  change (require_stmt names module)
    with ("c"%char :: ("onst " ++ names ++ " = require('" ++ module ++ "');")) in Hmatch |- *.
  rewrite (@sub_scan_match require_re require_repl _ _ _ _ Hmatch).
  rewrite expand_require.
  rewrite (@sub_scan_plain import_re import_repl pre).
  2:{ apply import_skips_plain; [exact Hi|]. left.
      eexists. unfold commented_require. rewrite <- !app_assoc. reflexivity. }
  rewrite (@sub_scan_plain import_re import_repl
             (commented_require (names ++ [" "%char]) module)).
  2:{ intros x u. now apply import_skips_comment. }
  reflexivity.
Qed.

(** A server import statement behind plain text: the text stays, the
    statement becomes the marker, and what follows is sanitized as if it
    stood alone. *)
Lemma import_in_context (pre binding : str) (q1 q2 : ascii) (module post : str) :
  plain_before pre = true -> js_binding binding = true ->
  contains binding "const" = false ->
  isquote q1 = true -> isquote q2 = true -> In module server_modules ->
  clean_js_code (pre ++ import_stmt binding q1 module q2 ++ post)
  = pre ++ import_marker ++ clean_js_code post.
Proof.
  intros Hpre Hb Hbc Hq1 Hq2 Hm. apply plain_before_inv in Hpre as (Hc & Hr & Hi).
  assert (Hhead : forall rest, exists s',
             import_stmt binding q1 module q2 ++ rest = "import " ++ s').
  { intro rest. eexists. unfold import_stmt. rewrite <- !app_assoc. reflexivity. }
  unfold clean_js_code, re_sub.
  rewrite (@sub_scan_plain require_re require_repl pre).
  2:{ apply require_skips_plain; [exact Hc | exact Hr|]. right. apply Hhead. }
  rewrite (@sub_scan_plain require_re require_repl (import_stmt binding q1 module q2)).
  2:{ intros x u. now apply require_skips_import. }
  rewrite (@sub_scan_plain import_re import_repl pre).
  2:{ apply import_skips_plain; [exact Hi|]. right. apply Hhead. }
  destruct (@import_stmt_match_rest binding q1 q2 module
              (sub_scan require_re require_repl 0 post) Hb Hq1 Hq2 Hm) as [c Hmatch].
  change (import_stmt binding q1 module q2)
    with ("i"%char :: ("mport " ++ binding ++ " from " ++ [q1] ++ module ++ [q2] ++ ";"))
    in Hmatch |- *.
  rewrite (@sub_scan_match import_re import_repl _ _ _ _ Hmatch).
  reflexivity.
Qed.

Lemma code_part_prefix (h q : str) :
  startswith (code_part h) q = true -> startswith h q = true.
Proof.
  revert q. induction h as [|c h IH]; intros q H; [exact H|].
  cbn [code_part] in H. destruct (startswith (c :: h) "//").
  - destruct q; [reflexivity | discriminate].
  - destruct q as [|b q]; [reflexivity|].
    simpl in *. apply andb_true_iff in H as [Hb H].
    now rewrite Hb, (IH _ H).
Qed.

Lemma unsanitized_lines (js : str) :
  unsanitized_require js
  = existsb (fun line => contains (code_part line) "require(") (lines js).
Proof. reflexivity. Qed.

(** Text without a call site in front of a text without an
    unsanitized call site. *)
Lemma unsanitized_after_plain (pre Y : str) :
  (forall x u, pre = x ++ u -> startswith (u ++ Y) "require(" = false) ->
  unsanitized_require Y = false ->
  unsanitized_require (pre ++ Y) = false.
Proof.
  intros Hpre HY. rewrite unsanitized_lines in *.
  assert (H : exists h t,
             lines (pre ++ Y) = h :: t /\
             contains (code_part h) "require(" = false /\
             existsb (fun line => contains (code_part line) "require(") t = false).
  { induction pre as [|a pre IH].
    - simpl app. destruct (lines Y) as [|h t] eqn:HL; [now apply lines_not_nil in HL|].
      cbn [existsb] in HY. apply orb_false_iff in HY as [Hh Ht]. now exists h, t.
    - destruct IH as (h' & t' & HL & Hh & Ht).
      { intros x u -> . apply (Hpre (a :: x) u). reflexivity. }
      simpl app. rewrite lines_cons, HL. destruct (Ascii.eqb a newline).
      + exists [], (h' :: t'). split; [reflexivity|]. split; [reflexivity|].
        cbn [existsb]. now rewrite Hh, Ht.
      + exists (a :: h'), t'. split; [reflexivity|]. split; [|exact Ht].
        cbn [code_part]. destruct (startswith (a :: h') "//"); [reflexivity|].
        cbn [contains]. rewrite Hh, orb_false_r.
        destruct (startswith (a :: code_part h') "require(") eqn:Hs; [exfalso | reflexivity].
        assert (Hs' : startswith (a :: h') "require(" = true).
        { simpl in Hs |- *. apply andb_true_iff in Hs as [Ha Hs].
          rewrite Ha. cbn [andb].
          exact (@code_part_prefix h' "equire(" Hs). }
        destruct (split_head_prefix [newline] None (pre ++ Y)) as (rest & Hrest).
        fold (lines (pre ++ Y)) in Hrest. rewrite HL in Hrest. cbn [hd] in Hrest.
        apply (startswith_app _ rest) in Hs'. simpl app in Hs'. rewrite <- Hrest in Hs'.
        pose proof (Hpre [] (a :: pre) eq_refl) as Hno. simpl app in Hno. congruence. }
  destruct H as (h & t & -> & Hh & Ht). cbn [existsb]. now rewrite Hh, Ht.
Qed.

Lemma lines_app_line (C X : str) :
  ~ In newline C ->
  lines (C ++ X)
  = match lines X with
    | h :: t => (C ++ h) :: t
    | [] => [C]
    end.
Proof.
  induction C as [|a C IH]; intro HC.
  - simpl app. destruct (lines X) as [|h t] eqn:HL; [now apply lines_not_nil in HL|].
    reflexivity.
  - simpl app. rewrite lines_cons.
    destruct (Ascii.eqb a newline) eqn:Ha.
    { apply Ascii.eqb_eq in Ha. subst a. exfalso. apply HC. now left. }
    rewrite IH by (intro; apply HC; now right).
    destruct (lines X) as [|h t]; reflexivity.
Qed.

(** A one-line comment in front of a text without an unsanitized call
    site. *)
Lemma unsanitized_after_comment (C X : str) :
  ~ In newline C -> startswith C "//" = true ->
  unsanitized_require X = false -> unsanitized_require (C ++ X) = false.
Proof.
  intros HC Hsl HX. rewrite unsanitized_lines in *.
  rewrite (@lines_app_line C X HC).
  destruct (lines X) as [|h t] eqn:HL; [now apply lines_not_nil in HL|].
  cbn [existsb] in *. apply orb_false_iff in HX as [_ Ht]. rewrite Ht, orb_false_r.
  apply startswith_iff in Hsl as [C' ->].
  reflexivity.
Qed.

Lemma no_call_no_start (pre Y : str) :
  contains pre "require(" = false ->
  (Y = [] \/ exists Y', Y = "//" ++ Y') ->
  forall x u, pre = x ++ u -> startswith (u ++ Y) "require(" = false.
Proof.
  intros Hpre HY x u ->.
  destruct (startswith (u ++ Y) "require(") eqn:Hs; [exfalso | reflexivity].
  apply startswith_app_cases in Hs as [Hu | (p2 & Hp & Hne & Hsp)].
  - apply startswith_contains in Hu. apply contains_suffix in Hpre. congruence.
  - symmetry in Hp. apply app_split_at in Hp as (_ & Hp2 & Hlen).
    destruct HY as [-> | [Y' ->]].
    + destruct p2; [congruence | discriminate].
    + destruct (List.length u) as [|[|[|[|[|[|[|[|[|n]]]]]]]]]; cbn in Hp2; subst p2;
        try discriminate; try (simpl in Hlen; lia); congruence.
Qed.

Lemma unsanitized_plain (t : str) :
  contains t "require(" = false -> unsanitized_require t = false.
Proof.
  intro H. rewrite <- (app_nil_r t). apply unsanitized_after_plain; [|reflexivity].
  apply no_call_no_start; [exact H | now left].
Qed.

Lemma contains_weaken_call (t : str) :
  contains t "require(" = false -> contains t "require('" = false.
Proof.
  intro H. destruct (contains t "require('") eqn:Hc; [exfalso | reflexivity].
  induction t as [|a t IH].
  - discriminate.
  - cbn [contains] in H, Hc. apply orb_false_iff in H as [Hs Ht].
    apply orb_true_iff in Hc as [Hc | Hc]; [|now apply IH].
    apply startswith_iff in Hc as [post Hc]. rewrite Hc in Hs. discriminate.
Qed.

Lemma covered_block_inv (pre : str) (st : statement) :
  covered_block (pre, st) = true ->
  plain_before pre = true /\ contains pre "require(" = false /\
  covered_statement st = true.
Proof.
  unfold covered_block. intro H. apply andb_true_iff in H as [H H3].
  apply andb_true_iff in H as [H1 H2].
  now rewrite negb_true_iff in H2.
Qed.

Lemma covered_import_inv (binding : str) (q1 : ascii) (module : str) (q2 : ascii) :
  covered_statement (ImportStmt binding q1 module q2) = true ->
  js_binding binding = true /\ contains binding "const" = false /\
  isquote q1 = true /\ isquote q2 = true /\ In module server_modules.
Proof.
  cbn [covered_statement]. intro H. apply andb_true_iff in H as [H H5].
  apply andb_true_iff in H as [H H4]. apply andb_true_iff in H as [H H3].
  apply andb_true_iff in H as [H1 H2]. rewrite negb_true_iff in H2.
  apply existsb_exists in H5 as (m & Hin & Hm). apply str_eqb_eq in Hm. subst m.
  now repeat split.
Qed.

(** A covered statement behind plain text: the text stays, the
    statement becomes its comment, and what follows is sanitized as if
    it stood alone. *)
Lemma statement_in_context (pre : str) (st : statement) (post : str) :
  plain_before pre = true -> covered_statement st = true ->
  clean_js_code (pre ++ statement_text st ++ post)
  = pre ++ statement_cleaned st ++ clean_js_code post.
Proof.
  intros Hpre Hst. destruct st as [names module | binding q1 module q2].
  - cbn [covered_statement] in Hst. apply andb_true_iff in Hst as [Hn Hm].
    now apply require_in_context.
  - apply covered_import_inv in Hst as (Hb & Hc & Hq1 & Hq2 & Hm).
    now apply import_in_context.
Qed.

(** What a covered statement becomes is one comment line. *)
Lemma statement_cleaned_comment (st : statement) :
  covered_statement st = true ->
  startswith (statement_cleaned st) "//" = true /\
  ~ In newline (statement_cleaned st) /\
  exists rest, statement_cleaned st = "//" ++ rest.
Proof.
  intro Hst. destruct st as [names module | binding q1 module q2].
  - cbn [covered_statement] in Hst. apply andb_true_iff in Hst as [Hn Hm].
    destruct (@commented_is_comment names module Hn Hm) as (Hsl & _ & _).
    split; [exact Hsl|]. split; [now apply commented_one_line|].
    eexists. cbn [statement_cleaned]. unfold commented_require.
    rewrite <- !app_assoc. reflexivity.
  - split; [reflexivity|]. split.
    + intro H. apply has_char_in in H. vm_compute in H. discriminate.
    + eexists. reflexivity.
Qed.

(** A script all of whose call sites and imports are statements of the
    covered forms is rewritten statement by statement, and the result
    has no call site outside a comment. *)
Lemma covered_script_cleaned (blocks : list (str * statement)) (tail : str) :
  covered blocks tail = true ->
  clean_js_code (script_of blocks tail) = cleaned_of blocks tail /\
  unsanitized_require (cleaned_of blocks tail) = false.
Proof.
  unfold covered. intro H. apply andb_true_iff in H as [H Himp].
  apply andb_true_iff in H as [Hblocks Hreq].
  rewrite negb_true_iff in Himp, Hreq.
  induction blocks as [|[pre st] blocks IH].
  - cbn [script_of cleaned_of]. split; [|now apply unsanitized_plain].
    apply clean_js_code_identity.
    + apply (re_found_contains require_re "require('");
        [apply require_match_call | now apply contains_weaken_call].
    + apply (re_found_contains import_re "import"); [apply import_match_keyword | exact Himp].
  - cbn [forallb] in Hblocks. apply andb_true_iff in Hblocks as [Hb Hblocks].
    apply covered_block_inv in Hb as (Hpre & Hcall & Hst).
    destruct (IH Hblocks) as [IH1 IH2].
    cbn [script_of cleaned_of]. split.
    + rewrite (@statement_in_context pre st _ Hpre Hst). now rewrite IH1.
    + destruct (@statement_cleaned_comment st Hst) as (Hsl & Hline & rest & Hrest).
      apply unsanitized_after_plain.
      * apply no_call_no_start; [exact Hcall|]. right.
        exists (rest ++ cleaned_of blocks tail). rewrite Hrest.
        rewrite <- app_assoc. reflexivity.
      * now apply unsanitized_after_comment.
Qed.

(** C4, as amended: the transform is a function of the script text.  A
    statement [const <names> = require('<module>');] that stands behind
    plain text (text in which every [const] is followed by a [=] and
    that holds neither [require('] nor [import]) is rewritten where it
    stands to one comment line that keeps the names and the module
    path, the path now between double quotes; the text in front of it
    stays as it is and the text behind it is sanitized as if it stood
    alone.  An [import <binding> from '<module>';] statement that ends
    in a semicolon, names one of [fs], [path], [http], [module] and
    whose binding does not hold [const] becomes, behind plain text, the
    marker comment in the same way; standing alone it becomes the
    marker whatever it binds.  A text in which neither pattern matches
    is returned unchanged. *)
Theorem sanitization_patterns :
  (forall pre names module post,
      plain_before pre = true -> js_names names = true -> js_module module = true ->
      clean_js_code (pre ++ require_stmt names module ++ post)
      = pre ++ commented_require (names ++ [" "%char]) module ++ clean_js_code post /\
      startswith (commented_require (names ++ [" "%char]) module) "//" = true /\
      has_char newline (commented_require (names ++ [" "%char]) module) = false)
  /\
  (forall pre binding q1 q2 module post,
      plain_before pre = true -> js_binding binding = true ->
      contains binding "const" = false ->
      isquote q1 = true -> isquote q2 = true -> In module server_modules ->
      clean_js_code (pre ++ import_stmt binding q1 module q2 ++ post)
      = pre ++ import_marker ++ clean_js_code post)
  /\
  (forall binding q1 q2 module,
      js_binding binding = true -> isquote q1 = true -> isquote q2 = true ->
      In module server_modules ->
      clean_js_code (import_stmt binding q1 module q2) = import_marker)
  /\
  (forall code,
      re_found require_re code = false -> re_found import_re code = false ->
      clean_js_code code = code)
  /\
  clean_js_code "const fs = require('fs');"
  = "// const fs  = require(" ++ [dquote] ++ "fs" ++ [dquote]
    ++ "); // Commented out for browser compatibility"
  /\
  clean_js_code "import x from 'path';" = "// Server-side import removed for browser"
  /\
  clean_js_code "let total = 0;" = "let total = 0;"
  /\
  clean_js_code sample_script
  = "let x = 1;" ++ [newline]
    ++ "// const fs  = require(" ++ [dquote] ++ "fs" ++ [dquote]
    ++ "); // Commented out for browser compatibility" ++ [newline]
    ++ "// Server-side import removed for browser" ++ [newline]
    ++ "run();".
Proof.
  split; [|split; [|split; [|split; [|split; [|split; [|split]]]]]].
  - intros pre names module post Hpre Hn Hm.
    rewrite (@require_in_context pre names module post Hpre Hn Hm).
    destruct (@commented_is_comment names module Hn Hm) as (H1 & H2 & _).
    now repeat split.
  - intros pre binding q1 q2 module post. apply import_in_context.
  - intros binding q1 q2 module. apply import_stmt_cleaned.
  - apply clean_js_code_identity.
  - vm_compute. reflexivity.
  - vm_compute. reflexivity.
  - vm_compute. reflexivity.
  - vm_compute. reflexivity.
Qed.

Lemma sanitization_patterns_witness :
  plain_before ("let x = 1;" ++ [newline]) = true /\
  js_names "{ readFile, writeFile }" = true /\
  js_module "node:fs" = true /\
  clean_js_code (("let x = 1;" ++ [newline])
                 ++ require_stmt "{ readFile, writeFile }" "node:fs"
                 ++ ([newline] ++ "run();"))
  = ("let x = 1;" ++ [newline])
    ++ commented_require "{ readFile, writeFile } " "node:fs"
    ++ clean_js_code ([newline] ++ "run();").
Proof.
  split; [reflexivity|]. split; [reflexivity|]. split; [reflexivity|].
  exact (proj1 (proj1 sanitization_patterns ("let x = 1;" ++ [newline])
                  "{ readFile, writeFile }" "node:fs" ([newline] ++ "run();")
                  eq_refl eq_refl eq_refl)).
Defined.

(** C4 as stated fails: an import of [path] without the final semicolon
    and a bare import of [fs] are import statements the transform leaves
    in place; the comment written for [const fs = require('fs');] does
    not hold the text ['fs']; and behind a line [const y] the statement
    [const fs = require('fs');] is not turned into a comment: the
    comment sign goes in front of [const y], and the second line stays a
    call site. *)
Lemma sanitization_counterexample :
  clean_js_code "import x from 'path'" = "import x from 'path'" /\
  clean_js_code "import 'fs';" = "import 'fs';" /\
  contains (clean_js_code "const fs = require('fs');") "'fs'" = false /\
  clean_js_code dangling_script
  = "// const y" ++ [newline] ++ "const fs  = require(" ++ [dquote] ++ "fs" ++ [dquote]
    ++ "); // Commented out for browser compatibility" /\
  unsanitized_require (clean_js_code dangling_script) = true.
Proof. repeat split; vm_compute; reflexivity. Qed.

(** ** The edit stage *)

Lemma str_eqb_refl (a : str) : str_eqb a a = true.
Proof. induction a as [|x a IH]; simpl; [reflexivity|]. now rewrite Ascii.eqb_refl. Qed.

Lemma dict_get_set (k : str) (v : json) (d : dict) :
  dict_get k (dict_set k v d) = Some v.
Proof.
  induction d as [|[k' v'] d IH]; simpl.
  - now rewrite str_eqb_refl.
  - destruct (str_eqb k k') eqn:Hk; simpl; now rewrite Hk.
Qed.

Lemma clean_script_result (data fe : dict) (js : str) :
  dict_get "frontend" data = Some (JObj fe) ->
  dict_get "script_js" fe = Some (JStr js) ->
  exists result,
    clean_script (JObj data) = inr result /\
    script_js_of result = Some (clean_js_code js).
Proof.
  intros Hfe Hjs. unfold clean_script. rewrite Hfe, Hjs.
  eexists. split; [reflexivity|].
  unfold script_js_of. now rewrite !dict_get_set.
Qed.

Lemma codebase_from_model_answer (E : env) (prompt detail content : str) (w : world)
    (data fe : dict) (js : str) :
  chat_create E (List.length (calls w)) (code_request prompt) = Some content ->
  json_loads E content = Some (JObj data) ->
  dict_get "frontend" data = Some (JObj fe) ->
  dict_get "script_js" fe = Some (JStr js) ->
  exists result w',
    codebase_from_model E prompt detail w = (inr result, w') /\
    script_js_of result = Some (clean_js_code js).
Proof.
  intros Hchat Hloads Hfe Hjs.
  destruct (@clean_script_result data fe js Hfe Hjs) as (result & Hclean & Hscript).
  exists result. eexists. split; [|exact Hscript].
  unfold codebase_from_model, try_except, bind. fold (code_request prompt).
  rewrite (@chat_answer E (code_request prompt) w content Hchat). unfold loads. rewrite Hloads.
  cbn [lift ret]. rewrite Hclean. reflexivity.
Qed.

(** C5, as amended: for every codebase and every edit instruction, when
    the model answers the edit request with a codebase, the script of
    the edit stage's result is the sanitization of the script the model
    returned.  When that script is made of statements
    [const <names> = require('<module>');] and server imports
    [import <binding> from '<module>';], each behind plain text without
    a [require(], and the text behind the last statement has neither
    [require(] nor [import], the result is that script with each
    statement replaced by its comment, and it has no [require(] call
    site outside a comment.  A [require(] written in a way the patterns
    do not cover stays as the model wrote it. *)
Theorem edit_stage_sanitization (E : env) (w : world)
    (original_code edit_request : json) (content : str) (data fe : dict) (js : str) :
  json_loads E content = Some (JObj data) ->
  dict_get "frontend" data = Some (JObj fe) ->
  dict_get "script_js" fe = Some (JStr js) ->
  (chat_create E (List.length (calls w))
     (code_request (App.edit_prompt E original_code edit_request)) = Some content ->
   exists result w',
     App.edit_website_code E original_code edit_request w = (inr result, w') /\
     script_js_of result = Some (clean_js_code js))
  /\
  (chat_create E (List.length (calls w))
     (code_request (Index.edit_prompt E original_code edit_request)) = Some content ->
   exists result w',
     Index.edit_website_code E original_code edit_request w = (inr result, w') /\
     script_js_of result = Some (clean_js_code js))
  /\
  (forall blocks tail,
      covered blocks tail = true -> js = script_of blocks tail ->
      clean_js_code js = cleaned_of blocks tail /\
      unsanitized_require (clean_js_code js) = false)
  /\
  clean_js_code require_double_quoted = require_double_quoted.
Proof.
  intros Hloads Hfe Hjs. split; [|split; [|split]].
  - intro Hchat. unfold App.edit_website_code.
    eapply codebase_from_model_answer; eassumption.
  - intro Hchat. unfold Index.edit_website_code.
    eapply codebase_from_model_answer; eassumption.
  - intros blocks tail Hcov ->.
    destruct (@covered_script_cleaned blocks tail Hcov) as [H1 H2].
    rewrite H1. now split.
  - vm_compute. reflexivity.
Qed.

Lemma edit_stage_sanitization_witness :
  covered sample_blocks sample_tail = true /\
  sample_script = script_of sample_blocks sample_tail /\
  exists result w',
    App.edit_website_code (edit_env sample_script)
      (codebase sample_script) (JStr "Add a button") empty_world
    = (inr result, w') /\
    script_js_of result = Some (clean_js_code sample_script) /\
    clean_js_code sample_script = cleaned_of sample_blocks sample_tail /\
    unsanitized_require (clean_js_code sample_script) = false.
Proof.
  split; [reflexivity|]. split; [reflexivity|].
  destruct (@edit_stage_sanitization (edit_env sample_script) empty_world
              (codebase sample_script) (JStr "Add a button") "{...}"
              [ (lit "frontend",
                 JObj [ (lit "index_html", JStr "<html></html>");
                        (lit "styles_css", JStr "body {}");
                        (lit "script_js", JStr sample_script) ]);
                (lit "backend", JStr "app = FastAPI()");
                (lit "instructions", JStr "Run it.") ]
              [ (lit "index_html", JStr "<html></html>");
                (lit "styles_css", JStr "body {}");
                (lit "script_js", JStr sample_script) ]
              sample_script
              eq_refl eq_refl eq_refl)
    as [Happ [_ [Hclean _]]].
  destruct (Happ eq_refl) as (result & w' & Hrun & Hscript).
  exists result, w'. split; [exact Hrun|]. split; [exact Hscript|].
  exact (Hclean sample_blocks sample_tail eq_refl eq_refl).
Defined.

(** C5 as stated fails: the script of the codebase sent for editing
    holds a require statement whose module path is in double quotes,
    the model returns the codebase unchanged, and the result keeps that
    call site as it is. *)
Lemma edit_stage_counterexample :
  script_js_of (codebase require_double_quoted) = Some require_double_quoted /\
  contains require_double_quoted "require(" = true /\
  exists result w',
    App.edit_website_code (edit_env require_double_quoted)
      (codebase require_double_quoted) (JStr "Add a button") empty_world
    = (inr result, w') /\
    script_js_of result = Some require_double_quoted /\
    unsanitized_require require_double_quoted = true.
Proof.
  split; [reflexivity|]. split; [reflexivity|]. eexists. eexists.
  split; [vm_compute; reflexivity|]. split; reflexivity.
Qed.

(* ================================================================== *)
(** * Part III.  Further properties of the two services                *)
(* ================================================================== *)

(** ** More on [str] methods *)

Lemma lstrip_suffix (s : str) :
  exists u, s = u ++ lstrip s /\ forallb isspace u = true.
Proof.
  induction s as [|a s IH]; [now exists []|].
  simpl. destruct (isspace a) eqn:Ha.
  - destruct IH as (u & Hs & Hu). exists (a :: u). simpl. rewrite Ha, Hu.
    split; [now f_equal | reflexivity].
  - now exists [].
Qed.

Lemma lstrip_head (s : str) :
  match lstrip s with [] => True | a :: _ => isspace a = false end.
Proof.
  induction s as [|a s IH]; [exact I|].
  simpl. destruct (isspace a) eqn:Ha; [exact IH | exact Ha].
Qed.

Lemma lstrip_fixed (t : str) :
  match t with [] => True | a :: _ => isspace a = false end -> lstrip t = t.
Proof. destruct t as [|a t]; [reflexivity|]. simpl. now intros ->. Qed.

Lemma lstrip_idem (s : str) : lstrip (lstrip s) = lstrip s.
Proof. apply lstrip_fixed, lstrip_head. Qed.

Lemma rstrip_idem (s : str) : rstrip (rstrip s) = rstrip s.
Proof. unfold rstrip. now rewrite rev_involutive, lstrip_idem. Qed.

Lemma rstrip_prefix (s : str) :
  exists v, s = rstrip s ++ v /\ forallb isspace v = true.
Proof.
  destruct (lstrip_suffix (rev s)) as (u & Hs & Hu).
  exists (rev u). split.
  - unfold rstrip. rewrite <- rev_app_distr, <- Hs. now rewrite rev_involutive.
  - now rewrite forallb_rev.
Qed.

Lemma rstrip_app (u t : str) :
  rstrip (u ++ t) = if forallb isspace t then rstrip u else u ++ rstrip t.
Proof.
  unfold rstrip. rewrite rev_app_distr, lstrip_app, forallb_rev.
  destruct (forallb isspace t); [reflexivity|].
  now rewrite rev_app_distr, rev_involutive.
Qed.

Lemma rstrip_strip (s : str) : rstrip (strip s) = strip s.
Proof.
  unfold strip. set (r := rstrip s).
  destruct (lstrip_suffix r) as (u & Hr & Hu).
  assert (Hrr : rstrip r = r) by apply rstrip_idem.
  rewrite Hr in Hrr at 1. rewrite rstrip_app in Hrr.
  destruct (forallb isspace (lstrip r)) eqn:Hb.
  - pose proof (lstrip_head r) as Hh. destruct (lstrip r) as [|a t]; [reflexivity|].
    simpl in Hb. rewrite Hh in Hb. discriminate.
  - rewrite Hr in Hrr at 2. now apply app_inv_head in Hrr.
Qed.

Lemma strip_idem (s : str) : strip (strip s) = strip s.
Proof.
  unfold strip at 1. rewrite rstrip_strip. unfold strip. apply lstrip_idem.
Qed.

Lemma strip_middle (s : str) : exists u v, s = u ++ strip s ++ v.
Proof.
  destruct (rstrip_prefix s) as (v & Hs & _).
  destruct (lstrip_suffix (rstrip s)) as (u & Hr & _).
  exists u, v. unfold strip. rewrite app_assoc, <- Hr. exact Hs.
Qed.

Lemma strip_in (c : ascii) (s : str) : In c (strip s) -> In c s.
Proof.
  intro H. destruct (strip_middle s) as (u & v & Hs). rewrite Hs.
  apply in_or_app. right. apply in_or_app. now left.
Qed.

Lemma lines_no_newline (s : str) (l : str) : In l (lines s) -> ~ In newline l.
Proof.
  revert l. induction s as [|a s IH]; intros l Hin.
  - destruct Hin as [<- | []]. intros [].
  - rewrite lines_cons in Hin. destruct (Ascii.eqb a newline) eqn:Ha.
    + destruct Hin as [<- | Hin]; [intros [] | now apply IH].
    + destruct (lines s) as [|x rest] eqn:Hl; [now apply lines_not_nil in Hl|].
      destruct Hin as [<- | Hin].
      * intros [-> | Hx]; [now rewrite Ascii.eqb_refl in Ha|].
        revert Hx. apply IH. now left.
      * apply IH. now right.
Qed.

Lemma parse_ideas_shape (output idea : str) :
  In idea (parse_ideas output) ->
  idea <> [] /\ strip idea = idea /\ ~ In newline idea /\
  exists line, In line (lines output) /\ idea = strip line.
Proof.
  rewrite parse_ideas_spec. unfold spec_ideas, split. fold (lines output).
  intro Hin. apply filter_In in Hin as [Hin Hne].
  apply in_map_iff in Hin as (line & <- & Hline).
  split; [now destruct (strip line)|]. split; [apply strip_idem|]. split.
  - intro Hc. apply strip_in in Hc. revert Hc. now apply (@lines_no_newline output).
  - now exists line.
Qed.

Lemma contains_strip (s p : str) : contains (strip s) p = true -> contains s p = true.
Proof.
  intro H. destruct (strip_middle s) as (u & v & Hs). rewrite Hs.
  now apply contains_app_r, contains_app_l.
Qed.

Lemma split_head_no_sep (sep : str) (m : option nat) (s : str) :
  sep <> [] -> may_split m = true ->
  contains (hd [] (split_scan sep m 0 s)) sep = false.
Proof.
  intros Hsep Hm. induction s as [|a s IH].
  - destruct sep; [congruence | reflexivity].
  - cbn [split_scan]. rewrite Hm. cbn [andb].
    destruct (startswith (a :: s) sep) eqn:Hst.
    + destruct sep; [congruence | reflexivity].
    + destruct (split_head_prefix sep m s) as (rest & Hs).
      pose proof (@split_scan_not_nil sep m 0 s) as Hne.
      destruct (split_scan sep m 0 s) as [|h t]; [congruence|].
      cbn [cons_head hd] in *. cbn [contains]. rewrite IH, orb_false_r.
      destruct (startswith (a :: h) sep) eqn:Hh; [|reflexivity].
      apply (startswith_app _ rest) in Hh. simpl app in Hh. rewrite <- Hs in Hh. congruence.
Qed.

Lemma split_summary_shape (output : str) :
  contains (fst (split_summary output)) "Conclusion:" = false /\
  strip (fst (split_summary output)) = fst (split_summary output) /\
  strip (snd (split_summary output)) = snd (split_summary output).
Proof.
  unfold split_summary, split. cbn [fst snd].
  set (parts := split_scan "Conclusion:" (Some 1) 0 output).
  split; [|split].
  - destruct (contains (strip (nth 0 parts [])) "Conclusion:") eqn:Hc; [|reflexivity].
    apply contains_strip in Hc.
    replace (nth 0 parts []) with (hd [] parts) in Hc by (now destruct parts).
    unfold parts in Hc. rewrite split_head_no_sep in Hc; [discriminate | discriminate | reflexivity].
  - apply strip_idem.
  - destruct (1 <? List.length parts); [apply strip_idem | reflexivity].
Qed.

Lemma split_char_pieces (c : ascii) (x rest : str) :
  split_scan [c] None 0 (x ++ c :: rest)
  = split_scan [c] None 0 x ++ split_scan [c] None 0 rest.
Proof.
  induction x as [|a x IH].
  - change ([] ++ c :: rest) with (c :: rest). now rewrite split_char_sep.
  - change ((a :: x) ++ c :: rest) with (a :: (x ++ c :: rest)).
    destruct (Ascii.eqb a c) eqn:Ha.
    + apply Ascii.eqb_eq in Ha. subst a.
      rewrite (split_char_sep c (x ++ c :: rest)), (split_char_sep c x), IH. reflexivity.
    + apply Ascii.eqb_neq in Ha. rewrite (@split_char_cons c None a (x ++ c :: rest) Ha), (@split_char_cons c None a x Ha), IH.
      pose proof (@split_scan_not_nil [c] None 0 x) as Hne.
      destruct (split_scan [c] None 0 x); [congruence | reflexivity].
Qed.

Lemma split_join_pieces (c : ascii) (l : list str) :
  l <> [] ->
  split (join [c] l) [c] None = List.concat (map (fun x => split x [c] None) l).
Proof.
  unfold split. induction l as [|x l IH]; intro Hne; [congruence|].
  destruct l as [|y l].
  - simpl. now rewrite app_nil_r.
  - change (join [c] (x :: y :: l)) with (x ++ c :: join [c] (y :: l)).
    rewrite split_char_pieces, IH by discriminate. reflexivity.
Qed.

(** ** Running one file and a batch *)

Lemma summary_stage_run (E : env) (text : str) (w : world) :
  generate_summary_and_conclusion E text w =
  (match chat_create E (List.length (calls w)) (summary_request text) with
   | Some out => inr (split_summary out)
   | None => inl (HTTPException 500 "Error communicating with AI for summary generation.")
   end,
   World (db w) (calls w ++ [summary_request text]) (drawn w)).
Proof.
  unfold generate_summary_and_conclusion, try_except, bind, chat.
  fold (summary_request text).
  destruct (chat_create E (List.length (calls w)) (summary_request text)); reflexivity.
Qed.

Lemma ideas_stage_run (E : env) (summary : str) (w : world) :
  generate_project_ideas E summary w =
  (match chat_create E (List.length (calls w)) (ideas_request summary) with
   | Some out => inr (parse_ideas out)
   | None => inl (HTTPException 500 "Error communicating with AI for project ideas.")
   end,
   World (db w) (calls w ++ [ideas_request summary]) (drawn w)).
Proof.
  unfold generate_project_ideas, try_except, bind, chat.
  fold (ideas_request summary).
  destruct (chat_create E (List.length (calls w)) (ideas_request summary)); reflexivity.
Qed.

Lemma process_file_run (E : env) (f : UploadFile) (w : world) :
  match file_outcome E f (db w) (List.length (calls w)) (drawn w) with
  | Some (r, v, rqs) =>
      App.process_file E f w
      = (inr v, World (db w ++ [r]) (calls w ++ rqs) (S (drawn w)))
  | None =>
      exists w' rqs,
        App.process_file E f w = (inl (processing_error f), w') /\
        db w' = db w /\ calls w' = calls w ++ rqs /\ List.length rqs <= 2 /\
        drawn w <= drawn w' <= S (drawn w)
  end.
Proof.
  unfold file_outcome, App.process_file, try_except, bind.
  destruct (App.extract_text_from_pdf (file f)) as [e|text]; cbn [lift raise ret].
  { exists w, []. rewrite app_nil_r.
    split; [reflexivity|]. split; [reflexivity|]. split; [reflexivity|]. simpl; lia. }
  rewrite summary_stage_run.
  destruct (chat_create E (List.length (calls w)) (summary_request text)) as [out1|].
  2:{ eexists. exists [summary_request text].
      split; [reflexivity|]. split; [reflexivity|]. split; [reflexivity|]. simpl; lia. }
  destruct (split_summary out1) as [summary conclusion]. cbn [fst snd].
  rewrite ideas_stage_run. cbn [calls db drawn].
  rewrite length_app. cbn [List.length]. rewrite Nat.add_1_r.
  destruct (chat_create E (S (List.length (calls w))) (ideas_request summary)) as [out2|].
  2:{ eexists. exists [summary_request text; ideas_request summary].
      split; [reflexivity|]. split; [reflexivity|].
      split; [cbn [calls]; now rewrite <- app_assoc|]. simpl; lia. }
  unfold App.insert_summary, bind, new_uuid. cbn [calls db drawn].
  destruct (has_id (uuid4 E (drawn w)) (db w)).
  - eexists. exists [summary_request text; ideas_request summary].
    split; [reflexivity|]. split; [reflexivity|].
    split; [cbn [calls]; now rewrite <- app_assoc|]. simpl; lia.
  - rewrite <- app_assoc. reflexivity.
Qed.

Lemma file_outcome_requests (E : env) (f : UploadFile) (taken : list row) (n d : nat)
    (r : row) (v : summary_view) (rqs : list request) :
  file_outcome E f taken n d = Some (r, v, rqs) -> List.length rqs = 2.
Proof.
  unfold file_outcome.
  destruct (App.extract_text_from_pdf (file f)); [discriminate|].
  destruct (chat_create E n _); [|discriminate].
  destruct (chat_create E (S n) _); [|discriminate].
  destruct (has_id _ _); [discriminate|]. now intros [= <- <- <-].
Qed.

Lemma app_loop_run (E : env) (files : list UploadFile) :
  forall (results : list summary_view) (w : world),
  match batch_outcome E files (db w) (List.length (calls w)) (drawn w) with
  | Some (rows, vs, rqs) =>
      App.summarize_loop E files results w
      = (inr (results ++ vs),
         World (db w ++ rows) (calls w ++ rqs) (drawn w + List.length files))
  | None =>
      exists w' done f rest rows vs rqs rqs',
        App.summarize_loop E files results w = (inl (processing_error f), w') /\
        files = done ++ f :: rest /\
        batch_outcome E done (db w) (List.length (calls w)) (drawn w)
        = Some (rows, vs, rqs) /\
        db w' = db w ++ rows /\
        calls w' = calls w ++ rqs ++ rqs' /\ List.length rqs' <= 2 /\
        drawn w' <= S (drawn w + List.length done)
  end.
Proof.
  induction files as [|f files IH]; intros results w.
  - cbn. now rewrite !app_nil_r, Nat.add_0_r; destruct w.
  - cbn [batch_outcome App.summarize_loop]. unfold bind.
    pose proof (process_file_run E f w) as Hf.
    destruct (file_outcome E f (db w) (List.length (calls w)) (drawn w))
      as [[[r v] rqs]|] eqn:Hout.
    + rewrite Hf. pose proof (file_outcome_requests _ _ _ _ _ Hout) as Hlen.
      specialize (IH (results ++ [v])
                     (World (db w ++ [r]) (calls w ++ rqs) (S (drawn w)))).
      cbn [db calls drawn] in IH. rewrite length_app, Hlen in IH.
      destruct (batch_outcome E files (db w ++ [r]) (List.length (calls w) + 2) (S (drawn w)))
        as [[[rows vs] rqss]|] eqn:Hb.
      * rewrite IH. cbn [List.length]. rewrite <- !app_assoc.
        replace (S (drawn w) + List.length files) with (drawn w + S (List.length files))
          by lia.
        reflexivity.
      * destruct IH as (w' & done & g & rest & rows & vs & rqs1 & rqs' &
                        Hrun & -> & Hdone & Hdb & Hcalls & Hle & Hdr).
        exists w', (f :: done), g, rest, (r :: rows), (v :: vs), (rqs ++ rqs1), rqs'.
        split; [exact Hrun|]. split; [reflexivity|]. split.
        { cbn [batch_outcome]. now rewrite Hout, Hdone. }
        split; [now rewrite Hdb, <- app_assoc|].
        split; [now rewrite Hcalls, <- !app_assoc|].
        split; [exact Hle|]. cbn [List.length]. lia.
    + destruct Hf as (w' & rqs' & Hrun & Hdb & Hcalls & Hle & Hdr).
      rewrite Hrun.
      exists w', [], f, files, [], [], [], rqs'.
      split; [reflexivity|]. split; [reflexivity|]. split; [reflexivity|].
      split; [now rewrite app_nil_r|]. split; [exact Hcalls|].
      split; [exact Hle|]. cbn [List.length]. lia.
Qed.

Lemma extract_agree (f : pdf_stream) :
  match App.extract_text_from_pdf f with
  | inr t => Index.extract_text_from_pdf f = inr t
  | inl _ => exists e, Index.extract_text_from_pdf f = inl e
  end.
Proof.
  unfold App.extract_text_from_pdf, Index.extract_text_from_pdf, extract_with.
  destruct f as [pages|msg]; [|now eexists].
  destruct (join_pages pages) as [e|text]; [now eexists|].
  destruct (nonempty (strip text)); [reflexivity | now eexists].
Qed.

Lemma index_loop_run (E : env) (files : list UploadFile) :
  forall (pending : list row) (results : list summary_view) (w : world),
  match batch_outcome E files (db w ++ pending) (List.length (calls w)) (drawn w) with
  | Some (rows, vs, rqs) =>
      if forallb nul_free rows then
        Index.summarize_loop E files pending results w
        = (inr (pending ++ rows, results ++ vs),
           World (db w) (calls w ++ rqs) (drawn w + List.length files))
      else
        exists e w', Index.summarize_loop E files pending results w = (inl e, w') /\
                     db w' = db w
  | None =>
      exists e w', Index.summarize_loop E files pending results w = (inl e, w') /\
                   db w' = db w
  end.
Proof.
  induction files as [|f files IH]; intros pending results w.
  - cbn. now rewrite !app_nil_r, Nat.add_0_r; destruct w.
  - cbn [batch_outcome Index.summarize_loop]. unfold file_outcome, bind.
    pose proof (extract_agree (file f)) as Hx.
    destruct (App.extract_text_from_pdf (file f)) as [e|text].
    { destruct Hx as [e' ->]. cbn [lift raise]. now exists e', w. }
    rewrite Hx. cbn [lift ret]. rewrite summary_stage_run.
    destruct (chat_create E (List.length (calls w)) (summary_request text)) as [out1|].
    2:{ do 2 eexists. split; reflexivity. }
    destruct (split_summary out1) as [summary conclusion]. cbn [fst snd].
    rewrite ideas_stage_run. cbn [calls db drawn].
    rewrite length_app. cbn [List.length]. rewrite Nat.add_1_r.
    destruct (chat_create E (S (List.length (calls w))) (ideas_request summary)) as [out2|].
    2:{ do 2 eexists. split; reflexivity. }
    unfold new_uuid, Index.execute_insert.
    cbn [calls db drawn row_id row_filename row_summary row_conclusion row_project_ideas].
    set (r := Row (uuid4 E (drawn w)) (filename f) summary conclusion
                  (join "|" (parse_ideas out2))).
    specialize (IH (pending ++ [r])
                   (results ++ [View (filename f) summary conclusion (parse_ideas out2)])
                   (World (db w)
                          ((calls w ++ [summary_request text]) ++ [ideas_request summary])
                          (S (drawn w)))).
    cbn [db calls drawn] in IH.
    rewrite !length_app in IH. cbn [List.length] in IH.
    replace (List.length (calls w) + 1 + 1) with (List.length (calls w) + 2) in IH by lia.
    rewrite (app_assoc (db w) pending) in IH.
    destruct (has_id (uuid4 E (drawn w)) (db w ++ pending)) eqn:Hid.
    { destruct (existsb has_nul _); do 2 eexists; split; reflexivity. }
    destruct (batch_outcome E files _ (List.length (calls w) + 2) (S (drawn w)))
      as [[[rows vs] rqss]|].
    + cbn [forallb]. unfold nul_free at 1.
      cbn [row_id row_filename row_summary row_conclusion row_project_ideas r].
      destruct (existsb has_nul _); cbn [negb andb].
      { do 2 eexists. split; reflexivity. }
      destruct (forallb nul_free rows).
      * rewrite IH. rewrite <- !app_assoc. cbn [List.length app].
        replace (S (drawn w) + List.length files) with (drawn w + S (List.length files))
          by lia.
        reflexivity.
      * destruct IH as (e & w' & -> & Hdb). now exists e, w'.
    + destruct (existsb has_nul _).
      { do 2 eexists. split; reflexivity. }
      destruct IH as (e & w' & -> & Hdb). now exists e, w'.
Qed.

Lemma batch_outcome_shape (E : env) (files : list UploadFile) :
  forall (taken : list row) (n d : nat) rows vs rqs,
    batch_outcome E files taken n d = Some (rows, vs, rqs) ->
    Forall2 stores rows vs /\
    map view_filename vs = map filename files /\
    map row_id rows = map (uuid4 E) (seq d (List.length files)) /\
    List.length rqs = 2 * List.length files /\
    Forall (fun v => exists out, view_project_ideas v = parse_ideas out) vs.
Proof.
  induction files as [|f files IH]; intros taken n d rows vs rqs H.
  - injection H as <- <- <-. repeat split; constructor.
  - cbn [batch_outcome] in H.
    destruct (file_outcome E f taken n d) as [[[r v] rq]|] eqn:Hf; [|discriminate].
    destruct (batch_outcome E files (taken ++ [r]) (n + 2) (S d))
      as [[[rows' vs'] rqs']|] eqn:Hb; [|discriminate].
    injection H as <- <- <-.
    destruct (IH _ _ _ _ _ _ Hb) as (H1 & H2 & H3 & H4 & H5).
    pose proof (file_outcome_requests _ _ _ _ _ Hf) as Hlen.
    unfold file_outcome in Hf.
    destruct (App.extract_text_from_pdf (file f)) as [|text]; [discriminate|].
    destruct (chat_create E n (summary_request text)) as [out1|]; [|discriminate].
    destruct (chat_create E (S n) _) as [out2|]; [|discriminate].
    destruct (has_id _ taken); [discriminate|].
    injection Hf as <- <- <-.
    split; [constructor; [now repeat split | exact H1]|].
    split; [cbn [map view_filename]; now rewrite H2|].
    split; [cbn [map row_id List.length seq]; now rewrite H3|].
    split; [rewrite length_app, H4; cbn [List.length]; lia|].
    constructor; [now exists out2 | exact H5].
Qed.

Lemma Forall2_in_r {A B} (R : A -> B -> Prop) (l1 : list A) (l2 : list B) (y : B) :
  Forall2 R l1 l2 -> In y l2 -> exists x, In x l1 /\ R x y.
Proof.
  induction 1 as [|a b l1 l2 Hab Hrest IH]; intro Hin; [contradiction|].
  destruct Hin as [<- | Hin].
  - exists a. split; [now left | exact Hab].
  - destruct (IH Hin) as (x & Hx & HR). exists x. split; [now right | exact HR].
Qed.

Lemma app_batch_success (E : env) (files : list UploadFile) (w : world)
    (vs : list summary_view) (w' : world) :
  App.summarize_papers E files w = (inr vs, w') ->
  exists rows rqs,
    batch_outcome E files (db w) (List.length (calls w)) (drawn w) = Some (rows, vs, rqs) /\
    w' = World (db w ++ rows) (calls w ++ rqs) (drawn w + List.length files).
Proof.
  unfold App.summarize_papers. intro Hrun.
  pose proof (app_loop_run E files [] w) as H.
  destruct (batch_outcome E files (db w) (List.length (calls w)) (drawn w))
    as [[[rows vs'] rqs]|].
  - rewrite H in Hrun. injection Hrun as <- <-. now exists rows, rqs.
  - destruct H as (w1 & done & f & rest & rows & vs' & rqs & rqs' & H & _).
    rewrite H in Hrun. discriminate.
Qed.

Lemma index_batch_run (E : env) (files : list UploadFile) (w : world) :
  postgres_up E = true ->
  match batch_outcome E files (db w) (List.length (calls w)) (drawn w) with
  | Some (rows, vs, rqs) =>
      if forallb nul_free rows then
        Index.summarize_papers E files w
        = (inr vs, World (db w ++ rows) (calls w ++ rqs) (drawn w + List.length files))
      else exists e w', Index.summarize_papers E files w = (inl e, w')
  | None => exists e w', Index.summarize_papers E files w = (inl e, w')
  end.
Proof.
  intro Hup. unfold Index.summarize_papers, try_except, bind, Index.get_db_connection.
  rewrite Hup. cbn [ret].
  pose proof (index_loop_run E files [] [] w) as H. rewrite app_nil_r in H.
  destruct (batch_outcome E files (db w) (List.length (calls w)) (drawn w))
    as [[[rows vs] rqs]|].
  - destruct (forallb nul_free rows).
    + rewrite H. reflexivity.
    + destruct H as (e & w' & -> & _). now do 2 eexists.
  - destruct H as (e & w' & -> & _). now do 2 eexists.
Qed.

(** ** What the text stages return *)

(** X1: every idea returned by the idea stage is non-empty, has no
    white space at either end and holds no line break, whatever the
    model wrote. *)
Theorem ideas_are_trimmed_lines (E : env) (w : world) (summary : str)
    (ideas : list str) (w' : world) :
  generate_project_ideas E summary w = (inr ideas, w') ->
  Forall (fun idea => idea <> [] /\ strip idea = idea /\ ~ In newline idea) ideas.
Proof.
  rewrite ideas_stage_run. intro H.
  destruct (chat_create E (List.length (calls w)) (ideas_request summary)) as [out|];
    [|discriminate].
  injection H as <- _. apply Forall_forall. intros idea Hin.
  destruct (@parse_ideas_shape out idea Hin) as (H1 & H2 & H3 & _). now repeat split.
Qed.

Lemma ideas_are_trimmed_lines_witness :
  Forall (fun idea => idea <> [] /\ strip idea = idea /\ ~ In newline idea)
         [lit "1. Map"; lit "2. Search"].
Proof.
  apply (@ideas_are_trimmed_lines
           (demo_env [Some ("  1. Map  " ++ [newline; newline] ++ " 2. Search" ++ [newline])] None)
           empty_world "summary" [lit "1. Map"; lit "2. Search"]
           (World [] [ideas_request "summary"] 0)).
  vm_compute. reflexivity.
Defined.

(** X2: the summary returned by the summarization stage never holds
    the marker [Conclusion:], and neither the summary nor the conclusion
    has white space at either end. *)
Theorem summary_is_trimmed_without_marker (E : env) (w : world) (text : str)
    (summary conclusion : str) (w' : world) :
  generate_summary_and_conclusion E text w = (inr (summary, conclusion), w') ->
  contains summary "Conclusion:" = false /\
  strip summary = summary /\
  strip conclusion = conclusion.
Proof.
  rewrite summary_stage_run. intro H.
  destruct (chat_create E (List.length (calls w)) (summary_request text)) as [out|];
    [|discriminate].
  assert (Hss : split_summary out = (summary, conclusion)).
  { apply (f_equal fst) in H. cbn [fst] in H.
    exact (f_equal (fun r : exn + str * str =>
                      match r with inr p => p | inl _ => (summary, conclusion) end) H). }
  pose proof (split_summary_shape out) as Hs.
  rewrite Hss in Hs. exact Hs.
Qed.

Lemma summary_is_trimmed_without_marker_witness :
  contains (lit "A") "Conclusion:" = false /\
  strip (lit "A") = lit "A" /\
  strip (lit "B Conclusion: C") = lit "B Conclusion: C".
Proof.
  apply (@summary_is_trimmed_without_marker
           (demo_env [Some (lit " A Conclusion: B Conclusion: C ")] None)
           empty_world "paper" "A" "B Conclusion: C"
           (World [] [summary_request "paper"] 0)).
  vm_compute. reflexivity.
Defined.

(** ** What the listing reads back *)

Lemma read_back_pieces (i f s c : str) (ideas : list str) :
  ideas <> [[]] ->
  row_view (Row i f s c (join "|" ideas))
  = View f s c (List.concat (map (fun idea => split idea "|" None) ideas)).
Proof.
  intro Hne. unfold row_view. cbn [row_filename row_summary row_conclusion row_project_ideas].
  change (lit "|") with ["|"%char].
  destruct (nonempty (join ["|"%char] ideas)) eqn:Hn.
  - rewrite split_join_pieces; [reflexivity|]. intros ->. discriminate.
  - destruct (join ["|"%char] ideas) eqn:Hj; [|discriminate].
    apply join_nil_inv in Hj as [-> | ->]; [reflexivity | contradiction | discriminate].
Qed.

(** X3: a record stored with a list of ideas (other than the list
    holding only the empty string) is listed with every idea replaced,
    in place, by its pieces between separators [|]: an idea without
    separator comes back as it is, an idea with k separators as k+1
    ideas. *)
Theorem stored_ideas_read_back (E : env) (w : world)
    (fname summary conclusion : str) (ideas : list str) :
  ideas <> [[]] ->
  has_id (uuid4 E (drawn w)) (db w) = false ->
  exists w' views,
    App.insert_summary E fname summary conclusion ideas w = (inr tt, w') /\
    App.get_summaries w' = (inr views, w') /\
    In (View fname summary conclusion
             (List.concat (map (fun idea => split idea "|" None) ideas))) views.
Proof.
  intros Hne Hfresh. eexists. eexists.
  split; [now apply insert_summary_fresh|]. split; [reflexivity|]. cbn [db].
  apply in_map_iff. eexists. split; [now apply read_back_pieces|].
  eapply Permutation_in; [apply Permutation_sym, sort_by_perm|].
  apply in_or_app. right. now left.
Qed.

Lemma stored_ideas_read_back_witness :
  exists w' views,
    App.insert_summary (demo_env [] None) "p.pdf" "s" "c"
      [lit "a|b"; lit "c"; lit "|"] empty_world = (inr tt, w') /\
    App.get_summaries w' = (inr views, w') /\
    In (View "p.pdf" "s" "c" [lit "a"; lit "b"; lit "c"; lit ""; lit ""]) views.
Proof.
  apply (@stored_ideas_read_back (demo_env [] None) empty_world "p.pdf" "s" "c"
           [lit "a|b"; lit "c"; lit "|"]).
  - discriminate.
  - reflexivity.
Defined.

(** ** The code stages *)

Lemma dict_get_set_other (k k' : str) (v : json) (d : dict) :
  k' <> k -> dict_get k' (dict_set k v d) = dict_get k' d.
Proof.
  intro Hne. induction d as [|[k0 v0] d IH]; simpl.
  - destruct (str_eqb k' k) eqn:H; [apply str_eqb_eq in H; contradiction | reflexivity].
  - destruct (str_eqb k k0) eqn:Hk; simpl.
    + apply str_eqb_eq in Hk. subst k0.
      destruct (str_eqb k' k) eqn:H; [apply str_eqb_eq in H; contradiction | reflexivity].
    + now rewrite IH.
Qed.

Lemma dict_set_keys (k : str) (v : json) (d : dict) :
  dict_get k d <> None -> map fst (dict_set k v d) = map fst d.
Proof.
  induction d as [|[k0 v0] d IH]; simpl; [congruence|].
  destruct (str_eqb k k0); simpl; [reflexivity|]. intro H. now rewrite IH.
Qed.

(** The script assignment either fails or returns the object with the
    one field replaced. *)
Lemma clean_script_cases (data : json) :
  match script_js_of data with
  | Some js =>
      exists d fe,
        data = JObj d /\ dict_get "frontend" d = Some (JObj fe) /\
        dict_get "script_js" fe = Some (JStr js) /\
        clean_script data
        = inr (JObj (dict_set "frontend"
                       (JObj (dict_set "script_js" (JStr (clean_js_code js)) fe)) d))
  | None => exists e, clean_script data = inl e
  end.
Proof.
  unfold script_js_of, clean_script.
  destruct data as [| | | | |l|d]; try (now eexists).
  destruct (dict_get "frontend" d) as [[| | | | |l|fe]|] eqn:Hfe; try (now eexists).
  destruct (dict_get "script_js" fe) as [[| | | |js|l|o]|] eqn:Hjs; try (now eexists).
  exists d, fe. now repeat split.
Qed.

Lemma codebase_from_model_run (E : env) (prompt detail : str) (w : world) :
  codebase_from_model E prompt detail w =
  (match chat_create E (List.length (calls w)) (code_request prompt) with
   | Some content =>
       match json_loads E content with
       | Some data =>
           match clean_script data with
           | inr result => inr result
           | inl _ => inl (HTTPException 500 detail)
           end
       | None => inl (HTTPException 500 detail)
       end
   | None => inl (HTTPException 500 detail)
   end,
   World (db w) (calls w ++ [code_request prompt]) (drawn w)).
Proof.
  unfold codebase_from_model, try_except, bind, chat, loads.
  fold (code_request prompt).
  destruct (chat_create E (List.length (calls w)) (code_request prompt)) as [content|];
    [|reflexivity].
  destruct (json_loads E content) as [data|]; cbn [lift raise ret]; [|reflexivity].
  destruct (clean_script data); reflexivity.
Qed.

(** X4: each of the four stages sends exactly one request to the
    model, whether it succeeds or fails, and touches neither the table
    nor the identifiers; a stage that fails raises status 500 with its
    own fixed message. *)
Theorem stage_calls_once (E : env) (w : world) :
  (forall text, exists r,
      generate_summary_and_conclusion E text w
      = (r, World (db w) (calls w ++ [summary_request text]) (drawn w)) /\
      forall e, r = inl e ->
        e = HTTPException 500 "Error communicating with AI for summary generation.")
  /\
  (forall summary, exists r,
      generate_project_ideas E summary w
      = (r, World (db w) (calls w ++ [ideas_request summary]) (drawn w)) /\
      forall e, r = inl e ->
        e = HTTPException 500 "Error communicating with AI for project ideas.")
  /\
  (forall idea, exists r1 r2,
      App.generate_website_code E idea w
      = (r1, World (db w) (calls w ++ [code_request (App.codegen_prompt E idea)]) (drawn w)) /\
      Index.generate_website_code E idea w
      = (r2, World (db w) (calls w ++ [code_request (Index.codegen_prompt E idea)]) (drawn w)) /\
      forall e, r1 = inl e \/ r2 = inl e -> e = codegen_failed)
  /\
  (forall original edit, exists r1 r2,
      App.edit_website_code E original edit w
      = (r1, World (db w) (calls w ++ [code_request (App.edit_prompt E original edit)])
                   (drawn w)) /\
      Index.edit_website_code E original edit w
      = (r2, World (db w) (calls w ++ [code_request (Index.edit_prompt E original edit)])
                   (drawn w)) /\
      forall e, r1 = inl e \/ r2 = inl e -> e = edit_failed).
Proof.
  split; [|split; [|split]].
  - intro text. eexists. split; [apply summary_stage_run|].
    intros e. destruct (chat_create E _ _); [discriminate | now intros [= <-]].
  - intro summary. eexists. split; [apply ideas_stage_run|].
    intros e. destruct (chat_create E _ _); [discriminate | now intros [= <-]].
  - intro idea.
    destruct (codebase_from_model_outcome E (App.codegen_prompt E idea)
                "Failed to generate website code from AI." w) as (r1 & H1 & E1).
    destruct (codebase_from_model_outcome E (Index.codegen_prompt E idea)
                "Failed to generate website code from AI." w) as (r2 & H2 & E2).
    exists r1, r2. split; [exact H1|]. split; [exact H2|].
    intros e [H | H]; [now apply E1 | now apply E2].
  - intros original edit.
    destruct (codebase_from_model_outcome E (App.edit_prompt E original edit)
                "Failed to edit website code with AI." w) as (r1 & H1 & E1).
    destruct (codebase_from_model_outcome E (Index.edit_prompt E original edit)
                "Failed to edit website code with AI." w) as (r2 & H2 & E2).
    exists r1, r2. split; [exact H1|]. split; [exact H2|].
    intros e [H | H]; [now apply E1 | now apply E2].
Qed.

Lemma codebase_from_model_usable (E : env) (prompt detail : str) (w : world) :
  (usable_answer E (code_request prompt) w <->
   exists result w', codebase_from_model E prompt detail w = (inr result, w')) /\
  (~ usable_answer E (code_request prompt) w <->
   exists w', codebase_from_model E prompt detail w = (inl (HTTPException 500 detail), w')).
Proof.
  rewrite codebase_from_model_run. unfold usable_answer.
  destruct (chat_create E (List.length (calls w)) (code_request prompt)) as [content|].
  2:{ split; split.
      - intros (c & d & js & H & _). discriminate.
      - intros (r & w' & H). discriminate.
      - intros _. now eexists.
      - intros _ (c & d & js & H & _). discriminate. }
  destruct (json_loads E content) as [data|] eqn:Hl.
  2:{ split; split.
      - intros (c & d & js & [= <-] & H & _). congruence.
      - intros (r & w' & H). discriminate.
      - intros _. now eexists.
      - intros _ (c & d & js & [= <-] & H & _). congruence. }
  pose proof (clean_script_cases data) as Hc.
  destruct (script_js_of data) as [js|] eqn:Hs.
  - destruct Hc as (d & fe & _ & _ & _ & ->). split; split.
    + intros _. now do 2 eexists.
    + intros _. now exists content, data, js.
    + intros Hn. exfalso. apply Hn. now exists content, data, js.
    + intros (w' & H). discriminate.
  - destruct Hc as (e & ->). split; split.
    + intros (c & d & js & [= <-] & Hd & H). congruence.
    + intros (r & w' & H). discriminate.
    + intros _. now eexists.
    + intros _ (c & d & js & [= <-] & Hd & H). congruence.
Qed.

(** X5: a code stage succeeds exactly when the model answers with a
    text that parses to an object holding [frontend.script_js] as a
    text; a missing answer, a text that is not JSON, a value that is not
    an object, a missing [frontend] or [script_js] key and a
    [script_js] that is not a text all end in the stage's status 500. *)
Theorem malformed_model_output (E : env) (w : world) (idea original edit : json) :
  (usable_answer E (code_request (App.codegen_prompt E idea)) w <->
   exists result w', App.generate_website_code E idea w = (inr result, w'))
  /\
  (~ usable_answer E (code_request (App.codegen_prompt E idea)) w <->
   exists w', App.generate_website_code E idea w = (inl codegen_failed, w'))
  /\
  (usable_answer E (code_request (App.edit_prompt E original edit)) w <->
   exists result w', App.edit_website_code E original edit w = (inr result, w'))
  /\
  (~ usable_answer E (code_request (App.edit_prompt E original edit)) w <->
   exists w', App.edit_website_code E original edit w = (inl edit_failed, w'))
  /\
  (usable_answer E (code_request (Index.codegen_prompt E idea)) w <->
   exists result w', Index.generate_website_code E idea w = (inr result, w'))
  /\
  (~ usable_answer E (code_request (Index.edit_prompt E original edit)) w <->
   exists w', Index.edit_website_code E original edit w = (inl edit_failed, w'))
  /\
  Forall (fun v => script_js_of v = None)
    [ JArr []; JObj []; JObj [(lit "frontend", JStr "x")];
      JObj [(lit "frontend", JObj [])];
      JObj [(lit "frontend", JObj [(lit "script_js", JNull)])] ].
Proof.
  unfold App.generate_website_code, App.edit_website_code,
    Index.generate_website_code, Index.edit_website_code, codegen_failed, edit_failed.
  repeat (split; [apply codebase_from_model_usable|]).
  repeat constructor.
Qed.

Lemma clean_script_preserves (data result : json) :
  clean_script data = inr result ->
  keys result = keys data /\
  frontend_keys result = frontend_keys data /\
  (forall k, k <> lit "frontend" -> field k result = field k data) /\
  (forall k, k <> lit "script_js" -> frontend_field k result = frontend_field k data) /\
  exists js, script_js_of data = Some js /\
             frontend_field "script_js" result = Some (JStr (clean_js_code js)).
Proof.
  intro H. pose proof (clean_script_cases data) as Hc.
  destruct (script_js_of data) as [js|].
  2:{ destruct Hc as (e & He). congruence. }
  destruct Hc as (d & fe & -> & Hfe & Hjs & Hr). rewrite Hr in H. injection H as <-.
  assert (Hfe' : dict_get "frontend" d <> None) by congruence.
  assert (Hjs' : dict_get "script_js" fe <> None) by congruence.
  unfold keys, frontend_keys, frontend_field, field.
  rewrite !dict_get_set, Hfe. cbv iota.
  split; [now apply dict_set_keys|].
  split; [now apply dict_set_keys|].
  split; [intros k Hk; now apply dict_get_set_other|].
  split; [intros k Hk; now apply dict_get_set_other|].
  exists js. split; reflexivity.
Qed.

Lemma codebase_from_model_success (E : env) (prompt detail : str) (w : world)
    (result : json) (w' : world) :
  codebase_from_model E prompt detail w = (inr result, w') ->
  exists content data,
    chat_create E (List.length (calls w)) (code_request prompt) = Some content /\
    json_loads E content = Some data /\
    clean_script data = inr result.
Proof.
  rewrite codebase_from_model_run.
  destruct (chat_create E (List.length (calls w)) (code_request prompt)) as [content|];
    [|discriminate].
  destruct (json_loads E content) as [data|] eqn:Hl; [|discriminate].
  destruct (clean_script data) as [e|r] eqn:Hc; [discriminate|].
  intros [= <- _]. exists content, data. now repeat split.
Qed.

(** X6: on success a code stage returns the object the model sent in
    answer to the stage's request, with [frontend.script_js] sanitized
    and nothing else changed: the keys and every other field of the
    object and of [frontend] are those of the model's answer, so
    server-only code in [backend] or [index_html] is passed on as it
    is. *)
Theorem sanitization_touches_script_only (E : env) (w : world) (idea original edit : json)
    (prompt : str) (result : json) (w' : world) :
  (prompt = App.codegen_prompt E idea /\
   App.generate_website_code E idea w = (inr result, w')) \/
  (prompt = App.edit_prompt E original edit /\
   App.edit_website_code E original edit w = (inr result, w')) \/
  (prompt = Index.codegen_prompt E idea /\
   Index.generate_website_code E idea w = (inr result, w')) \/
  (prompt = Index.edit_prompt E original edit /\
   Index.edit_website_code E original edit w = (inr result, w')) ->
  exists content data js,
    chat_create E (List.length (calls w)) (code_request prompt) = Some content /\
    json_loads E content = Some data /\
    script_js_of data = Some js /\
    frontend_field "script_js" result = Some (JStr (clean_js_code js)) /\
    keys result = keys data /\
    frontend_keys result = frontend_keys data /\
    (forall k, k <> lit "frontend" -> field k result = field k data) /\
    (forall k, k <> lit "script_js" -> frontend_field k result = frontend_field k data).
Proof.
  unfold App.generate_website_code, App.edit_website_code,
    Index.generate_website_code, Index.edit_website_code.
  intros [[-> H] | [[-> H] | [[-> H] | [-> H]]]];
    apply codebase_from_model_success in H as (content & data & Hchat & Hl & Hc);
    destruct (clean_script_preserves _ Hc) as (H1 & H2 & H3 & H4 & js & H5 & H6);
    exists content, data, js; now repeat split.
Qed.

Lemma sanitization_touches_script_only_witness :
  exists content data js,
    chat_create (edit_env "const fs = require('fs');") 0
      (code_request (App.codegen_prompt (edit_env "const fs = require('fs');")
                       (JStr "A paper map")))
    = Some content /\
    json_loads (edit_env "const fs = require('fs');") content = Some data /\
    script_js_of data = Some js /\
    frontend_field "script_js"
      (JObj [ (lit "frontend",
               JObj [ (lit "index_html", JStr "<html></html>");
                      (lit "styles_css", JStr "body {}");
                      (lit "script_js", JStr (clean_js_code "const fs = require('fs');")) ]);
              (lit "backend", JStr "app = FastAPI()");
              (lit "instructions", JStr "Run it.") ])
    = Some (JStr (clean_js_code js)).
Proof.
  destruct (@sanitization_touches_script_only
              (edit_env "const fs = require('fs');") empty_world
              (JStr "A paper map") JNull JNull
              (App.codegen_prompt (edit_env "const fs = require('fs');")
                 (JStr "A paper map"))
              (JObj [ (lit "frontend",
                       JObj [ (lit "index_html", JStr "<html></html>");
                              (lit "styles_css", JStr "body {}");
                              (lit "script_js",
                               JStr (clean_js_code "const fs = require('fs');")) ]);
                      (lit "backend", JStr "app = FastAPI()");
                      (lit "instructions", JStr "Run it.") ])
              (World [] [code_request (App.codegen_prompt
                                         (edit_env "const fs = require('fs');")
                                         (JStr "A paper map"))] 0))
    as (content & data & js & H0 & H1 & H2 & H3 & _).
  - left. split; [reflexivity|]. vm_compute. reflexivity.
  - exists content, data, js. now repeat split.
Defined.

(** ** The two code endpoints, continued *)

Lemma clean_script_object (data result : json) :
  clean_script data = inr result -> exists d, result = JObj d.
Proof.
  intro H. pose proof (clean_script_cases data) as Hc.
  destruct (script_js_of data).
  - destruct Hc as (d & fe & _ & _ & _ & Hr). rewrite Hr in H. injection H as <-.
    now eexists.
  - destruct Hc as (e & He). congruence.
Qed.

(** X7: the generation endpoint answers with the stage's object plus
    the key [project_idea] holding the idea it received (replacing one
    the model may have sent); the edit endpoint answers with the stage's
    object as it is, so the [project_idea] of the codebase submitted for
    editing is kept only if the model sends it back. *)
Theorem project_idea_echo (E : env) (w : world) (body : dict) (result : json) (w' : world) :
  (App.generate_website_code_api E body w = (inr result, w') ->
   exists idea staged,
     dict_get "idea" body = Some idea /\
     App.generate_website_code E idea w = (inr staged, w') /\
     field "project_idea" result = Some idea /\
     forall k, k <> lit "project_idea" -> field k result = field k staged)
  /\
  (App.edit_code_api E body w = (inr result, w') ->
   exists original edit content data,
     dict_get "original_code" body = Some original /\
     dict_get "edit_request" body = Some edit /\
     App.edit_website_code E original edit w = (inr result, w') /\
     chat_create E (List.length (calls w)) (code_request (App.edit_prompt E original edit))
     = Some content /\
     json_loads E content = Some data /\
     field "project_idea" result = field "project_idea" data).
Proof.
  split.
  - unfold App.generate_website_code_api, dict_get_default.
    destruct (dict_get "idea" body) as [idea|] eqn:Hidea; [|discriminate].
    destruct (truthy idea); cbn [negb]; [|discriminate].
    unfold bind. destruct (App.generate_website_code E idea w) as [[e|staged] w1] eqn:Hrun;
      [discriminate|].
    intros [= <- <-]. exists idea, staged. split; [reflexivity|]. split; [exact Hrun|].
    unfold App.generate_website_code in Hrun.
    apply codebase_from_model_success in Hrun as (content & data & _ & _ & Hc).
    destruct (clean_script_object _ Hc) as [d ->].
    cbn [set_project_idea field]. split; [apply dict_get_set|].
    intros k Hk. now apply dict_get_set_other.
  - unfold App.edit_code_api, dict_get_default.
    destruct (dict_get "original_code" body) as [original|] eqn:Ho; [|discriminate].
    destruct (dict_get "edit_request" body) as [edit|] eqn:He;
      [|now rewrite orb_true_r].
    destruct (negb (truthy original) || negb (truthy edit)); [discriminate|].
    intro Hrun. exists original, edit.
    pose proof Hrun as Hrun'. unfold App.edit_website_code in Hrun'.
    apply codebase_from_model_success in Hrun' as (content & data & Hchat & Hl & Hc).
    exists content, data. split; [reflexivity|]. split; [reflexivity|].
    split; [exact Hrun|]. split; [exact Hchat|]. split; [exact Hl|].
    destruct (clean_script_preserves _ Hc) as (_ & _ & H3 & _).
    apply H3. discriminate.
Qed.

Lemma project_idea_echo_witness :
  exists idea staged,
    dict_get "idea" [(lit "idea", JStr "A paper map")] = Some idea /\
    App.generate_website_code (edit_env "let n = 0;") idea empty_world
    = (inr staged,
       World [] [code_request (App.codegen_prompt (edit_env "let n = 0;")
                                (JStr "A paper map"))] 0) /\
    field "project_idea"
      (set_project_idea (JStr "A paper map") (codebase "let n = 0;"))
    = Some idea.
Proof.
  destruct (proj1 (@project_idea_echo (edit_env "let n = 0;") empty_world
                     [(lit "idea", JStr "A paper map")]
                     (set_project_idea (JStr "A paper map") (codebase "let n = 0;"))
                     (World [] [code_request (App.codegen_prompt (edit_env "let n = 0;")
                                                (JStr "A paper map"))] 0)))
    as (idea & staged & H1 & H2 & H3 & _).
  - vm_compute. reflexivity.
  - exists idea, staged. now repeat split.
Defined.

Lemma stage_never_400 (E : env) (prompt detail : str) (w : world) (d : str) (w' : world) :
  codebase_from_model E prompt detail w <> (inl (HTTPException 400 d), w').
Proof.
  destruct (codebase_from_model_outcome E prompt detail w) as (r & -> & Hr).
  intros [= -> _]. specialize (Hr _ eq_refl). discriminate.
Qed.

(** X8: the generation endpoint answers 400 exactly when the [idea] of
    the body is missing or a value Python takes as false (null, false,
    0, 0.0, the empty string, list or object), and the edit endpoint
    exactly when [original_code] or [edit_request] is; the world is left
    as it was.  A string of blanks is a true value and reaches the model. *)
Theorem bad_input_exactly_falsy (E : env) (w : world) (body : dict) :
  ((exists d w', App.generate_website_code_api E body w = (inl (HTTPException 400 d), w'))
   <-> truthy (dict_get_default "idea" body) = false)
  /\
  ((exists d w', App.edit_code_api E body w = (inl (HTTPException 400 d), w'))
   <-> truthy (dict_get_default "original_code" body) = false \/
       truthy (dict_get_default "edit_request" body) = false)
  /\
  (forall d w',
      App.generate_website_code_api E body w = (inl (HTTPException 400 d), w') \/
      App.edit_code_api E body w = (inl (HTTPException 400 d), w') -> w' = w)
  /\
  Forall (fun v => truthy v = false) falsy_values
  /\
  truthy (JStr " ") = true.
Proof.
  split; [|split; [|split; [|split]]].
  - unfold App.generate_website_code_api.
    destruct (truthy (dict_get_default "idea" body)) eqn:Ht; cbn [negb].
    + split; [|discriminate]. intros (d & w' & H). exfalso. revert H.
      unfold bind, App.generate_website_code.
      destruct (codebase_from_model_outcome E
                  (App.codegen_prompt E (dict_get_default "idea" body))
                  "Failed to generate website code from AI." w) as (r & -> & Hr).
      destruct r as [e|v]; [|discriminate].
      rewrite (Hr e eq_refl). discriminate.
    + split; [reflexivity|]. intros _. now do 2 eexists.
  - unfold App.edit_code_api.
    destruct (truthy (dict_get_default "original_code" body)) eqn:Ho;
      destruct (truthy (dict_get_default "edit_request" body)) eqn:He; cbn [negb orb].
    + split; [|intros [H | H]; discriminate]. intros (d & w' & H). exfalso.
      revert H. apply stage_never_400.
    + split; [now right | intros _; now do 2 eexists].
    + split; [now left | intros _; now do 2 eexists].
    + split; [now left | intros _; now do 2 eexists].
  - intros d w'. unfold App.generate_website_code_api, App.edit_code_api.
    intros [H | H].
    + destruct (truthy (dict_get_default "idea" body)); cbn [negb] in H.
      * exfalso. revert H. unfold bind, App.generate_website_code.
        destruct (codebase_from_model_outcome E
                    (App.codegen_prompt E (dict_get_default "idea" body))
                    "Failed to generate website code from AI." w) as (r & -> & Hr).
        destruct r as [e|v]; [|discriminate].
        rewrite (Hr e eq_refl). discriminate.
      * now injection H.
    + destruct (negb (truthy (dict_get_default "original_code" body))
                || negb (truthy (dict_get_default "edit_request" body))).
      * now injection H.
      * exfalso. revert H. apply stage_never_400.
  - repeat constructor.
  - reflexivity.
Qed.

Lemma bad_input_exactly_falsy_witness :
  exists d w',
    App.generate_website_code_api (demo_env [] None) [(lit "idea", JInt 0)] empty_world
    = (inl (HTTPException 400 d), w').
Proof.
  apply (proj2 (proj1 (@bad_input_exactly_falsy (demo_env [] None) empty_world
                         [(lit "idea", JInt 0)]))).
  reflexivity.
Defined.

(** ** The batch endpoints *)

(** X9: one readable upload, two answers of the model and a fresh
    identifier give one element of the answer and one stored row; the
    idea stage is prompted with the parsed summary (not with the paper
    text or the conclusion) and the row holds the ideas joined with
    [|].  The Postgres service, when its database can be reached,
    returns the same and ends in the same state, unless one of the
    texts of the row holds the code point 0: then it answers 500 and
    stores nothing. *)
Theorem single_upload_pipeline (E : env) (w : world) (f : UploadFile)
    (text out1 out2 : str) :
  App.extract_text_from_pdf (file f) = inr text ->
  chat_create E (List.length (calls w)) (summary_request text) = Some out1 ->
  chat_create E (S (List.length (calls w)))
    (ideas_request (fst (split_summary out1))) = Some out2 ->
  has_id (uuid4 E (drawn w)) (db w) = false ->
  let summary := fst (split_summary out1) in
  let conclusion := snd (split_summary out1) in
  let ideas := parse_ideas out2 in
  let stored := Row (uuid4 E (drawn w)) (filename f) summary conclusion (join "|" ideas) in
  let requests := [summary_request text; ideas_request summary] in
  let after := World (db w ++ [stored]) (calls w ++ requests) (S (drawn w)) in
  App.summarize_papers E [f] w = (inr [View (filename f) summary conclusion ideas], after) /\
  (postgres_up E = true ->
   Index.summarize_papers E [f] w
   = if nul_free stored
     then (inr [View (filename f) summary conclusion ideas], after)
     else (inl nul_refused, World (db w) (calls w ++ requests) (S (drawn w)))).
Proof.
  intros Hx H1 H2 Hid summary conclusion ideas stored requests after.
  split.
  - assert (Hb : batch_outcome E [f] (db w) (List.length (calls w)) (drawn w)
                 = Some ([stored], [View (filename f) summary conclusion ideas], requests)).
    { cbn [batch_outcome]. unfold file_outcome. now rewrite Hx, H1, H2, Hid. }
    unfold App.summarize_papers. pose proof (app_loop_run E [f] [] w) as H.
    rewrite Hb in H. rewrite H. cbn [List.length app]. unfold after.
    now rewrite Nat.add_1_r.
  - intro Hup.
    pose proof (extract_agree (file f)) as Hx'. rewrite Hx in Hx'.
    unfold Index.summarize_papers, try_except, Index.get_db_connection.
    rewrite Hup. cbn [Index.summarize_loop]. unfold bind. cbn [ret].
    rewrite Hx'. cbn [lift ret]. rewrite summary_stage_run, H1.
    rewrite (surjective_pairing (split_summary out1)).
    rewrite ideas_stage_run. cbn [calls db drawn fst snd].
    rewrite length_app. cbn [List.length]. rewrite Nat.add_1_r, H2.
    unfold new_uuid, Index.execute_insert.
    cbn [calls db drawn row_id row_filename row_summary row_conclusion row_project_ideas].
    rewrite app_nil_r, Hid. unfold nul_free, stored, after, requests, ideas, summary, conclusion.
    cbn [row_id row_filename row_summary row_conclusion row_project_ideas].
    rewrite <- !app_assoc.
    destruct (existsb has_nul _); reflexivity.
Qed.

Lemma single_upload_pipeline_witness :
  App.summarize_papers batch_env [good_file] empty_world
  = (inr [View "good.pdf" "S" "C" [lit "Idea1"]],
     World [Row "id-0" "good.pdf" "S" "C" "Idea1"]
           [summary_request "Paper body..."; ideas_request "S"] 1) /\
  Index.summarize_papers nul_env [good_file] empty_world
  = (inl nul_refused, World [] [summary_request "Paper body..."; ideas_request "S"] 1).
Proof.
  split.
  - exact (proj1 (@single_upload_pipeline batch_env empty_world good_file
                    "Paper body..." "S Conclusion: C" "Idea1"
                    eq_refl eq_refl eq_refl eq_refl)).
  - exact (proj2 (@single_upload_pipeline nul_env empty_world good_file
                    "Paper body..." "S Conclusion: C" ("Idea" ++ [zero])
                    eq_refl eq_refl eq_refl eq_refl) eq_refl).
Defined.

(** X10: a batch that succeeds in the SQLite service returns one element
    per upload, in upload order and under the upload's file name, and
    appends one row per upload, in the same order, holding the same
    summary and conclusion and the ideas joined with [|]; it makes two
    model calls and draws one identifier per upload. *)
Theorem batch_success_shape (E : env) (files : list UploadFile) (w : world)
    (vs : list summary_view) (w' : world) :
  App.summarize_papers E files w = (inr vs, w') ->
  map view_filename vs = map filename files /\
  (exists rows,
      db w' = db w ++ rows /\ Forall2 stores rows vs /\
      map row_id rows = map (uuid4 E) (seq (drawn w) (List.length files))) /\
  List.length (calls w') = List.length (calls w) + 2 * List.length files /\
  drawn w' = drawn w + List.length files.
Proof.
  intro Hrun. apply app_batch_success in Hrun as (rows & rqs & Hb & ->).
  destruct (batch_outcome_shape _ _ _ _ _ Hb) as (H1 & H2 & H3 & H4 & _).
  split; [exact H2|]. split; [now exists rows|].
  cbn [calls drawn]. rewrite length_app, H4. split; reflexivity.
Qed.

Lemma batch_success_shape_witness :
  map view_filename [View "good.pdf" "S" "C" [lit "Idea1"]] = map filename [good_file].
Proof.
  apply (@batch_success_shape batch_env [good_file] empty_world
           [View "good.pdf" "S" "C" [lit "Idea1"]]
           (World [Row "id-0" "good.pdf" "S" "C" "Idea1"]
                  [summary_request "Paper body..."; ideas_request "S"] 1)).
  vm_compute. reflexivity.
Defined.

(** X11: with the database within reach, a batch that succeeds in the
    Postgres service succeeds in the SQLite service with the same answer
    and the same final table, calls and identifiers; a batch that
    succeeds in the SQLite service does the same in the Postgres one
    exactly when none of the rows it stored holds the code point 0,
    which psycopg2 refuses.  A model answer with that code point makes
    the difference. *)
Theorem services_agree_on_success (E : env) (files : list UploadFile) (w : world)
    (vs : list summary_view) (w' : world) :
  postgres_up E = true ->
  (Index.summarize_papers E files w = (inr vs, w') ->
   App.summarize_papers E files w = (inr vs, w'))
  /\
  (App.summarize_papers E files w = (inr vs, w') ->
   forall rows, db w' = db w ++ rows ->
   (forallb nul_free rows = true <-> Index.summarize_papers E files w = (inr vs, w')))
  /\
  (exists vs0 w0,
      App.summarize_papers nul_env [good_file] empty_world = (inr vs0, w0) /\
      Index.summarize_papers nul_env [good_file] empty_world
      = (inl nul_refused, World [] (calls w0) (drawn w0))).
Proof.
  intro Hup.
  pose proof (app_loop_run E files [] w) as Ha. fold (App.summarize_papers E files) in Ha.
  pose proof (@index_batch_run E files w Hup) as Hi.
  split; [|split].
  - destruct (batch_outcome E files (db w) (List.length (calls w)) (drawn w))
      as [[[rows vs'] rqs]|].
    + cbn [app] in Ha. rewrite Ha. destruct (forallb nul_free rows).
      * now rewrite Hi.
      * destruct Hi as (e & w2 & ->). discriminate.
    + destruct Hi as (e & w2 & ->). discriminate.
  - intros Hrun rows' Hdb.
    destruct (batch_outcome E files (db w) (List.length (calls w)) (drawn w))
      as [[[rows vs'] rqs]|].
    + cbn [app] in Ha. rewrite Ha in Hrun. injection Hrun as <- <-.
      cbn [db] in Hdb. apply app_inv_head in Hdb. subst rows'.
      destruct (forallb nul_free rows).
      * rewrite Hi. split; reflexivity.
      * destruct Hi as (e & w2 & ->). split; discriminate.
    + destruct Ha as (w1 & done & f & rest & rows & vs' & rqs & rqs' & Ha & _).
      rewrite Ha in Hrun. discriminate.
  - do 2 eexists. split; vm_compute; reflexivity.
Qed.

Lemma services_agree_on_success_witness :
  Index.summarize_papers batch_env [good_file] empty_world
  = (inr [View "good.pdf" "S" "C" [lit "Idea1"]],
     World [Row "id-0" "good.pdf" "S" "C" "Idea1"]
           [summary_request "Paper body..."; ideas_request "S"] 1).
Proof.
  apply (proj1 (proj1 (proj2 (@services_agree_on_success batch_env [good_file] empty_world
                                [View "good.pdf" "S" "C" [lit "Idea1"]]
                                (World [Row "id-0" "good.pdf" "S" "C" "Idea1"]
                                       [summary_request "Paper body..."; ideas_request "S"] 1)
                                eq_refl))
                  ltac:(vm_compute; reflexivity)
                  [Row "id-0" "good.pdf" "S" "C" "Idea1"] eq_refl)).
  reflexivity.
Defined.

Lemma app_loop_app (E : env) (done rest : list UploadFile) :
  forall (results : list summary_view) (w : world),
    App.summarize_loop E (done ++ rest) results w
    = match App.summarize_loop E done results w with
      | (inr vs, w1) => App.summarize_loop E rest vs w1
      | (inl e, w1) => (inl e, w1)
      end.
Proof.
  induction done as [|f done IH]; intros results w; [reflexivity|].
  simpl app. cbn [App.summarize_loop]. unfold bind.
  destruct (App.process_file E f w) as [[e|v] w1]; [reflexivity|]. apply IH.
Qed.

(** X12: a batch that fails in the SQLite service fails at its first
    upload that cannot be processed: the uploads before it, submitted
    alone, succeed and leave the table the failed batch leaves, one row
    per upload in upload order holding what was returned for it; the
    failing upload, submitted alone after them, fails with the same
    status 500, whose message names its file whatever went wrong (an
    extraction failure is reported as 500, not 400); at most two model
    calls and one identifier are spent on it and none on the uploads
    after it. *)
Theorem batch_stops_at_first_failure (E : env) (files : list UploadFile) (w : world)
    (e : exn) (w' : world) :
  App.summarize_papers E files w = (inl e, w') ->
  exists done f rest vs w1,
    files = done ++ f :: rest /\
    App.summarize_papers E done w = (inr vs, w1) /\
    App.summarize_papers E [f] w1 = (inl e, w') /\
    e = HTTPException 500 ("An error occurred while processing " ++ filename f ++ ".") /\
    db w' = db w1 /\
    (exists rows, db w1 = db w ++ rows /\ Forall2 stores rows vs) /\
    map view_filename vs = map filename done /\
    List.length (calls w1) = List.length (calls w) + 2 * List.length done /\
    drawn w1 = drawn w + List.length done /\
    (exists rqs, calls w' = calls w1 ++ rqs /\ List.length rqs <= 2) /\
    drawn w1 <= drawn w' <= drawn w1 + 1.
Proof.
  unfold App.summarize_papers. intro Hrun.
  destruct (app_loop_outcome E files [] w) as (r & w2 & H & Hcase).
  rewrite H in Hrun. injection Hrun as -> <-.
  destruct Hcase as (done & f & rest & rows0 & vs & w1 & -> & Hdone & Hfail & _).
  exists done, f, rest, vs, w1.
  split; [reflexivity|]. split; [exact Hdone|].
  split; [cbn [App.summarize_loop]; unfold bind; now rewrite Hfail|].
  pose proof (process_file_run E f w1) as Hf.
  destruct (file_outcome E f (db w1) (List.length (calls w1)) (drawn w1))
    as [[[r0 v0] rqs0]|].
  { rewrite Hf in Hfail. discriminate. }
  destruct Hf as (w3 & rqs & Hf & Hdb & Hcalls & Hle & Hdr).
  rewrite Hf in Hfail. injection Hfail as <- <-.
  split; [reflexivity|]. split; [exact Hdb|].
  apply app_batch_success in Hdone as (rows & rqs1 & Hb & ->).
  destruct (batch_outcome_shape _ _ _ _ _ Hb) as (H1 & H2 & _ & H4 & _).
  cbn [db calls drawn] in *.
  split; [now exists rows|]. split; [exact H2|].
  split; [rewrite length_app, H4; reflexivity|]. split; [reflexivity|].
  split; [now exists rqs | lia].
Qed.

Lemma batch_stops_at_first_failure_witness :
  exists done f rest vs w1,
    [good_file; bad_file; good_file] = done ++ f :: rest /\
    App.summarize_papers batch_env done empty_world = (inr vs, w1) /\
    HTTPException 500 "An error occurred while processing bad.pdf."
    = HTTPException 500 ("An error occurred while processing " ++ filename f ++ ".") /\
    db w1 = [Row "id-0" "good.pdf" "S" "C" "Idea1"].
Proof.
  destruct (@batch_stops_at_first_failure batch_env [good_file; bad_file; good_file]
              empty_world
              (HTTPException 500 "An error occurred while processing bad.pdf.")
              (World [Row "id-0" "good.pdf" "S" "C" "Idea1"]
                     [summary_request "Paper body..."; ideas_request "S"] 1))
    as (done & f & rest & vs & w1 & H1 & H2 & _ & H4 & H5 & _).
  - vm_compute. reflexivity.
  - exists done, f, rest, vs, w1. split; [exact H1|]. split; [exact H2|].
    split; [exact H4|]. now rewrite <- H5.
Defined.

(** X13: after a batch that succeeds, the listing holds one record per
    stored row, and every element of the batch's answer whose ideas have
    no separator [|] is listed exactly as it was returned. *)
Theorem results_listed_after_batch (E : env) (files : list UploadFile) (w : world)
    (vs : list summary_view) (w' : world) :
  App.summarize_papers E files w = (inr vs, w') ->
  exists views,
    App.get_summaries w' = (inr views, w') /\
    List.length views = List.length (db w) + List.length files /\
    forall v, In v vs -> separator_free (view_project_ideas v) = true -> In v views.
Proof.
  intro Hrun. apply app_batch_success in Hrun as (rows & rqs & Hb & ->).
  destruct (batch_outcome_shape _ _ _ _ _ Hb) as (H1 & H2 & H3 & _ & H5).
  eexists. split; [reflexivity|]. cbn [db]. split.
  - rewrite length_map. unfold order_by_filename.
    rewrite (Permutation_length (sort_by_perm _ (db w ++ rows))), length_app.
    f_equal. rewrite <- (length_map row_id), H3, length_map, length_seq. reflexivity.
  - intros v Hin Hfree.
    destruct (@Forall2_in_r _ _ stores rows vs v H1 Hin) as (r & Hr & Hf & Hs & Hc & Hi).
    rewrite Forall_forall in H5. destruct (H5 v Hin) as [out Hout].
    apply in_map_iff. exists r. split.
    + destruct r as [i f s c p], v as [vf vsum vc vi].
      cbn [row_filename row_summary row_conclusion row_project_ideas
           view_filename view_summary view_conclusion view_project_ideas] in *.
      subst f s c p. apply read_back_ideas; [now apply separator_free_forall|].
      intro Heq. assert (Hnil : In [] (parse_ideas out)) by (rewrite <- Hout, Heq; now left).
      now destruct (@parse_ideas_shape out [] Hnil) as [Hne _].
    + eapply Permutation_in; [apply Permutation_sym, sort_by_perm|].
      apply in_or_app. now right.
Qed.

Lemma results_listed_after_batch_witness :
  exists views,
    App.get_summaries (World [Row "id-0" "good.pdf" "S" "C" "Idea1"]
                             [summary_request "Paper body..."; ideas_request "S"] 1)
    = (inr views, World [Row "id-0" "good.pdf" "S" "C" "Idea1"]
                        [summary_request "Paper body..."; ideas_request "S"] 1) /\
    In (View "good.pdf" "S" "C" [lit "Idea1"]) views.
Proof.
  destruct (@results_listed_after_batch batch_env [good_file] empty_world
              [View "good.pdf" "S" "C" [lit "Idea1"]]
              (World [Row "id-0" "good.pdf" "S" "C" "Idea1"]
                     [summary_request "Paper body..."; ideas_request "S"] 1))
    as (views & H1 & _ & H3).
  - vm_compute. reflexivity.
  - exists views. split; [exact H1|]. apply H3; [now left | reflexivity].
Defined.

(** X14: when the database cannot be reached, the Postgres service
    answers 500 to a batch and to a listing at once: no upload is read,
    no model call is made and nothing is stored. *)
Theorem database_down (E : env) (files : list UploadFile) (w : world) :
  postgres_up E = false ->
  Index.get_db_connection E w
  = (inl (HTTPException 500 "Could not connect to the database."), w) /\
  (exists d, Index.summarize_papers E files w = (inl (HTTPException 500 d), w)) /\
  (exists d, Index.get_summaries E w = (inl (HTTPException 500 d), w)).
Proof.
  intro Hdown.
  unfold Index.summarize_papers, Index.get_summaries, try_except, bind,
    Index.get_db_connection.
  rewrite Hdown. split; [reflexivity|]. split; eexists; reflexivity.
Qed.

Lemma database_down_witness :
  exists d,
    Index.summarize_papers
      (Env (fun _ _ => Some (lit "S Conclusion: C")) (fun _ => lit "id") (fun _ => None)
           (fun _ => lit "{}") (fun _ => lit "?") false str_leb)
      [good_file] empty_world
    = (inl (HTTPException 500 d), empty_world).
Proof.
  exact (proj1 (proj2 (@database_down
                         (Env (fun _ _ => Some (lit "S Conclusion: C")) (fun _ => lit "id")
                              (fun _ => None) (fun _ => lit "{}") (fun _ => lit "?")
                              false str_leb)
                         [good_file] empty_world eq_refl))).
Defined.

(** ** Sanitization, continued *)

(** X15: a script in which neither the text [require('] nor the word
    [import] occurs is returned unchanged; in particular a [require]
    written with double quotes is never touched. *)
Theorem untouched_without_patterns (code : str) :
  contains code "require('" = false ->
  contains code "import" = false ->
  clean_js_code code = code.
Proof.
  intros H1 H2. apply clean_js_code_identity.
  - now apply (re_found_contains require_re "require('" code require_match_call).
  - now apply (re_found_contains import_re "import" code import_match_keyword).
Qed.

Lemma untouched_without_patterns_witness :
  clean_js_code require_double_quoted = require_double_quoted.
Proof.
  apply untouched_without_patterns; reflexivity.
Defined.

Lemma require_no_match_newline (t : str) : re_match require_re (newline :: t) = None.
Proof. reflexivity. Qed.

Lemma require_lines_commented (l : list (str * str)) :
  Forall (fun p => js_names (fst p) = true /\ js_module (snd p) = true) l ->
  re_sub require_re require_repl
    (join [newline] (map (fun p => require_stmt (fst p) (snd p)) l))
  = join [newline] (map (fun p => commented_require (fst p ++ [" "%char]) (snd p)) l).
Proof.
  induction 1 as [|[names module] l [Hn Hm] Hl IH]; [reflexivity|].
  cbn [fst snd] in *. destruct l as [|q l].
  - cbn [map join]. now apply require_stmt_commented.
  - change (join [newline] (map (fun p => require_stmt (fst p) (snd p))
                               ((names, module) :: q :: l)))
      with (require_stmt names module
            ++ newline :: join [newline] (map (fun p => require_stmt (fst p) (snd p))
                                            (q :: l))).
    change (join [newline] (map (fun p => commented_require (fst p ++ [" "%char]) (snd p))
                               ((names, module) :: q :: l)))
      with (commented_require (names ++ [" "%char]) module
            ++ newline :: join [newline]
                 (map (fun p => commented_require (fst p ++ [" "%char]) (snd p)) (q :: l))).
    unfold re_sub in *.
    pose proof (@require_stmt_match_rest names module
                  (newline :: join [newline] (map (fun p => require_stmt (fst p) (snd p))
                                                (q :: l))) Hn Hm) as Hmatch.
    change (require_stmt names module)
      with ("c"%char :: ("onst " ++ names ++ " = require('" ++ module ++ "');")) in Hmatch |- *.
    rewrite (@sub_scan_match require_re require_repl _ _ _ _ Hmatch).
    rewrite expand_require. f_equal.
    cbn [sub_scan]. rewrite require_no_match_newline. now rewrite IH.
Qed.

Lemma quote_semi_newline (a b : str) :
  quote_semi (a ++ newline :: b) = quote_semi a || quote_semi b.
Proof.
  induction a as [|x a IH].
  - simpl app. cbn [quote_semi]. destruct b; reflexivity.
  - destruct a as [|y a].
    + simpl app. cbn [quote_semi]. rewrite andb_false_r. destruct b; reflexivity.
    + change ((x :: y :: a) ++ newline :: b) with (x :: y :: (a ++ newline :: b)).
      change (quote_semi (x :: y :: (a ++ newline :: b)))
        with ((isquote x && Ascii.eqb y ";") || quote_semi ((y :: a) ++ newline :: b)).
      rewrite IH. change (quote_semi (x :: y :: a))
        with ((isquote x && Ascii.eqb y ";") || quote_semi (y :: a)).
      now rewrite orb_assoc.
Qed.

Lemma commented_lines_no_quote_semi (l : list (str * str)) :
  Forall (fun p => js_names (fst p) = true /\ js_module (snd p) = true) l ->
  quote_semi (join [newline]
                (map (fun p => commented_require (fst p ++ [" "%char]) (snd p)) l)) = false.
Proof.
  induction 1 as [|[names module] l [Hn Hm] Hl IH]; [reflexivity|].
  cbn [fst snd] in *. destruct l as [|q l].
  - cbn [map join]. now apply commented_no_quote_semi.
  - change (join [newline] (map (fun p => commented_require (fst p ++ [" "%char]) (snd p))
                               ((names, module) :: q :: l)))
      with (commented_require (names ++ [" "%char]) module
            ++ newline :: join [newline]
                 (map (fun p => commented_require (fst p ++ [" "%char]) (snd p)) (q :: l))).
    rewrite quote_semi_newline, IH, commented_no_quote_semi by assumption. reflexivity.
Qed.

(** X16: a script made of statements [const <names> = require('<module>');],
    one per line, is rewritten line by line: every statement becomes its
    comment and the line breaks stay where they were. *)
Theorem require_lines_cleaned (l : list (str * str)) :
  Forall (fun p => js_names (fst p) = true /\ js_module (snd p) = true) l ->
  clean_js_code (join [newline] (map (fun p => require_stmt (fst p) (snd p)) l))
  = join [newline] (map (fun p => commented_require (fst p ++ [" "%char]) (snd p)) l).
Proof.
  intro Hl. unfold clean_js_code. rewrite (@require_lines_commented l Hl).
  apply re_sub_no_match, re_found_false.
  intros u t Heq. destruct (re_match import_re t) as [x|] eqn:Hx; [|reflexivity].
  apply import_match_quote_semi in Hx.
  pose proof (@commented_lines_no_quote_semi l Hl) as Hno.
  rewrite Heq in Hno. rewrite (quote_semi_app_r u _ Hx) in Hno. discriminate.
Qed.

Lemma require_lines_cleaned_witness :
  clean_js_code ("const fs = require('fs');" ++ [newline]
                 ++ "const { join } = require('path');")
  = commented_require "fs " "fs" ++ [newline] ++ commented_require "{ join } " "path".
Proof.
  apply (@require_lines_cleaned [(lit "fs", lit "fs"); (lit "{ join }", lit "path")]).
  repeat constructor.
Defined.

(** ** The scraper of [src/blackmailer.py] *)

Import Scraper.
















(** One pass of the main loop, as an equation. *)




Lemma extends_quietly_refl (s : shell) : extends_quietly s s.
Proof. exists []. split; [now rewrite app_nil_r | constructor]. Qed.












Lemma crawl_stopped_example :
  visit_all demo_web [lit "google.com"; lit "broken.example"; lit "nobroker.in"] empty_shell
  = (Uncaught,
     Shell [ lit "[+] Found known policy URL for google.com.";
             lit "[*] Scraping content from https://policies.google.com/privacy...";
             lit "[+] Successfully saved policy for google.com to privacy_policies/google.com_privacy_policy.txt";
             lit "---";
             lit "[*] No known URL for broken.example. Searching homepage..." ]
           [ lit "https://policies.google.com/privacy"; lit "https://www.broken.example" ]
           [ (lit "privacy_policies/google.com_privacy_policy.txt", lit "Google policy.") ]).
Proof. vm_compute. reflexivity. Qed.
